(** * Search API: plan builder, candidate query builder, pipeline, pagination

    A shallow embedding of the TypeScript sources

    - [services/search.plan.ts]          (plan validation and normalisation),
    - [services/queries/candidate.query] (SQL text and bound values, row mapping),
    - [services/search/search.service.ts] and the six stage modules,

    together with the properties the specification states about them.

    Conventions of the embedding.

    - A JavaScript number is [NaN], one of the two infinities, or a finite
      value carried as a rational; negative zero is identified with zero.
      [Math.floor], [Math.ceil], [Math.min], [Math.max], the comparisons and
      [Number.isFinite] are exact on doubles, so they are modelled without
      loss.  An arithmetic operator returns the exact result rounded to the
      nearest double: [double] of the exact operation.  The candidate query
      is modelled with the rounding (the radius in metres).  The plan
      builder and the pagination stage are modelled with the exact
      operations: the tests they make on the results ([nights < 1],
      [guests <= 0], the bounds of [slice] on an array) come out the same
      with and without the rounding, and [nights] and [guests] are the
      values the program computes when the dates are less than [2^53]
      milliseconds apart and the guest counts add up to a whole number
      below [2^53] ([nights_rounded], [sum_rounded]).
    - A string is the sequence of the bytes of its UTF-8 encoding.
    - A value of type [unknown] is a [jsval]: a primitive or a reference to
      an object of the heap.
    - What the runtime provides and the repository does not define
      (string-to-number conversion, [Date] parsing, the printing of numbers
      other than whole numbers up to [2^53], the database) is a [Variable] of
      the section that uses it: every theorem holds whatever these do.
    - A thrown [SearchPlanValidationError] is the [Err] of its error code;
      the human-readable message is not modelled.  Console logging and
      timing calls are not modelled. *)

From Stdlib Require Import ZArith QArith Qround Qabs Qpower Lqa Lia String Ascii List
  DecimalString.
From stdpp Require Import gmap strings list.

Open Scope Z_scope.

(** ** JavaScript numbers *)

Inductive number : Type :=
| NaN
| PosInf
| NegInf
| Fin (q : Q).

Definition of_Z (z : Z) : number := Fin (inject_Z z).

Definition Qlt_bool (a b : Q) : bool := negb (Qle_bool b a).

(** Truncation towards zero (the rounding of [ToIntegerOrInfinity]). *)
Definition Qtrunc (q : Q) : Z :=
  if Qlt_bool q 0 then Qceiling q else Qfloor q.

Definition Number_isFinite (n : number) : bool :=
  match n with Fin _ => true | _ => false end.

(** [a < b] on numbers: false as soon as one side is [NaN]. *)
Definition num_lt (a b : number) : bool :=
  match a, b with
  | NaN, _ | _, NaN => false
  | PosInf, _ => false
  | _, NegInf => false
  | NegInf, _ => true
  | _, PosInf => true
  | Fin x, Fin y => Qlt_bool x y
  end.

(** [a <= b] on numbers. *)
Definition num_le (a b : number) : bool :=
  match a, b with
  | NaN, _ | _, NaN => false
  | NegInf, _ => true
  | _, PosInf => true
  | PosInf, _ => false
  | _, NegInf => false
  | Fin x, Fin y => Qle_bool x y
  end.

Definition num_gt (a b : number) : bool := num_lt b a.
Definition num_ge (a b : number) : bool := num_le b a.

Definition Math_floor (n : number) : number :=
  match n with Fin q => of_Z (Qfloor q) | _ => n end.

Definition Math_ceil (n : number) : number :=
  match n with Fin q => of_Z (Qceiling q) | _ => n end.

Definition Math_max (a b : number) : number :=
  match a, b with
  | NaN, _ | _, NaN => NaN
  | _, _ => if num_lt a b then b else a
  end.

Definition Math_min (a b : number) : number :=
  match a, b with
  | NaN, _ | _, NaN => NaN
  | _, _ => if num_lt b a then b else a
  end.

Definition num_neg (a : number) : number :=
  match a with
  | NaN => NaN
  | PosInf => NegInf
  | NegInf => PosInf
  | Fin q => Fin (- q)
  end.

Definition num_add (a b : number) : number :=
  match a, b with
  | NaN, _ | _, NaN => NaN
  | PosInf, NegInf | NegInf, PosInf => NaN
  | PosInf, _ | _, PosInf => PosInf
  | NegInf, _ | _, NegInf => NegInf
  | Fin x, Fin y => Fin (x + y)
  end.

Definition num_sub (a b : number) : number := num_add a (num_neg b).

(** The infinity of the sign of [q]; [NaN] when [q] is zero. *)
Definition signed_inf (q : Q) : number :=
  if Qlt_bool 0 q then PosInf
  else if Qlt_bool q 0 then NegInf
  else NaN.

Definition num_mul (a b : number) : number :=
  match a, b with
  | NaN, _ | _, NaN => NaN
  | PosInf, PosInf | NegInf, NegInf => PosInf
  | PosInf, NegInf | NegInf, PosInf => NegInf
  | PosInf, Fin y | Fin y, PosInf => signed_inf y
  | NegInf, Fin y | Fin y, NegInf => signed_inf (- y)
  | Fin x, Fin y => Fin (x * y)
  end.

Definition num_div (a b : number) : number :=
  match a, b with
  | NaN, _ | _, NaN => NaN
  | (PosInf | NegInf), (PosInf | NegInf) => NaN
  | PosInf, Fin y => if Qlt_bool y 0 then NegInf else PosInf
  | NegInf, Fin y => if Qlt_bool y 0 then PosInf else NegInf
  | Fin _, (PosInf | NegInf) => of_Z 0
  | Fin x, Fin y => if Qeq_bool y 0 then signed_inf x else Fin (x / y)
  end.

(** ** Doubles

    The operations above are the exact ones; [double] rounds their result as
    the operators of JavaScript do. *)

(** The integer nearest to [q], the even one of two that are equally near. *)
Definition round_half_even (q : Q) : Z :=
  let f := Qfloor q in
  match (q - inject_Z f ?= 1 # 2)%Q with
  | Lt => f
  | Gt => f + 1
  | Eq => if Z.even f then f else f + 1
  end.

(** [floor (log2 q)] for a positive [q]. *)
Definition ilog2 (q : Q) : Z :=
  let e := Z.log2 (Qnum q) - Z.log2 (Zpos (Qden q)) in
  if Qle_bool (2 ^ e) q then e else e - 1.

(** The double nearest to [q] (IEEE 754 binary64, round to nearest, ties to
    even): a multiple [m * 2^e] with [m] of at most 53 bits, [e] being
    [-1074] in the subnormal range; an infinity from [2^1024 - 2^970] on. *)
Definition round64 (q : Q) : number :=
  if Qeq_bool q 0 then of_Z 0
  else
    let a := Qabs q in
    let e := Z.max (ilog2 a - 52) (-1074) in
    let m := round_half_even (a / 2 ^ e) in
    let v := (inject_Z m * 2 ^ e)%Q in
    if Qle_bool (2 ^ 1024) v
    then (if Qlt_bool q 0 then NegInf else PosInf)
    else Fin (Qred (if Qlt_bool q 0 then - v else v)).

(** The result of a double operation whose exact result is [n]. *)
Definition double (n : number) : number :=
  match n with Fin q => round64 q | _ => n end.

(** ** JavaScript values *)

Definition loc := positive.

Inductive jsval : Type :=
| VUndefined
| VNull
| VBool (b : bool)
| VNum (n : number)
| VStr (s : string)
| VRef (l : loc).

(** [v ?? d] *)
Definition nullish (v d : jsval) : jsval :=
  match v with VUndefined | VNull => d | _ => v end.

(** Property read [o.k] on a plain object: [undefined] when absent. *)
Definition prop (o : gmap string jsval) (k : string) : jsval :=
  default VUndefined (o !! k).

(** ** Strings *)

Definition show_nat (n : nat) : string := NilEmpty.string_of_uint (Nat.to_uint n).

Definition show_Z (z : Z) : string :=
  match z with
  | Z0 => "0"
  | Zpos p => show_nat (Pos.to_nat p)
  | Zneg p => "-" +:+ show_nat (Pos.to_nat p)
  end.

(** [String.prototype.trim] removes the white space and the line terminators
    of ECMAScript: six characters of one byte, U+00A0 of two, and eighteen
    of three bytes. *)

(** White space and line terminators of one byte: TAB, LF, VT, FF, CR and
    the space. *)
Definition is_space (c : ascii) : bool :=
  let n := nat_of_ascii c in
  (Nat.eqb n 9 || Nat.eqb n 10 || Nat.eqb n 11 || Nat.eqb n 12
   || Nat.eqb n 13 || Nat.eqb n 32)%bool.

(** Of two bytes: U+00A0, [C2 A0]. *)
Definition is_space2 (c1 c2 : ascii) : bool :=
  (Nat.eqb (nat_of_ascii c1) 194 && Nat.eqb (nat_of_ascii c2) 160)%bool.

(** Of three bytes: U+1680 [E1 9A 80]; U+2000 to U+200A, U+2028, U+2029 and
    U+202F [E2 80 80..8A, A8, A9, AF]; U+205F [E2 81 9F]; U+3000 [E3 80 80];
    U+FEFF [EF BB BF]. *)
Definition is_space3 (c1 c2 c3 : ascii) : bool :=
  let n1 := nat_of_ascii c1 in
  let n2 := nat_of_ascii c2 in
  let n3 := nat_of_ascii c3 in
  ((Nat.eqb n1 225 && Nat.eqb n2 154 && Nat.eqb n3 128)
   || (Nat.eqb n1 226 && Nat.eqb n2 128
       && ((Nat.leb 128 n3 && Nat.leb n3 138)
           || Nat.eqb n3 168 || Nat.eqb n3 169 || Nat.eqb n3 175))
   || (Nat.eqb n1 226 && Nat.eqb n2 129 && Nat.eqb n3 159)
   || (Nat.eqb n1 227 && Nat.eqb n2 128 && Nat.eqb n3 128)
   || (Nat.eqb n1 239 && Nat.eqb n2 187 && Nat.eqb n3 191))%bool.

(** Removal of the leading white space, the tests on two and three bytes
    being given. *)
Fixpoint strip (w2 : ascii -> ascii -> bool) (w3 : ascii -> ascii -> ascii -> bool)
    (s : list ascii) : list ascii :=
  match s with
  | c1 :: s1 =>
      if is_space c1 then strip w2 w3 s1
      else match s1 with
           | c2 :: s2 =>
               if w2 c1 c2 then strip w2 w3 s2
               else match s2 with
                    | c3 :: s3 => if w3 c1 c2 c3 then strip w2 w3 s3 else s
                    | [] => s
                    end
           | [] => s
           end
  | [] => []
  end.

(** [s.trimStart()] *)
Definition trim_start (s : string) : string :=
  string_of_list_ascii (strip is_space2 is_space3 (list_ascii_of_string s)).

(** [s.trimEnd()]: the same from the end, each code point being read from its
    last byte. *)
Definition trim_end (s : string) : string :=
  string_of_list_ascii
    (rev (strip (fun c2 c1 => is_space2 c1 c2) (fun c3 c2 c1 => is_space3 c1 c2 c3)
                (rev (list_ascii_of_string s)))).

Definition trim (s : string) : string := trim_end (trim_start s).

(** [t.includes(s)]: [s] occurs in [t] as a contiguous substring. *)
Fixpoint includes (t s : string) : bool :=
  (String.prefix s t ||
   match t with
   | String _ t' => includes t' s
   | EmptyString => false
   end)%bool.

Definition ends_with (t s : string) : bool :=
  String.eqb (String.substring (String.length t - String.length s) (String.length s) t) s.

(** ** Results of fallible code *)

Inductive result (E A : Type) : Type :=
| Ok (a : A)
| Err (e : E).
Arguments Ok {E A} a.
Arguments Err {E A} e.

#[global] Instance result_ret {E} : MRet (result E) := fun _ a => Ok a.
#[global] Instance result_bind {E} : MBind (result E) :=
  fun _ _ f r => match r with Ok a => f a | Err e => Err e end.

#[global] Instance result_fmap {E} : FMap (result E) :=
  fun _ _ f r => match r with Ok a => Ok (f a) | Err e => Err e end.

(** ** Data model ([services/search/types.ts]) *)

Module Input.
(** [SearchInput].  Every field is held as the raw value the caller sent;
    an optional field that is absent is [VUndefined], an absent filter map
    is [None]. *)
Record t : Type := mk {
  latitude : jsval;
  longitude : jsval;
  checkIn : jsval;
  checkOut : jsval;
  adults : jsval;
  children : jsval;
  page : jsval;
  pageSize : jsval;
  filters : option (gmap string jsval)
}.
End Input.

Record Geo : Type := mkGeo { lat : number; lon : number }.

Module Plan.
(** [SearchPlan].  A [Date] is held as its time value in milliseconds.
    [geo] is optional here because the query builder tests it. *)
Record t : Type := mk {
  input : Input.t;
  checkInDate : Z;
  checkOutDate : Z;
  nights : number;
  guests : number;
  page : number;
  pageSize : number;
  geo : option Geo;
  radius : number;
  hasChildren : bool;
  options : option (gmap string jsval)
}.

(** [plan.options?.k] *)
Definition option_ (p : t) (k : string) : jsval :=
  match options p with
  | Some o => prop o k
  | None => VUndefined
  end.

Definition with_options (p : t) (o : option (gmap string jsval)) : t :=
  mk (input p) (checkInDate p) (checkOutDate p) (nights p) (guests p)
     (page p) (pageSize p) (geo p) (radius p) (hasChildren p) o.

Definition with_radius (p : t) (r : number) : t :=
  mk (input p) (checkInDate p) (checkOutDate p) (nights p) (guests p)
     (page p) (pageSize p) (geo p) r (hasChildren p) (options p).
End Plan.

(** ** Plan builder ([services/search.plan.ts]) *)

Inductive SearchPlanErrorCode : Type :=
| INVALID_CHECK_IN
| INVALID_CHECK_OUT
| INVALID_LATITUDE
| INVALID_LONGITUDE
| ARRIVAL_AFTER_DEPARTURE
| STAY_TOO_SHORT
| NO_GUESTS
| INVALID_GUEST_COUNTS.

Definition MS_PER_DAY : Z := 24 * 60 * 60 * 1000.
Definition DEFAULT_PAGE : number := of_Z 1.
Definition DEFAULT_PAGE_SIZE : number := of_Z 20.
Definition DEFAULT_RADIUS_KM : number := of_Z 10.
Definition MIN_RADIUS_KM : number := of_Z 1.
Definition MAX_RADIUS_KM : number := of_Z 500.
Definition MIN_PAGE : number := of_Z 1.
Definition MIN_PAGE_SIZE : number := of_Z 1.
Definition MAX_PAGE_SIZE : number := of_Z 100.
Definition MAX_SAFE_INTEGER : Z := 9007199254740991.

Definition LAT_MIN : number := of_Z (-90).
Definition LAT_MAX : number := of_Z 90.
Definition LON_MIN : number := of_Z (-180).
Definition LON_MAX : number := of_Z 180.

Inductive DateField : Type := FcheckIn | FcheckOut.

Definition date_error (f : DateField) : SearchPlanErrorCode :=
  match f with FcheckIn => INVALID_CHECK_IN | FcheckOut => INVALID_CHECK_OUT end.

Section Runtime.

(** [Number(s)] on a string, [Number(o)] on an object, and the time value
    of [new Date(s)] ([None] for an invalid date). *)
Variable StringToNumber : string -> number.
Variable ObjectToNumber : loc -> number.
Variable DateParse : string -> option Z.

(** [Number(v)] *)
Definition Number (v : jsval) : number :=
  match v with
  | VUndefined => NaN
  | VNull => of_Z 0
  | VBool true => of_Z 1
  | VBool false => of_Z 0
  | VNum n => n
  | VStr s => StringToNumber s
  | VRef l => ObjectToNumber l
  end.

Definition parseDate (value : jsval) (field : DateField)
  : result SearchPlanErrorCode Z :=
  match value with
  | VStr s =>
      if String.eqb (trim s) "" then Err (date_error field)
      else match DateParse (trim s) with
           | None => Err (date_error field)
           | Some d => Ok d
           end
  | _ => Err (date_error field)
  end.

Definition parseNumber (value : jsval) (defaultVal min max : number) : number :=
  match value with
  | VUndefined | VNull => defaultVal
  | _ =>
      let n := Number value in
      if negb (Number_isFinite n) then defaultVal
      else Math_min max (Math_max min (Math_floor n))
  end.

Definition parseGeo (input : Input.t) : result SearchPlanErrorCode Geo :=
  let la := Number (Input.latitude input) in
  let lo := Number (Input.longitude input) in
  if negb (Number_isFinite la) then Err INVALID_LATITUDE
  else if (num_lt la LAT_MIN || num_gt la LAT_MAX)%bool then Err INVALID_LATITUDE
  else if negb (Number_isFinite lo) then Err INVALID_LONGITUDE
  else if (num_lt lo LON_MIN || num_gt lo LON_MAX)%bool then Err INVALID_LONGITUDE
  else Ok {| lat := la; lon := lo |}.

Definition extractRadiusKm (filters : option (gmap string jsval)) : number :=
  match filters with
  | None => DEFAULT_RADIUS_KM
  | Some f =>
      let r := nullish (prop f "radiusKm") (prop f "radius") in
      match r with
      | VUndefined | VNull => DEFAULT_RADIUS_KM
      | _ =>
          let n := Number r in
          if negb (Number_isFinite n) then DEFAULT_RADIUS_KM
          else Math_min MAX_RADIUS_KM (Math_max MIN_RADIUS_KM n)
      end
  end.

Definition buildSearchPlan (input : Input.t) : result SearchPlanErrorCode Plan.t :=
  checkInDate ← parseDate (Input.checkIn input) FcheckIn;
  checkOutDate ← parseDate (Input.checkOut input) FcheckOut;
  if checkInDate >=? checkOutDate then Err ARRIVAL_AFTER_DEPARTURE
  else
    let nights :=
      Math_floor (num_div (num_sub (of_Z checkOutDate) (of_Z checkInDate))
                          (of_Z MS_PER_DAY)) in
    if num_lt nights (of_Z 1) then Err STAY_TOO_SHORT
    else
      let adults := Number (Input.adults input) in
      let children := Number (nullish (Input.children input) (VNum (of_Z 0))) in
      if (negb (Number_isFinite adults) || num_lt adults (of_Z 0)
          || negb (Number_isFinite children) || num_lt children (of_Z 0))%bool
      then Err INVALID_GUEST_COUNTS
      else
        let guests := num_add adults children in
        if num_le guests (of_Z 0) then Err NO_GUESTS
        else
          let page :=
            parseNumber (Input.page input) DEFAULT_PAGE MIN_PAGE (of_Z MAX_SAFE_INTEGER) in
          let pageSize :=
            parseNumber (Input.pageSize input) DEFAULT_PAGE_SIZE MIN_PAGE_SIZE MAX_PAGE_SIZE in
          geo ← parseGeo input;
          let radius := extractRadiusKm (Input.filters input) in
          let hasChildren := num_gt children (of_Z 0) in
          Ok {| Plan.input := input;
                Plan.checkInDate := checkInDate;
                Plan.checkOutDate := checkOutDate;
                Plan.nights := nights;
                Plan.guests := guests;
                Plan.page := page;
                Plan.pageSize := pageSize;
                Plan.geo := Some geo;
                Plan.radius := radius;
                Plan.hasChildren := hasChildren;
                Plan.options := Input.filters input |}.

End Runtime.

(** ** Candidate query ([services/queries/candidate.query]) *)

Definition CANDIDATE_HARD_LIMIT : number := of_Z 1000.
Definition CANDIDATE_HARD_LIMIT_MAX : number := of_Z 3000.

Definition resolveCandidateLimit (plan : Plan.t) : number :=
  match Plan.option_ plan "candidateHardLimit" with
  | VNum opt =>
      if (Number_isFinite opt && num_gt opt (of_Z 0))%bool
      then Math_min (Math_floor opt) CANDIDATE_HARD_LIMIT_MAX
      else CANDIDATE_HARD_LIMIT
  | _ => CANDIDATE_HARD_LIMIT
  end.

Definition CAPACITY_COLUMNS : list string := ["max_guests"; "maximum_guests"; "capacity"].
Definition GEO_COLUMNS : list string := ["location"; "geo"].

(** [arr.includes(c)] on an array of strings. *)
Definition array_includes (arr : list string) (c : string) : bool :=
  existsb (String.eqb c) arr.

Definition getCapacityColumn (plan : Plan.t) : option string :=
  match Plan.option_ plan "capacityColumn" with
  | VStr c => if array_includes CAPACITY_COLUMNS c then Some c else None
  | _ => None
  end.

Definition getGeoColumn (plan : Plan.t) : string :=
  match Plan.option_ plan "geoColumn" with
  | VStr c => if array_includes GEO_COLUMNS c then c else "location"
  | _ => "location"
  end.

Definition LF : string := String (ascii_of_nat 10) EmptyString.

Record Query : Type := mkQuery { text : string; values : list jsval }.

(** The builder's mutable locals ([conditions], [values], [selectParts],
    [pos], [withParams]) are threaded through the three blocks in the order
    of the source. *)
Definition buildCandidateSql (plan : Plan.t) : Query :=
  let conditions : list string := [] in
  let values : list jsval := [] in
  let selectParts : list string := ["p.id"; "p.name"; "p.city"; "p.country"] in
  let pos : nat := 1%nat in
  (* --- Capacity --- *)
  let capCol := getCapacityColumn plan in
  let '(conditions, values, selectParts, pos) :=
    match capCol with
    | Some c =>
        (conditions ++ ["p." +:+ c +:+ " >= $" +:+ show_nat pos],
         values ++ [VNum (Plan.guests plan)],
         selectParts ++
           [if String.eqb c "maximum_guests" then "p.maximum_guests AS max_guests"
            else if String.eqb c "capacity" then "p.capacity AS max_guests"
            else "p.max_guests"],
         S pos)
    | None => (conditions, values, selectParts, pos)
    end in
  (* --- Geo --- *)
  let geoCol := getGeoColumn plan in
  let withParams := "" in
  let '(withParams, conditions, values, selectParts, pos) :=
    match Plan.geo plan with
    | Some g =>
        let values := values ++ [VNum (lon g); VNum (lat g)] in
        let lonParam := pos in
        let pos := S pos in
        let latParam := pos in
        let pos := S pos in
        let withParams :=
          LF +:+ "WITH params AS (" +:+ LF +:+
          "  SELECT" +:+ LF +:+
          "    ST_SetSRID(ST_MakePoint($" +:+ show_nat lonParam +:+ ", $" +:+
          show_nat latParam +:+ "), 4326)::geography AS p" +:+ LF +:+
          ")" in
        let conditions :=
          conditions ++
            ["ST_DWithin(p." +:+ geoCol +:+ "::geography, params.p, $" +:+
             show_nat pos +:+ ")"] in
        let values := values ++ [VNum (double (num_mul (Plan.radius plan) (of_Z 1000)))] in
        let pos := S pos in
        let selectParts :=
          selectParts ++
            ["ST_Distance(p." +:+ geoCol +:+ "::geography, params.p) AS distance_meters"] in
        (withParams, conditions, values, selectParts, pos)
    | None => (withParams, conditions, values, selectParts, pos)
    end in
  (* --- Limit --- *)
  let hardLimit := resolveCandidateLimit plan in
  let values := values ++ [VNum hardLimit] in
  let limitParam := pos in
  let whereClause :=
    match conditions with
    | [] => "TRUE"
    | _ => String.concat " AND " conditions
    end in
  let text :=
    trim (LF +:+ withParams +:+ LF +:+
          "SELECT " +:+ String.concat ", " selectParts +:+ LF +:+
          "FROM properties p" +:+ LF +:+
          match Plan.geo plan with Some _ => ", params" | None => "" end +:+ LF +:+
          "WHERE " +:+ whereClause +:+ LF +:+
          "ORDER BY p.id" +:+ LF +:+
          "LIMIT $" +:+ show_nat limitParam +:+ ";" +:+ LF) in
  {| text := text; values := values |}.

(** [CandidateRow]: a row as the store returns it.  The three columns the
    mapper coerces are kept as raw values. *)
Record CandidateRow : Type := mkRow {
  row_id : jsval;
  row_name : option string;
  row_city : option string;
  row_country : option string;
  row_distance_meters : jsval;
  row_max_guests : jsval;
  row_destination_id : option string
}.

Record CandidateProperty : Type := mkCandidate {
  id : string;
  name : string;
  propertyType : option string;
  location : option string;
  distance_meters : option string;
  destinationId : option string;
  amenities : option (list string);
  bedrooms : option number;
  bathrooms : option number;
  maxGuests : option number
}.

(** [AvailableProperty] and [PricedProperty] widen the candidate record. *)
Record AvailableProperty : Type := mkAvailable {
  candidate_of : CandidateProperty;
  unitId : option string
}.

Record PricedProperty : Type := mkPriced {
  available_of : AvailableProperty;
  totalPrice : number;
  currency : string;
  pricePerNight : option number;
  breakdown : option (gmap string number)
}.

Section RowMapping.

(** What the runtime prints for a finite number other than an integer of at
    most [2^53] in magnitude (a fraction, or an integer printed with its
    shortest digits that read back as the same double), and for an
    object. *)
Variable StringToNumber : string -> number.
Variable ObjectToNumber : loc -> number.
Variable FractionToString : Q -> string.
Variable ObjectToString : loc -> string.

(** [String(n)] on a number. *)
Definition NumberToString (n : number) : string :=
  match n with
  | NaN => "NaN"
  | PosInf => "Infinity"
  | NegInf => "-Infinity"
  | Fin q =>
      if (Qeq_bool q (inject_Z (Qfloor q)) && (Z.abs (Qfloor q) <=? 2 ^ 53))%bool
      then show_Z (Qfloor q)
      else FractionToString q
  end.

(** [String(v)] *)
Definition ToString (v : jsval) : string :=
  match v with
  | VUndefined => "undefined"
  | VNull => "null"
  | VBool true => "true"
  | VBool false => "false"
  | VNum n => NumberToString n
  | VStr s => s
  | VRef l => ObjectToString l
  end.

(** [x != null] *)
Definition not_nullish (v : jsval) : bool :=
  match v with VUndefined | VNull => false | _ => true end.

(** [[a, b].filter(Boolean)] on strings that may be [null]. *)
Definition filter_Boolean (l : list (option string)) : list string :=
  omap (fun o => match o with
                 | Some s => if String.eqb s "" then None else Some s
                 | None => None
                 end) l.

Definition mapRowToCandidate (r : CandidateRow) : CandidateProperty :=
  {| id := ToString (row_id r);
     name := default "" (row_name r);
     propertyType := None;
     location :=
       (let s := String.concat ", " (filter_Boolean [row_city r; row_country r]) in
        if String.eqb s "" then None else Some s);
     distance_meters :=
       if not_nullish (row_distance_meters r)
       then Some (NumberToString
                    (Math_floor (Number StringToNumber ObjectToNumber (row_distance_meters r)))
                  +:+ " Meters")
       else None;
     destinationId := row_destination_id r;
     amenities := None;
     bedrooms := None;
     bathrooms := None;
     maxGuests :=
       if not_nullish (row_max_guests r)
       then Some (Number StringToNumber ObjectToNumber (row_max_guests r))
       else None |}.

End RowMapping.

(** ** Pagination stage ([stages/pagination.stage.ts]) *)

Module Result.
(** [SearchResult] and its [pagination] block. *)
Record meta : Type := mkMeta {
  page : number;
  pageSize : number;
  total : number;
  totalPages : number
}.

Record t : Type := mk {
  properties : list PricedProperty;
  pagination : meta
}.
End Result.

(** The clamping of a relative index in [Array.prototype.slice]:
    [ToIntegerOrInfinity], then counting from the end when negative. *)
Definition relative_index (len : Z) (n : number) : Z :=
  match n with
  | NaN => 0
  | PosInf => len
  | NegInf => 0
  | Fin q =>
      let i := Qtrunc q in
      if i <? 0 then Z.max (len + i) 0 else Z.min i len
  end.

(** [l.slice(start, end)] *)
Definition Array_slice {A : Type} (l : list A) (start end_ : number) : list A :=
  let len := Z.of_nat (length l) in
  let k := relative_index len start in
  let final := relative_index len end_ in
  take (Z.to_nat (final - k)) (drop (Z.to_nat k) l).

Definition pagination (plan : Plan.t) (properties : list PricedProperty) : Result.t :=
  let total := of_Z (Z.of_nat (length properties)) in
  let totalPages :=
    Math_max (of_Z 1) (Math_ceil (num_div total (Plan.pageSize plan))) in
  let start := num_mul (num_sub (Plan.page plan) (of_Z 1)) (Plan.pageSize plan) in
  let page := Array_slice properties start (num_add start (Plan.pageSize plan)) in
  {| Result.properties := page;
     Result.pagination :=
       {| Result.page := Plan.page plan;
          Result.pageSize := Plan.pageSize plan;
          Result.total := total;
          Result.totalPages := totalPages |} |}.

(** ** The stub stages *)

(** What a rejected stage promise carries. *)
Inductive Failure : Type :=
| PlanInvalid (code : SearchPlanErrorCode)
| Thrown (message : string).

Definition availability (plan : Plan.t) (candidates : list CandidateProperty)
  : result Failure (list AvailableProperty) :=
  Ok [].

Definition stayRules (plan : Plan.t) (properties : list AvailableProperty)
  : result Failure (list AvailableProperty) :=
  Ok properties.

Definition pricing (plan : Plan.t) (properties : list AvailableProperty)
  : result Failure (list PricedProperty) :=
  Ok [].

Definition ranking (plan : Plan.t) (properties : list PricedProperty)
  : result Failure (list PricedProperty) :=
  Ok properties.

(** ** Orchestrator ([services/search/search.service.ts]) *)

Inductive StageName : Type :=
| SCandidate
| SAvailability
| SStayRules
| SPricing
| SRanking
| SPagination.

Definition pipeline : list StageName :=
  [SCandidate; SAvailability; SStayRules; SPricing; SRanking; SPagination].

Module Stage.
(** The six stage modules the orchestrator imports. *)
Record impl : Type := mk {
  candidate : Plan.t -> result Failure (list CandidateProperty);
  availability : Plan.t -> list CandidateProperty -> result Failure (list AvailableProperty);
  stayRules : Plan.t -> list AvailableProperty -> result Failure (list AvailableProperty);
  pricing : Plan.t -> list AvailableProperty -> result Failure (list PricedProperty);
  ranking : Plan.t -> list PricedProperty -> result Failure (list PricedProperty);
  pagination : Plan.t -> list PricedProperty -> result Failure Result.t
}.
End Stage.

(** An [async] computation of the orchestrator: the stages it has invoked,
    in order, and its outcome.  [await] is [bind]: a rejection skips the
    rest. *)
Definition Async (A : Type) : Type := (list StageName * result Failure A)%type.

#[global] Instance Async_ret : MRet Async := fun _ a => ([], Ok a).
#[global] Instance Async_bind : MBind Async :=
  fun _ _ f m =>
    match m with
    | (tr, Ok a) => let '(tr', r) := f a in (tr ++ tr', r)
    | (tr, Err e) => (tr, Err e)
    end.

(** Invoking stage [s], whose promise settles as [r]. *)
Definition invoke {A : Type} (s : StageName) (r : result Failure A) : Async A :=
  ([s], r).

(** The synchronous call of the plan builder: its exception rejects the
    promise of [search]. *)
Definition sync {A : Type} (r : result SearchPlanErrorCode A) : Async A :=
  ([], match r with Ok a => Ok a | Err c => Err (PlanInvalid c) end).

Section Search.

Variable StringToNumber : string -> number.
Variable ObjectToNumber : loc -> number.
Variable DateParse : string -> option Z.

Definition search (st : Stage.impl) (input : Input.t) : Async Result.t :=
  plan ← sync (buildSearchPlan StringToNumber ObjectToNumber DateParse input);
  candidates ← invoke SCandidate (Stage.candidate st plan);
  available ← invoke SAvailability (Stage.availability st plan candidates);
  afterStayRules ← invoke SStayRules (Stage.stayRules st plan available);
  priced ← invoke SPricing (Stage.pricing st plan afterStayRules);
  ranked ← invoke SRanking (Stage.ranking st plan priced);
  invoke SPagination (Stage.pagination st plan ranked).

(** The store: [query(text, values)] of the database module. *)
Variable query : string -> list jsval -> result Failure (list CandidateRow).
Variable FractionToString : Q -> string.
Variable ObjectToString : loc -> string.

Definition runCandidateQuery (plan : Plan.t) : result Failure (list CandidateProperty) :=
  let q := buildCandidateSql plan in
  rows ← query (text q) (values q);
  Ok (map (mapRowToCandidate StringToNumber ObjectToNumber FractionToString ObjectToString)
          rows).

Definition candidate (plan : Plan.t) : result Failure (list CandidateProperty) :=
  runCandidateQuery plan.

(** The stages as shipped. *)
Definition shipped : Stage.impl :=
  {| Stage.candidate := candidate;
     Stage.availability := availability;
     Stage.stayRules := stayRules;
     Stage.pricing := pricing;
     Stage.ranking := ranking;
     Stage.pagination := fun plan ranked => Ok (pagination plan ranked) |}.

End Search.

(** ** The plan builder on the object heap

    [buildSearchPlan] receives a reference to the caller's input object and
    returns a reference to the plan object it creates.  The heap makes the
    sharing between the two visible: which objects the builder allocates,
    which it freezes, and which of the caller's objects the plan points to. *)

Record object : Type := mkObj {
  props : gmap string jsval;
  frozen : bool
}.

(** [h[l].k] *)
Definition get (h : gmap loc object) (l : loc) (k : string) : jsval :=
  match h !! l with
  | Some o => prop (props o) k
  | None => VUndefined
  end.

Definition alloc (h : gmap loc object) (o : object) : loc * gmap loc object :=
  let l := fresh (dom h) in (l, <[l := o]> h).

(** [Object.freeze(l)] (shallow). *)
Definition freeze (h : gmap loc object) (l : loc) : gmap loc object :=
  match h !! l with
  | Some o => <[l := mkObj (props o) true]> h
  | None => h
  end.

(** What a caller can do to an object it holds: [l.k = v] and [delete l.k].
    On a frozen object neither has an effect. *)
Inductive mutation : Type :=
| Assign (l : loc) (k : string) (v : jsval)
| Delete (l : loc) (k : string).

Definition target (m : mutation) : loc :=
  match m with Assign l _ _ | Delete l _ => l end.

Definition mutate (h : gmap loc object) (m : mutation) : gmap loc object :=
  match h !! target m with
  | Some o =>
      if frozen o then h
      else
        let ps :=
          match m with
          | Assign _ k v => <[k := v]> (props o)
          | Delete _ k => delete k (props o)
          end in
        <[target m := mkObj ps false]> h
  | None => h
  end.

(** Following a chain of property reads from an object: [l.k1.k2...]. *)
Fixpoint read_path (h : gmap loc object) (l : loc) (path : list string) : jsval :=
  match path with
  | [] => VRef l
  | [k] => get h l k
  | k :: rest =>
      match get h l k with
      | VRef l' => read_path h l' rest
      | _ => VUndefined
      end
  end.

(** The [SearchInput] held at [l].  By its type, [filters] is a plain object
    or absent. *)
Definition read_input (h : gmap loc object) (l : loc) : Input.t :=
  {| Input.latitude := get h l "latitude";
     Input.longitude := get h l "longitude";
     Input.checkIn := get h l "checkIn";
     Input.checkOut := get h l "checkOut";
     Input.adults := get h l "adults";
     Input.children := get h l "children";
     Input.page := get h l "page";
     Input.pageSize := get h l "pageSize";
     Input.filters :=
       match get h l "filters" with
       | VRef lf => props <$> (h !! lf)
       | _ => None
       end |}.

(** A [Date] object: its time value sits in an internal slot. *)
Definition date_object (t : Z) : object :=
  mkObj {[ "[[DateValue]]" := VNum (of_Z t) ]} false.

Definition geo_object (g : option Geo) : object :=
  match g with
  | Some g => mkObj {[ "lat" := VNum (lat g); "lon" := VNum (lon g) ]} false
  | None => mkObj ∅ false
  end.

(** The plan literal: the input by reference, the parts by reference to the
    objects just created, the numbers and the flag by value. *)
Definition plan_object (plan : Plan.t) (l_in l_ci l_co l_geo : loc) (opts : jsval)
  : object :=
  mkObj
    (<[ "input" := VRef l_in ]>
     (<[ "checkInDate" := VRef l_ci ]>
     (<[ "checkOutDate" := VRef l_co ]>
     (<[ "nights" := VNum (Plan.nights plan) ]>
     (<[ "guests" := VNum (Plan.guests plan) ]>
     (<[ "page" := VNum (Plan.page plan) ]>
     (<[ "pageSize" := VNum (Plan.pageSize plan) ]>
     (<[ "geo" := VRef l_geo ]>
     (<[ "radius" := VNum (Plan.radius plan) ]>
     (<[ "hasChildren" := VBool (Plan.hasChildren plan) ]>
     (<[ "options" := opts ]> ∅)))))))))))
    false.

Section HeapBuilder.

Variable StringToNumber : string -> number.
Variable ObjectToNumber : loc -> number.
Variable DateParse : string -> option Z.

(** The builder with its allocations, in the order of the source: the two
    dates, the geo object, the spread copy of the filters, the plan literal;
    then the two calls of [Object.freeze]. *)
Definition buildSearchPlan_heap (h : gmap loc object) (l_in : loc)
  : result SearchPlanErrorCode loc * gmap loc object :=
  match buildSearchPlan StringToNumber ObjectToNumber DateParse (read_input h l_in) with
  | Err c => (Err c, h)
  | Ok plan =>
      let '(l_ci, h1) := alloc h (date_object (Plan.checkInDate plan)) in
      let '(l_co, h2) := alloc h1 (date_object (Plan.checkOutDate plan)) in
      let '(l_geo, h3) := alloc h2 (geo_object (Plan.geo plan)) in
      let '(opts, h4) :=
        match Plan.options plan with
        | Some o => let '(l_o, h') := alloc h3 (mkObj o false) in (VRef l_o, h')
        | None => (VUndefined, h3)
        end in
      let '(l_plan, h5) := alloc h4 (plan_object plan l_in l_ci l_co l_geo opts) in
      (Ok l_plan, freeze (freeze h5 l_geo) l_plan)
  end.

End HeapBuilder.

(** ** Definitions used to state the properties *)

(** The radius rule in the words of the specification: clamp a finite value
    into [1, 500], take 10 for anything else. *)
Definition clamp_radius (n : number) : number :=
  match n with
  | Fin q =>
      if Qle_bool q 1 then of_Z 1
      else if Qle_bool 500 q then of_Z 500
      else Fin q
  | _ => of_Z 10
  end.

(** Floor, then clamp into [lo, hi]; [d] for a value that is not finite. *)
Definition floor_clamp (d lo hi : Z) (n : number) : number :=
  match n with
  | Fin q => of_Z (Z.min hi (Z.max lo (Qfloor q)))
  | _ => of_Z d
  end.

Definition is_nullish (v : jsval) : Prop := v = VUndefined \/ v = VNull.

(** The plan whose [options] lack key [k]. *)
Definition without_option (plan : Plan.t) (k : string) : Plan.t :=
  Plan.with_options plan (delete k <$> Plan.options plan).

(** A caller's mutations, applied in order. *)
Definition mutate_all (h : gmap loc object) (ms : list mutation) : gmap loc object :=
  foldl mutate h ms.

(** *** Instances at which the examples are run *)

Definition digit (c : ascii) : option Z :=
  let n := Z.of_nat (nat_of_ascii c) in
  if ((48 <=? n) && (n <=? 57))%bool then Some (n - 48) else None.

Fixpoint digits (s : string) (acc : Z) : option Z :=
  match s with
  | EmptyString => Some acc
  | String c s' => d ← digit c; digits s' (10 * acc + d)
  end.

(** Days between 1970-01-01 and the given civil date. *)
Definition days_from_civil (y m d : Z) : Z :=
  let y' := if m <=? 2 then y - 1 else y in
  let era := y' `div` 400 in
  let yoe := y' - era * 400 in
  let mp := (m + 9) `mod` 12 in
  let doy := (153 * mp + 2) `div` 5 + d - 1 in
  let doe := yoe * 365 + yoe `div` 4 - yoe `div` 100 + doy in
  era * 146097 + doe - 719468.

(** [Date] parsing restricted to the calendar form [YYYY-MM-DD], which
    denotes midnight UTC. *)
Definition iso_date_parse (s : string) : option Z :=
  if (Nat.eqb (String.length s) 10
      && String.eqb (String.substring 4 1 s) "-"
      && String.eqb (String.substring 7 1 s) "-")%bool
  then
    y ← digits (String.substring 0 4 s) 0;
    m ← digits (String.substring 5 2 s) 0;
    d ← digits (String.substring 8 2 s) 0;
    if ((1 <=? m) && (m <=? 12) && (1 <=? d) && (d <=? 31))%bool
    then Some (days_from_civil y m d * MS_PER_DAY)
    else None
  else None.

(** No string and no object converts to a number. *)
Definition no_number {A : Type} (_ : A) : number := NaN.

(** The request of the repository's own test script, without filters. *)
Definition sample_input : Input.t :=
  {| Input.latitude := VNum (Fin (520705 # 10000));
     Input.longitude := VNum (Fin (43007 # 10000));
     Input.checkIn := VStr "2026-01-12";
     Input.checkOut := VStr "2026-01-14";
     Input.adults := VNum (of_Z 2);
     Input.children := VUndefined;
     Input.page := VUndefined;
     Input.pageSize := VUndefined;
     Input.filters := None |}.

Definition with_filters (i : Input.t) (f : option (gmap string jsval)) : Input.t :=
  Input.mk (Input.latitude i) (Input.longitude i) (Input.checkIn i) (Input.checkOut i)
           (Input.adults i) (Input.children i) (Input.page i) (Input.pageSize i) f.

Definition with_paging (i : Input.t) (page pageSize : jsval) : Input.t :=
  Input.mk (Input.latitude i) (Input.longitude i) (Input.checkIn i) (Input.checkOut i)
           (Input.adults i) (Input.children i) page pageSize (Input.filters i).

Definition with_dates (i : Input.t) (checkIn checkOut : jsval) : Input.t :=
  Input.mk (Input.latitude i) (Input.longitude i) checkIn checkOut
           (Input.adults i) (Input.children i) (Input.page i) (Input.pageSize i)
           (Input.filters i).

Definition sample_build : Input.t -> result SearchPlanErrorCode Plan.t :=
  buildSearchPlan no_number no_number iso_date_parse.

(** The plan of [sample_input], with the given options. *)
Definition sample_plan (o : option (gmap string jsval)) : Plan.t :=
  {| Plan.input := sample_input;
     Plan.checkInDate := 1768176000000;
     Plan.checkOutDate := 1768348800000;
     Plan.nights := of_Z 2;
     Plan.guests := of_Z 2;
     Plan.page := of_Z 1;
     Plan.pageSize := of_Z 20;
     Plan.geo := Some {| lat := Fin (520705 # 10000); lon := Fin (43007 # 10000) |};
     Plan.radius := of_Z 10;
     Plan.hasChildren := false;
     Plan.options := o |}.

Definition plan_with_paging (plan : Plan.t) (page pageSize : number) : Plan.t :=
  Plan.mk (Plan.input plan) (Plan.checkInDate plan) (Plan.checkOutDate plan)
          (Plan.nights plan) (Plan.guests plan) page pageSize (Plan.geo plan)
          (Plan.radius plan) (Plan.hasChildren plan) (Plan.options plan).

Definition sample_candidate (i : nat) : CandidateProperty :=
  {| id := show_nat i;
     name := "Property " +:+ show_nat i;
     propertyType := None;
     location := Some "Den Haag, Netherlands";
     distance_meters := Some "1200 Meters";
     destinationId := None;
     amenities := None;
     bedrooms := None;
     bathrooms := None;
     maxGuests := Some (of_Z 4) |}.

Definition sample_priced (i : nat) : PricedProperty :=
  {| available_of := {| candidate_of := sample_candidate i; unitId := None |};
     totalPrice := of_Z 240;
     currency := "EUR";
     pricePerNight := Some (of_Z 120);
     breakdown := None |}.

(** A ranked list of [n] properties, numbered from 0. *)
Definition sample_ranked (n : nat) : list PricedProperty :=
  map sample_priced (seq 0 n).

(** A row as the store returns it, with the distance as text. *)
Definition sample_row : CandidateRow :=
  {| row_id := VStr "7f3c";
     row_name := Some "Canal House";
     row_city := Some "Den Haag";
     row_country := Some "Netherlands";
     row_distance_meters := VNum (Fin (24691 # 20));
     row_max_guests := VNull;
     row_destination_id := None |}.

(** A store that answers every query with the same two rows. *)
Definition sample_query (text : string) (values : list jsval)
  : result Failure (list CandidateRow) :=
  Ok [sample_row; sample_row].

(** The object a caller holds for input [i], with [filters] as given. *)
Definition input_object (i : Input.t) (filters : jsval) : object :=
  mkObj (<[ "latitude" := Input.latitude i ]>
         (<[ "longitude" := Input.longitude i ]>
         (<[ "checkIn" := Input.checkIn i ]>
         (<[ "checkOut" := Input.checkOut i ]>
         (<[ "adults" := Input.adults i ]>
         (<[ "filters" := filters ]> ∅))))))
        false.

(** A caller's heap: the sample request at location 1, its filter map
    [{ radiusKm: 100 }] at location 2. *)
Definition sample_heap : gmap loc object :=
  <[ 1%positive := input_object sample_input (VRef 2%positive) ]>
  (<[ 2%positive := mkObj {[ "radiusKm" := VNum (of_Z 100) ]} false ]> ∅).

Definition sample_build_heap : gmap loc object -> loc ->
                               result SearchPlanErrorCode loc * gmap loc object :=
  buildSearchPlan_heap no_number no_number iso_date_parse.

(** The builder run on the caller's heap: the plan's location and the heap
    after the call. *)
Definition sample_built : result SearchPlanErrorCode loc * gmap loc object :=
  sample_build_heap sample_heap 1%positive.

(** What a caller may do afterwards to the two objects it owns. *)
Definition sample_mutations : list mutation :=
  [ Assign 2%positive "radiusKm" (VNum (of_Z 5));
    Assign 1%positive "adults" (VNum (of_Z 9));
    Delete 1%positive "checkIn";
    Assign 2%positive "capacityColumn" (VStr "capacity") ].

(** Stage implementations that succeed with empty lists, except that stage
    [bad] rejects. *)
Definition stages_failing_at (bad : option StageName) : Stage.impl :=
  let fails (s : StageName) : bool :=
    match bad, s with
    | Some SCandidate, SCandidate
    | Some SAvailability, SAvailability
    | Some SStayRules, SStayRules
    | Some SPricing, SPricing
    | Some SRanking, SRanking
    | Some SPagination, SPagination => true
    | _, _ => false
    end in
  let settle {A : Type} (s : StageName) (a : A) : result Failure A :=
    if fails s then Err (Thrown "stage failed") else Ok a in
  {| Stage.candidate := fun _ => settle SCandidate [];
     Stage.availability := fun _ _ => settle SAvailability [];
     Stage.stayRules := fun _ xs => settle SStayRules xs;
     Stage.pricing := fun _ _ => settle SPricing [];
     Stage.ranking := fun _ xs => settle SRanking xs;
     Stage.pagination := fun plan xs => settle SPagination (pagination plan xs) |}.

(** ** What the plan builder checks *)

Section PlanValidity.
Variable StringToNumber : string -> number.
Variable ObjectToNumber : loc -> number.
Variable DateParse : string -> option Z.

(** The stay: both dates parse and check-out is at least one day after
    check-in. *)
Definition stay_ok (input : Input.t) : Prop :=
  exists tin tout,
    parseDate DateParse (Input.checkIn input) FcheckIn = Ok tin
    /\ parseDate DateParse (Input.checkOut input) FcheckOut = Ok tout
    /\ tin + MS_PER_DAY <= tout.

(** The guest counts: both convert to finite numbers that are not negative. *)
Definition counts_ok (input : Input.t) (a c : Q) : Prop :=
  Number StringToNumber ObjectToNumber (Input.adults input) = Fin a
  /\ Number StringToNumber ObjectToNumber (nullish (Input.children input) (VNum (of_Z 0)))
     = Fin c
  /\ (0 <= a)%Q /\ (0 <= c)%Q.

Definition guests_ok (input : Input.t) : Prop :=
  exists a c, counts_ok input a c /\ (0 < a + c)%Q.

(** A coordinate: converts to a finite number between [lo] and [hi]. *)
Definition in_range (lo hi : Z) (v : jsval) : Prop :=
  exists q, Number StringToNumber ObjectToNumber v = Fin q
            /\ (inject_Z lo <= q)%Q /\ (q <= inject_Z hi)%Q.


End PlanValidity.

(** The rest of [s] after its first code point, when that is white space. *)
Definition white_prefix (w2 : ascii -> ascii -> bool) (w3 : ascii -> ascii -> ascii -> bool)
    (s : list ascii) : option (list ascii) :=
  match s with
  | c1 :: s1 =>
      if is_space c1 then Some s1
      else match s1 with
           | c2 :: s2 =>
               if w2 c1 c2 then Some s2
               else match s2 with
                    | c3 :: s3 => if w3 c1 c2 c3 then Some s3 else None
                    | [] => None
                    end
           | [] => None
           end
  | [] => None
  end.

(** A byte that is not a continuation byte ([80] to [BF]). *)
Definition is_boundary (c : ascii) : bool :=
  negb (Nat.leb 128 (nat_of_ascii c) && Nat.leb (nat_of_ascii c) 191).

(** A string made of white space only (possibly empty). *)
Definition blank (s : string) : bool := String.eqb (trim_start s) "".

(** U+00A0 (no-break space) and U+2028 (line separator). *)
Definition NBSP : string := String (ascii_of_nat 194) (String (ascii_of_nat 160) EmptyString).
Definition LINE_SEPARATOR : string :=
  String (ascii_of_nat 226) (String (ascii_of_nat 128) (String (ascii_of_nat 168) EmptyString)).

(** The option keys the candidate query reads. *)
Definition QUERY_OPTIONS : list string := ["capacityColumn"; "geoColumn"; "candidateHardLimit"].

(** A text column that is neither [null] nor empty. *)
Definition present (o : option string) : option string :=
  match o with
  | Some s => if String.eqb s "" then None else Some s
  | None => None
  end.

(** Page [i] (counted from 1) of [properties] for page size [ps], as the
    pagination stage returns it. *)
Definition page_of (base : Plan.t) (ps : Z) (properties : list PricedProperty) (i : nat)
  : list PricedProperty :=
  Result.properties
    (pagination (plan_with_paging base (of_Z (Z.of_nat i)) (of_Z ps)) properties).

(** The number of pages the stage reports. *)
Definition page_count (ps : Z) (properties : list PricedProperty) : nat :=
  Z.to_nat (Z.max 1 (Qceiling (inject_Z (Z.of_nat (length properties)) / inject_Z ps))).

(** ** Database module ([plugin/db.ts])

    The driver's [close] is taken to settle before the next call or
    connection event. *)

Module Db.

(** The module's three variables, and two observations of the world around
    it: the lines written with [console.error], and how many times the
    driver's [close] was called. *)
Record state : Type := mk {
  closed : bool;
  closeErrorLogged : bool;
  closePromise : option (result string unit);
  console : list string;
  driver_closes : nat
}.

Definition init : state :=
  {| closed := false;
     closeErrorLogged := false;
     closePromise := None;
     console := [];
     driver_closes := 0 |}.

Definition CLOSED_QUERY : string := "Database pool is closed; cannot run query".
Definition CLOSED_CLIENT : string := "Database pool is closed; cannot get client".
Definition LOG_CONNECTION : string := "[db] connection closed with error: ".
Definition LOG_CLOSING : string := "[db] error closing pool: ".

(** The pool's [onclose] callback; [err] is the message of the error, if
    any. *)
Definition onclose (err : option string) (st : state) : state :=
  match err with
  | None => st
  | Some message =>
      if (closed st && String.eqb message "Connection closed")%bool then st
      else if negb (closeErrorLogged st)
           then mk (closed st) true (closePromise st)
                   (console st ++ [LOG_CONNECTION +:+ message]) (driver_closes st)
           else st
  end.

Definition isClosed (st : state) : bool := closed st.

Section Driver.

(** The driver: what [sql.unsafe(text, values)] and [sql.reserve()] settle
    as, and what its [close()] settles as. *)
Variable Row : Type.
Variable sql_unsafe : string -> list jsval -> result string (list Row).
Variable sql_reserve : result string loc.
Variable sql_close : result string unit.

Definition query (text : string) (values : option (list jsval)) (st : state)
  : result string (list Row) :=
  if closed st then Err CLOSED_QUERY
  else sql_unsafe text (default [] values).

Definition getClient (st : state) : result string loc :=
  if closed st then Err CLOSED_CLIENT
  else sql_reserve.

Definition close (st : state) : result string unit * state :=
  if closed st then (default (Ok tt) (closePromise st), st)
  else
    let r := sql_close in
    (r,
     mk true (closeErrorLogged st) (Some r)
        (console st ++ match r with
                       | Err message => [LOG_CLOSING +:+ message]
                       | Ok _ => []
                       end)
        (S (driver_closes st))).

(** What can happen to the module, in any order. *)
Inductive op : Type :=
| Query (text : string) (values : option (list jsval))
| GetClient
| Close
| OnClose (err : option string).

Definition step (st : state) (o : op) : state :=
  match o with
  | Query _ _ | GetClient => st
  | Close => snd (close st)
  | OnClose err => onclose err st
  end.

Definition run (st : state) (ops : list op) : state := foldl step st ops.

End Driver.
End Db.

(** The [console.error] lines of the [onclose] callback. *)
Definition connection_errors (st : Db.state) : list string :=
  filter (fun line => String.prefix Db.LOG_CONNECTION line = true) (Db.console st).

Section DbInvariants.

Variable sql_close : result string unit.

(** What holds of the module's variables in every state it can reach. *)
Definition consistent (st : Db.state) : Prop :=
  if Db.closed st
  then Db.closePromise st = Some sql_close /\ Db.driver_closes st = 1%nat
  else Db.closePromise st = None /\ Db.driver_closes st = 0%nat.

(** One line of the [onclose] callback in the console exactly when the flag
    is set. *)
Definition logged_once (st : Db.state) : Prop :=
  length (connection_errors st) = if Db.closeErrorLogged st then 1%nat else 0%nat.

End DbInvariants.

(** ** Cursor validation ([modules/search.validator.ts])

    Here a string is the sequence of its UTF-16 code units, so that
    [length] and [trim] are those of JavaScript on every string. *)

Module Cursor.

Definition CURSOR_MAX_LENGTH : nat := 256.

(** White space and line terminators, as [String.prototype.trim] removes
    them. *)
Definition is_white (u : N) : bool :=
  ((u =? 9) || (u =? 10) || (u =? 11) || (u =? 12) || (u =? 13) || (u =? 32)
   || (u =? 160) || (u =? 5760) || ((8192 <=? u) && (u <=? 8202))
   || (u =? 8232) || (u =? 8233) || (u =? 8239) || (u =? 8287)
   || (u =? 12288) || (u =? 65279))%N%bool.

Fixpoint trimStart (s : list N) : list N :=
  match s with
  | u :: s' => if is_white u then trimStart s' else s
  | [] => []
  end.

Definition trim (s : list N) : list N := rev (trimStart (rev (trimStart s))).

(** A raw query value. *)
Inductive raw : Type :=
| RUndefined
| RNull
| RBool (b : bool)
| RNumber (n : number)
| RString (s : list N)
| RObject.

Inductive issue : Type :=
| InvalidUnion
| Refused (message : string).

Definition MESSAGE : string :=
  "cursor must be absent or a non-empty string of at most 256 characters without leading/trailing whitespace".

(** The predicate given to [refine]. *)
Definition refinement (v : raw) : bool :=
  match v with
  | RUndefined => true
  | _ =>
      let s := match v with RString s => s | _ => [] end in
      ((0 <? length s)%nat && (length s <=? CURSOR_MAX_LENGTH)%nat
       && bool_decide (s = trim s))%bool
  end.

(** [cursorSchema.safeParse(v)]: the union of [z.string()] and
    [z.undefined()], then the refinement; the parsed value is the input. *)
Definition cursorSchema (v : raw) : result issue raw :=
  match v with
  | RString _ | RUndefined => if refinement v then Ok v else Err (Refused MESSAGE)
  | _ => Err InvalidUnion
  end.

End Cursor.

(** The filters [{ radiusKm: 100 }]. *)
Definition sample_filters : gmap string jsval := {[ "radiusKm" := VNum (of_Z 100) ]}.

(** The plan of [sample_input] with these filters. *)
Definition sample_filtered_plan : Plan.t :=
  {| Plan.input := with_filters sample_input (Some sample_filters);
     Plan.checkInDate := 1768176000000;
     Plan.checkOutDate := 1768348800000;
     Plan.nights := of_Z 2;
     Plan.guests := of_Z 2;
     Plan.page := of_Z 1;
     Plan.pageSize := of_Z 20;
     Plan.geo := Some {| lat := Fin (520705 # 10000); lon := Fin (43007 # 10000) |};
     Plan.radius := of_Z 100;
     Plan.hasChildren := false;
     Plan.options := Some sample_filters |}.


(** * Properties *)

(** ** Numbers *)

Lemma Qlt_bool_true (a b : Q) : Qlt_bool a b = true <-> (a < b)%Q.
Proof.
  unfold Qlt_bool. rewrite negb_true_iff, <- not_true_iff_false, Qle_bool_iff.
  split; [apply Qnot_le_lt | apply Qlt_not_le].
Qed.

Lemma Qlt_bool_false (a b : Q) : Qlt_bool a b = false <-> (b <= a)%Q.
Proof.
  unfold Qlt_bool. rewrite negb_false_iff. apply Qle_bool_iff.
Qed.

Lemma Qlt_bool_inject (a b : Z) : Qlt_bool (inject_Z a) (inject_Z b) = (a <? b).
Proof.
  destruct (a <? b) eqn:E.
  - apply Qlt_bool_true. rewrite <- Zlt_Qlt. lia.
  - apply Qlt_bool_false. rewrite <- Zle_Qle. lia.
Qed.

Lemma Qle_bool_inject (a b : Z) : Qle_bool (inject_Z a) (inject_Z b) = (a <=? b).
Proof.
  destruct (a <=? b) eqn:E.
  - apply Qle_bool_iff. rewrite <- Zle_Qle. lia.
  - apply not_true_iff_false. rewrite Qle_bool_iff, <- Zle_Qle. lia.
Qed.

Lemma num_lt_of_Z (a b : Z) : num_lt (of_Z a) (of_Z b) = (a <? b).
Proof. apply Qlt_bool_inject. Qed.

Lemma num_le_of_Z (a b : Z) : num_le (of_Z a) (of_Z b) = (a <=? b).
Proof. apply Qle_bool_inject. Qed.

Lemma Math_max_of_Z (a b : Z) : Math_max (of_Z a) (of_Z b) = of_Z (Z.max a b).
Proof.
  unfold Math_max, of_Z, num_lt. rewrite Qlt_bool_inject.
  destruct (a <? b) eqn:E; f_equal; f_equal; lia.
Qed.

Lemma Math_min_of_Z (a b : Z) : Math_min (of_Z a) (of_Z b) = of_Z (Z.min a b).
Proof.
  unfold Math_min, of_Z, num_lt. rewrite Qlt_bool_inject.
  destruct (b <? a) eqn:E; f_equal; f_equal; lia.
Qed.


(** ** Candidate query: the row limit *)

Lemma resolveCandidateLimit_cases (plan : Plan.t) :
  (exists x, Plan.option_ plan "candidateHardLimit" = VNum (Fin x) /\ (0 < x)%Q /\
             resolveCandidateLimit plan = of_Z (Z.min (Qfloor x) 3000))
  \/ ((forall x, Plan.option_ plan "candidateHardLimit" = VNum (Fin x) -> ~ (0 < x)%Q) /\
      resolveCandidateLimit plan = of_Z 1000).
Proof.
  unfold resolveCandidateLimit.
  destruct (Plan.option_ plan "candidateHardLimit") as [| |b|n|s|l] eqn:E;
    try (right; split; [intros x Hx; discriminate | reflexivity]).
  destruct n as [| | |x];
    try (right; split; [intros x Hx; discriminate | reflexivity]).
  cbn [Number_isFinite andb]. unfold num_gt.
  change (num_lt (of_Z 0) (Fin x)) with (Qlt_bool 0 x).
  destruct (Qlt_bool 0 x) eqn:Hpos.
  - left. exists x. apply Qlt_bool_true in Hpos.
    split; [reflexivity | split; [exact Hpos |]].
    unfold CANDIDATE_HARD_LIMIT_MAX. apply Math_min_of_Z.
  - right. apply Qlt_bool_false in Hpos. split; [| reflexivity].
    intros y Hy. injection Hy as ->. lra.
Qed.

Lemma buildCandidateSql_limit_value (plan : Plan.t) :
  last (values (buildCandidateSql plan)) = Some (VNum (resolveCandidateLimit plan)).
Proof.
  unfold buildCandidateSql.
  destruct (getCapacityColumn plan), (Plan.geo plan); cbn [values];
    rewrite last_snoc; reflexivity.
Qed.

Lemma getCapacityColumn_allowed (plan : Plan.t) (c : string) :
  getCapacityColumn plan = Some c ->
  c = "max_guests" \/ c = "maximum_guests" \/ c = "capacity".
Proof.
  unfold getCapacityColumn.
  destruct (Plan.option_ plan "capacityColumn"); try discriminate.
  unfold array_includes, CAPACITY_COLUMNS. cbn [existsb].
  destruct (String.eqb_spec s "max_guests") as [->|]; [intros [= <-]; auto |].
  destruct (String.eqb_spec s "maximum_guests") as [->|]; [intros [= <-]; auto |].
  destruct (String.eqb_spec s "capacity") as [->|]; [intros [= <-]; auto |].
  discriminate.
Qed.

Lemma getGeoColumn_allowed (plan : Plan.t) :
  getGeoColumn plan = "location" \/ getGeoColumn plan = "geo".
Proof.
  unfold getGeoColumn.
  destruct (Plan.option_ plan "geoColumn"); auto.
  unfold array_includes, GEO_COLUMNS. cbn [existsb].
  destruct (String.eqb_spec s "location") as [->|]; [auto |].
  destruct (String.eqb_spec s "geo") as [->|]; auto.
Qed.

(** Case analysis on the three things the SQL text depends on. *)
Ltac sql_shapes plan :=
  let Hc := fresh "Hc" in
  let Hg := fresh "Hg" in
  unfold buildCandidateSql;
  destruct (getCapacityColumn plan) as [?c|] eqn:Hc;
  [ apply getCapacityColumn_allowed in Hc; destruct Hc as [-> | [-> | ->]] | ];
  destruct (getGeoColumn_allowed plan) as [Hg | Hg]; rewrite Hg;
  destruct (Plan.geo plan).

Lemma buildCandidateSql_limit_placeholder (plan : Plan.t) :
  let q := buildCandidateSql plan in
  ends_with (text q) ("LIMIT $" +:+ show_nat (length (values q)) +:+ ";") = true.
Proof.
  sql_shapes plan; vm_compute; reflexivity.
Qed.

(** C2.  The last bound value of the candidate query is the row limit, and
    the text's LIMIT clause is the placeholder of that last value.  The
    limit is never above 3000; it is [min(floor(candidateHardLimit), 3000)]
    when the option is a finite number greater than 0, and 1000 in every
    other case (absent, not a number, not finite, not greater than 0). *)
Theorem candidate_limit_capped (plan : Plan.t) :
  let q := buildCandidateSql plan in
  let limit := resolveCandidateLimit plan in
  last (values q) = Some (VNum limit)
  /\ ends_with (text q) ("LIMIT $" +:+ show_nat (length (values q)) +:+ ";") = true
  /\ (exists z, limit = of_Z z /\ z <= 3000)
  /\ (forall x, Plan.option_ plan "candidateHardLimit" = VNum (Fin x) -> (0 < x)%Q ->
                limit = of_Z (Z.min (Qfloor x) 3000))
  /\ ((forall x, Plan.option_ plan "candidateHardLimit" = VNum (Fin x) -> ~ (0 < x)%Q) ->
      limit = of_Z 1000).
Proof.
  cbv zeta.
  split; [apply buildCandidateSql_limit_value |].
  split; [apply buildCandidateSql_limit_placeholder |].
  destruct (resolveCandidateLimit_cases plan) as [(x & Hx & Hpos & ->) | [Hno ->]].
  - split; [eexists; split; [reflexivity | lia] |].
    split.
    + intros y Hy _. rewrite Hx in Hy. injection Hy as <-. reflexivity.
    + intros Hnone. destruct (Hnone x Hx Hpos).
  - split; [exists 1000; split; [reflexivity | lia] |].
    split.
    + intros y Hy Hpos. destruct (Hno y Hy Hpos).
    + reflexivity.
Qed.

(** Three runs of the limit rule: an override far above the ceiling, a
    fractional override, and an override that is not a number. *)
Example candidate_limit_examples :
  resolveCandidateLimit (sample_plan (Some {[ "candidateHardLimit" := VNum (of_Z 1000000) ]}))
    = of_Z 3000
  /\ resolveCandidateLimit (sample_plan (Some {[ "candidateHardLimit" := VNum (Fin (5 # 2)) ]}))
    = of_Z 2
  /\ resolveCandidateLimit (sample_plan (Some {[ "candidateHardLimit" := VStr "9999" ]}))
    = of_Z 1000
  /\ resolveCandidateLimit (sample_plan (Some {[ "candidateHardLimit" := VNum PosInf ]}))
    = of_Z 1000
  /\ resolveCandidateLimit (sample_plan None) = of_Z 1000.
Proof. repeat split; vm_compute; reflexivity. Qed.

(** ** Candidate query: column allow-lists *)

Lemma option_without_ne (plan : Plan.t) (k k' : string) :
  k <> k' -> Plan.option_ (without_option plan k) k' = Plan.option_ plan k'.
Proof.
  intros Hne. unfold without_option, Plan.option_, Plan.with_options, prop.
  destruct plan as [? ? ? ? ? ? ? ? ? ? [o|]]; cbn; [| reflexivity].
  rewrite lookup_delete_ne by exact Hne. reflexivity.
Qed.

Lemma option_without_eq (plan : Plan.t) (k : string) :
  Plan.option_ (without_option plan k) k = VUndefined.
Proof.
  unfold without_option, Plan.option_, Plan.with_options, prop.
  destruct plan as [? ? ? ? ? ? ? ? ? ? [o|]]; cbn; [| reflexivity].
  rewrite lookup_delete_eq. reflexivity.
Qed.

(** The query is a function of six readings of the plan. *)
Lemma buildCandidateSql_ext (p p' : Plan.t) :
  getCapacityColumn p = getCapacityColumn p' ->
  getGeoColumn p = getGeoColumn p' ->
  resolveCandidateLimit p = resolveCandidateLimit p' ->
  Plan.guests p = Plan.guests p' ->
  Plan.geo p = Plan.geo p' ->
  Plan.radius p = Plan.radius p' ->
  buildCandidateSql p = buildCandidateSql p'.
Proof.
  intros Hc Hg Hl Hgu Hgeo Hr. unfold buildCandidateSql.
  rewrite Hc, Hg, Hl, Hgu, Hgeo, Hr. reflexivity.
Qed.

Lemma array_includes_In (arr : list string) (c : string) :
  array_includes arr c = true <-> In c arr.
Proof.
  unfold array_includes. rewrite existsb_exists. split.
  - intros (x & Hin & Heq). apply String.eqb_eq in Heq. subst. exact Hin.
  - intros Hin. exists c. split; [exact Hin | apply String.eqb_refl].
Qed.

Lemma getCapacityColumn_rejects (plan : Plan.t) :
  (forall c, Plan.option_ plan "capacityColumn" = VStr c -> ~ In c CAPACITY_COLUMNS) ->
  getCapacityColumn plan = None.
Proof.
  intros H. unfold getCapacityColumn.
  destruct (Plan.option_ plan "capacityColumn") as [| | | |c|]; try reflexivity.
  destruct (array_includes CAPACITY_COLUMNS c) eqn:E; [| reflexivity].
  apply array_includes_In in E. destruct (H c eq_refl E).
Qed.

Lemma getGeoColumn_rejects (plan : Plan.t) :
  (forall c, Plan.option_ plan "geoColumn" = VStr c -> ~ In c GEO_COLUMNS) ->
  getGeoColumn plan = "location".
Proof.
  intros H. unfold getGeoColumn.
  destruct (Plan.option_ plan "geoColumn") as [| | | |c|]; try reflexivity.
  destruct (array_includes GEO_COLUMNS c) eqn:E; [| reflexivity].
  apply array_includes_In in E. destruct (H c eq_refl E).
Qed.

Lemma without_option_fields (plan : Plan.t) (k : string) :
  Plan.guests (without_option plan k) = Plan.guests plan
  /\ Plan.geo (without_option plan k) = Plan.geo plan
  /\ Plan.radius (without_option plan k) = Plan.radius plan.
Proof. destruct plan; repeat split. Qed.

Lemma capacity_ignored (plan : Plan.t) :
  getCapacityColumn plan = None ->
  buildCandidateSql plan = buildCandidateSql (without_option plan "capacityColumn").
Proof.
  intros Hnone.
  destruct (without_option_fields plan "capacityColumn") as (Hgu & Hgeo & Hr).
  apply buildCandidateSql_ext; try (symmetry; assumption).
  - rewrite Hnone. unfold getCapacityColumn. rewrite option_without_eq. reflexivity.
  - unfold getGeoColumn. rewrite option_without_ne by discriminate. reflexivity.
  - unfold resolveCandidateLimit. rewrite option_without_ne by discriminate. reflexivity.
Qed.

Lemma geo_column_ignored (plan : Plan.t) :
  (forall c, Plan.option_ plan "geoColumn" = VStr c -> ~ In c GEO_COLUMNS) ->
  buildCandidateSql plan = buildCandidateSql (without_option plan "geoColumn").
Proof.
  intros Hbad.
  destruct (without_option_fields plan "geoColumn") as (Hgu & Hgeo & Hr).
  apply buildCandidateSql_ext; try (symmetry; assumption).
  - unfold getCapacityColumn. rewrite option_without_ne by discriminate. reflexivity.
  - rewrite (getGeoColumn_rejects plan Hbad).
    unfold getGeoColumn. rewrite option_without_eq. reflexivity.
  - unfold resolveCandidateLimit. rewrite option_without_ne by discriminate. reflexivity.
Qed.

Lemma drop_table_never_in_text (plan : Plan.t) :
  includes (text (buildCandidateSql plan)) "DROP TABLE properties" = false.
Proof.
  sql_shapes plan; vm_compute; reflexivity.
Qed.

Lemma no_capacity_clause (plan : Plan.t) :
  getCapacityColumn plan = None ->
  includes (text (buildCandidateSql plan)) ">=" = false.
Proof.
  intros Hnone. unfold buildCandidateSql. rewrite Hnone.
  destruct (getGeoColumn_allowed plan) as [Hg | Hg]; rewrite Hg;
    destruct (Plan.geo plan); vm_compute; reflexivity.
Qed.

Lemma prefix_app (s t : string) :
  String.prefix s t = true <-> exists post, t = s +:+ post.
Proof.
  revert t. induction s as [|a s IH]; intros t.
  - split; [intros _; exists t; reflexivity | intros _; destruct t; reflexivity].
  - destruct t as [|b t]; simpl; [split; [discriminate | intros [post H]; discriminate] |].
    destruct (ascii_dec a b) as [->|Hne].
    + rewrite IH. split; intros [post H]; exists post; [rewrite H | injection H]; auto.
    + split; [discriminate | intros [post H]; injection H as H1 H2; congruence].
Qed.

(** [includes] decides the occurrence of [s] in [t]. *)
Lemma includes_spec (t s : string) :
  includes t s = true <-> exists pre post, t = pre +:+ s +:+ post.
Proof.
  induction t as [|b t IH].
  - cbn [includes]. rewrite orb_false_r, prefix_app. split.
    + intros [post H]. exists "", post. exact H.
    + intros (pre & post & H). destruct pre; [exists post; exact H |]. discriminate.
  - cbn [includes]. rewrite orb_true_iff, prefix_app, IH. split.
    + intros [[post H] | (pre & post & H)].
      * exists "", post. exact H.
      * exists (String b pre), post. simpl. rewrite H. reflexivity.
    + intros (pre & post & H). destruct pre as [|a pre].
      * left. exists post. exact H.
      * right. simpl in H. injection H as _ H. exists pre, post. exact H.
Qed.

(** C1, in the words of the claim, does not hold: a supplied capacity column
    that is not allow-listed can occur in the generated text.  The text has
    the word SELECT whatever the options are, so the supplied string "SELECT"
    occurs in it although it is ignored. *)
Lemma rejected_column_may_occur_in_text :
  let plan := sample_plan (Some {[ "capacityColumn" := VStr "SELECT" ]}) in
  Plan.option_ plan "capacityColumn" = VStr "SELECT"
  /\ ~ In "SELECT" CAPACITY_COLUMNS
  /\ buildCandidateSql plan = buildCandidateSql (without_option plan "capacityColumn")
  /\ includes (text (buildCandidateSql plan)) "SELECT" = true.
Proof.
  cbv zeta. split; [reflexivity |]. split.
  - unfold CAPACITY_COLUMNS. simpl. intros [H | [H | [H | []]]]; discriminate.
  - split; [| vm_compute; reflexivity].
    apply capacity_ignored. reflexivity.
Qed.

(** C1, amended.  A capacity column outside the allow-list (a string that is
    not one of the three names, or a value that is not a string) selects no
    capacity column, and the query built, text and bound values, is the one
    built from the same plan without the [capacityColumn] option, with no
    capacity comparison in it: the supplied value is not interpolated.  In
    the same way a geo column outside
    its allow-list gives the column [location] and the query of the plan
    without the [geoColumn] option.  The text "DROP TABLE properties" occurs
    in no generated query. *)
Theorem column_allow_listing (plan : Plan.t) :
  ((forall c, Plan.option_ plan "capacityColumn" = VStr c -> ~ In c CAPACITY_COLUMNS) ->
   getCapacityColumn plan = None
   /\ buildCandidateSql plan = buildCandidateSql (without_option plan "capacityColumn")
   /\ includes (text (buildCandidateSql plan)) ">=" = false)
  /\ ((forall c, Plan.option_ plan "geoColumn" = VStr c -> ~ In c GEO_COLUMNS) ->
      getGeoColumn plan = "location"
      /\ buildCandidateSql plan = buildCandidateSql (without_option plan "geoColumn"))
  /\ includes (text (buildCandidateSql plan)) "DROP TABLE properties" = false.
Proof.
  split; [| split].
  - intros H. pose proof (getCapacityColumn_rejects plan H) as Hnone.
    split; [exact Hnone |].
    split; [apply capacity_ignored; exact Hnone | apply no_capacity_clause; exact Hnone].
  - intros H. split; [apply getGeoColumn_rejects; exact H | apply geo_column_ignored; exact H].
  - apply drop_table_never_in_text.
Qed.

(** The scenario of the specification, run: the option is dropped, the text
    is the one without a capacity filter. *)
Lemma column_allow_listing_witness :
  let plan := sample_plan (Some {[ "capacityColumn" := VStr "DROP TABLE properties" ]}) in
  getCapacityColumn plan = None
  /\ buildCandidateSql plan = buildCandidateSql (without_option plan "capacityColumn")
  /\ includes (text (buildCandidateSql plan)) ">=" = false.
Proof.
  cbv zeta.
  refine (proj1 (column_allow_listing
                   (sample_plan (Some {[ "capacityColumn" := VStr "DROP TABLE properties" ]}))) _).
  intros c Hc. vm_compute in Hc. injection Hc as <-.
  unfold CAPACITY_COLUMNS. simpl. intros [H | [H | [H | []]]]; discriminate.
Defined.

(** ** Pagination *)

Lemma inject_Z_nonzero (z : Z) : z <> 0 -> ~ (inject_Z z == 0)%Q.
Proof.
  intros Hz H. apply Hz. unfold Qeq, inject_Z in H. simpl in H. lia.
Qed.

Lemma Qeq_bool_inject_0 (z : Z) : z <> 0 -> Qeq_bool (inject_Z z) 0 = false.
Proof.
  intros Hz. apply not_true_iff_false. intros H.
  apply Qeq_bool_iff in H. exact (inject_Z_nonzero z Hz H).
Qed.

Lemma num_div_of_Z (a b : Z) :
  b <> 0 -> num_div (of_Z a) (of_Z b) = Fin (inject_Z a / inject_Z b).
Proof.
  intros Hb. unfold num_div, of_Z. rewrite (Qeq_bool_inject_0 b Hb). reflexivity.
Qed.

Lemma Qceiling_div (n d : Z) :
  0 < d -> Qceiling (inject_Z n / inject_Z d) = - ((- n) `div` d).
Proof.
  intros Hd. unfold Qceiling. f_equal. rewrite Zdiv_Qdiv.
  apply Qfloor_comp. rewrite inject_Z_opp. field.
  apply inject_Z_nonzero. lia.
Qed.

Lemma Qtrunc_eq (q : Q) (z : Z) : (q == inject_Z z)%Q -> Qtrunc q = z.
Proof.
  intros H. unfold Qtrunc. destruct (Qlt_bool q 0).
  - rewrite (Qceiling_comp _ _ H). apply Qceiling_Z.
  - rewrite (Qfloor_comp _ _ H). apply Qfloor_Z.
Qed.

Lemma relative_index_nonneg (len z : Z) (q : Q) :
  (q == inject_Z z)%Q -> 0 <= z -> relative_index len (Fin q) = Z.min z len.
Proof.
  intros H Hz. unfold relative_index. rewrite (Qtrunc_eq q z H).
  destruct (z <? 0) eqn:E; [lia | reflexivity].
Qed.

Section PaginationFacts.

Variable plan : Plan.t.
Variable properties : list PricedProperty.
Variables p ps : Z.
Hypothesis Hpage : Plan.page plan = of_Z p.
Hypothesis HpageSize : Plan.pageSize plan = of_Z ps.
Hypothesis Hp : 1 <= p.
Hypothesis Hps : 1 <= ps.

Let n : Z := Z.of_nat (length properties).

Lemma pagination_meta :
  Result.pagination (pagination plan properties) =
  {| Result.page := of_Z p;
     Result.pageSize := of_Z ps;
     Result.total := of_Z n;
     Result.totalPages := of_Z (Z.max 1 (Qceiling (inject_Z n / inject_Z ps))) |}.
Proof.
  unfold pagination. cbn [Result.pagination]. rewrite Hpage, HpageSize.
  f_equal. fold n. rewrite num_div_of_Z by lia.
  cbn [Math_ceil]. apply Math_max_of_Z.
Qed.

Lemma pagination_slice :
  Result.properties (pagination plan properties) =
  take (Z.to_nat (Z.min (p * ps) n - Z.min ((p - 1) * ps) n))
       (drop (Z.to_nat (Z.min ((p - 1) * ps) n)) properties).
Proof.
  unfold pagination. cbn [Result.properties]. rewrite Hpage, HpageSize.
  unfold Array_slice, of_Z, num_sub, num_neg, num_add, num_mul. fold n.
  set (start := ((inject_Z p + - inject_Z 1) * inject_Z ps)%Q).
  assert (Hstart : (start == inject_Z ((p - 1) * ps))%Q).
  { unfold start. rewrite inject_Z_mult. replace (p - 1) with (p + - 1) by lia.
    rewrite inject_Z_plus. change (inject_Z (-1)) with (- inject_Z 1)%Q. ring. }
  assert (Hend : (start + inject_Z ps == inject_Z (p * ps))%Q).
  { rewrite Hstart, <- inject_Z_plus. replace ((p - 1) * ps + ps) with (p * ps) by lia.
    reflexivity. }
  rewrite (relative_index_nonneg n _ _ Hstart), (relative_index_nonneg n _ _ Hend) by nia.
  reflexivity.
Qed.

Lemma pagination_lookup (i : nat) :
  Result.properties (pagination plan properties) !! i =
  if decide (Z.of_nat i < ps)
  then properties !! (Z.to_nat ((p - 1) * ps) + i)%nat
  else None.
Proof.
  rewrite pagination_slice, lookup_take, lookup_drop.
  assert (Hn : n = Z.of_nat (length properties)) by reflexivity.
  assert (0 <= (p - 1) * ps) by nia.
  destruct (decide (Z.of_nat i < ps)) as [Hi | Hi];
    destruct (decide (i < Z.to_nat (Z.min (p * ps) n - Z.min ((p - 1) * ps) n))%nat)
      as [Hc | Hc].
  - destruct (Z.min_spec ((p - 1) * ps) n) as [[Hlt ->] | [Hge ->]].
    + reflexivity.
    + rewrite !lookup_ge_None_2; [reflexivity | lia | lia].
  - symmetry. apply lookup_ge_None_2. lia.
  - lia.
  - reflexivity.
Qed.

Lemma pagination_past_the_end :
  Z.max 1 (Qceiling (inject_Z n / inject_Z ps)) < p ->
  Result.properties (pagination plan properties) = [].
Proof.
  intros Hlast. rewrite pagination_slice.
  rewrite Qceiling_div in Hlast by lia.
  assert (n <= (p - 1) * ps).
  { pose proof (Z.div_mod (- n) ps ltac:(lia)) as Hdm.
    pose proof (Z.mod_pos_bound (- n) ps ltac:(lia)) as Hb. nia. }
  rewrite drop_ge; [apply take_nil | subst n; lia].
Qed.

End PaginationFacts.

(** C3.  For a plan whose page and page size are integers at least 1 (as in
    every built plan), the pagination stage returns the plan's page and page
    size, [total] the length of the list, [totalPages] the maximum of 1 and
    the ceiling of [total / pageSize], and as page the elements of the list
    from index [(page-1)*pageSize] inclusive to [page*pageSize] exclusive:
    element [i] of the page is element [(page-1)*pageSize + i] of the list
    for [i < pageSize], and there is none beyond.  A page past [totalPages]
    is empty, with the same metadata and no error.  The result depends on
    the plan through its page and page size only.  A list of 45 properties
    with page 3 and page size 20 gives 5 properties and 3 pages. *)
Theorem pagination_spec (plan : Plan.t) (properties : list PricedProperty) (p ps : Z) :
  Plan.page plan = of_Z p ->
  Plan.pageSize plan = of_Z ps ->
  1 <= p ->
  1 <= ps ->
  let r := pagination plan properties in
  let n := Z.of_nat (length properties) in
  let pages := Z.max 1 (Qceiling (inject_Z n / inject_Z ps)) in
  Result.pagination r =
    {| Result.page := of_Z p;
       Result.pageSize := of_Z ps;
       Result.total := of_Z n;
       Result.totalPages := of_Z pages |}
  /\ (forall i : nat,
        Result.properties r !! i =
        if decide (Z.of_nat i < ps)
        then properties !! (Z.to_nat ((p - 1) * ps) + i)%nat
        else None)
  /\ (pages < p -> Result.properties r = [])
  /\ (forall plan' : Plan.t,
        Plan.page plan' = Plan.page plan ->
        Plan.pageSize plan' = Plan.pageSize plan ->
        pagination plan' properties = r)
  /\ (n = 45 -> p = 3 -> ps = 20 ->
      length (Result.properties r) = 5%nat /\ pages = 3).
Proof.
  intros Hpage HpageSize Hp Hps. cbv zeta.
  split; [apply pagination_meta; assumption |].
  split; [intros i; apply pagination_lookup; assumption |].
  split; [apply pagination_past_the_end; assumption |].
  split.
  - intros plan' H1 H2. unfold pagination. rewrite H1, H2. reflexivity.
  - intros Hn -> ->. rewrite Hn. split; [| vm_compute; reflexivity].
    rewrite (pagination_slice plan properties 3 20) by assumption.
    rewrite length_take, length_drop. lia.
Qed.

(** The scenario of the specification, run on a list of 45 properties. *)
Lemma pagination_spec_witness :
  let plan := plan_with_paging (sample_plan None) (of_Z 3) (of_Z 20) in
  let r := pagination plan (sample_ranked 45) in
  Result.pagination r =
    {| Result.page := of_Z 3; Result.pageSize := of_Z 20;
       Result.total := of_Z 45; Result.totalPages := of_Z 3 |}
  /\ length (Result.properties r) = 5%nat.
Proof.
  cbv zeta.
  pose proof (pagination_spec (plan_with_paging (sample_plan None) (of_Z 3) (of_Z 20))
                (sample_ranked 45) 3 20 eq_refl eq_refl ltac:(lia) ltac:(lia)) as H.
  cbv zeta in H. destruct H as (Hmeta & _ & _ & _ & Hscen).
  split.
  - exact Hmeta.
  - exact (proj1 (Hscen eq_refl eq_refl eq_refl)).
Defined.

(** Two more runs: the first page, and a page past the end. *)
Example pagination_examples :
  map (fun x => id (candidate_of (available_of x)))
      (Result.properties
         (pagination (plan_with_paging (sample_plan None) (of_Z 2) (of_Z 2)) (sample_ranked 5)))
    = ["2"; "3"]
  /\ pagination (plan_with_paging (sample_plan None) (of_Z 7) (of_Z 20)) (sample_ranked 45)
     = {| Result.properties := [];
          Result.pagination :=
            {| Result.page := of_Z 7; Result.pageSize := of_Z 20;
               Result.total := of_Z 45; Result.totalPages := of_Z 3 |} |}.
Proof. split; vm_compute; reflexivity. Qed.

(** ** Orchestrator *)

Section Orchestration.

Variable StringToNumber : string -> number.
Variable ObjectToNumber : loc -> number.
Variable DateParse : string -> option Z.

Lemma search_plan_failure (st : Stage.impl) (input : Input.t) (c : SearchPlanErrorCode) :
  buildSearchPlan StringToNumber ObjectToNumber DateParse input = Err c -> search StringToNumber ObjectToNumber DateParse st input = ([], Err (PlanInvalid c)).
Proof.
  intros H. unfold search. rewrite H. reflexivity.
Qed.

Ltac stage_failed :=
  repeat eexists; repeat split; first [reflexivity | eassumption].

(** C4.  The orchestrator first builds the plan.  When that fails no stage
    is invoked and the failure is the outcome.  Otherwise the stages invoked
    are a prefix of candidate, availability, stayRules, pricing, ranking,
    pagination, in that order, each fed the plan and the output of the one
    before: the prefix ends at the first stage that fails, whose failure is
    the outcome (no result is returned), and it is the whole sequence, with
    the result of the pagination stage, when none fails. *)
Theorem search_orchestration (st : Stage.impl) (input : Input.t) :
  match buildSearchPlan StringToNumber ObjectToNumber DateParse input with
  | Err code => search StringToNumber ObjectToNumber DateParse st input = ([], Err (PlanInvalid code))
  | Ok plan =>
      (exists e,
          Stage.candidate st plan = Err e
          /\ search StringToNumber ObjectToNumber DateParse st input = (take 1 pipeline, Err e))
      \/ (exists cs e,
          Stage.candidate st plan = Ok cs
          /\ Stage.availability st plan cs = Err e
          /\ search StringToNumber ObjectToNumber DateParse st input = (take 2 pipeline, Err e))
      \/ (exists cs av e,
          Stage.candidate st plan = Ok cs
          /\ Stage.availability st plan cs = Ok av
          /\ Stage.stayRules st plan av = Err e
          /\ search StringToNumber ObjectToNumber DateParse st input = (take 3 pipeline, Err e))
      \/ (exists cs av sr e,
          Stage.candidate st plan = Ok cs
          /\ Stage.availability st plan cs = Ok av
          /\ Stage.stayRules st plan av = Ok sr
          /\ Stage.pricing st plan sr = Err e
          /\ search StringToNumber ObjectToNumber DateParse st input = (take 4 pipeline, Err e))
      \/ (exists cs av sr pr e,
          Stage.candidate st plan = Ok cs
          /\ Stage.availability st plan cs = Ok av
          /\ Stage.stayRules st plan av = Ok sr
          /\ Stage.pricing st plan sr = Ok pr
          /\ Stage.ranking st plan pr = Err e
          /\ search StringToNumber ObjectToNumber DateParse st input = (take 5 pipeline, Err e))
      \/ (exists cs av sr pr rk,
          Stage.candidate st plan = Ok cs
          /\ Stage.availability st plan cs = Ok av
          /\ Stage.stayRules st plan av = Ok sr
          /\ Stage.pricing st plan sr = Ok pr
          /\ Stage.ranking st plan pr = Ok rk
          /\ search StringToNumber ObjectToNumber DateParse st input = (pipeline, Stage.pagination st plan rk))
  end.
Proof.
  destruct (buildSearchPlan StringToNumber ObjectToNumber DateParse input) as [plan | code] eqn:Hplan;
    [| apply search_plan_failure; exact Hplan].
  unfold search. rewrite Hplan. cbn.
  destruct (Stage.candidate st plan) as [cs | e] eqn:H1; cbn;
    [| left; stage_failed].
  destruct (Stage.availability st plan cs) as [av | e] eqn:H2; cbn;
    [| right; left; stage_failed].
  destruct (Stage.stayRules st plan av) as [sr | e] eqn:H3; cbn;
    [| right; right; left; stage_failed].
  destruct (Stage.pricing st plan sr) as [pr | e] eqn:H4; cbn;
    [| right; right; right; left; stage_failed].
  destruct (Stage.ranking st plan pr) as [rk | e] eqn:H5; cbn;
    [| right; right; right; right; left; stage_failed].
  right; right; right; right; right.
  exists cs, av, sr, pr, rk. do 5 (split; [first [reflexivity | assumption] |]).
  destruct (Stage.pagination st plan rk); reflexivity.
Qed.

End Orchestration.

(** Three runs: a failing pricing stage, a failing candidate stage, and an
    input whose latitude is out of range. *)
Example search_orchestration_examples :
  search no_number no_number iso_date_parse (stages_failing_at (Some SPricing)) sample_input
    = ([SCandidate; SAvailability; SStayRules; SPricing], Err (Thrown "stage failed"))
  /\ search no_number no_number iso_date_parse (stages_failing_at (Some SCandidate)) sample_input
    = ([SCandidate], Err (Thrown "stage failed"))
  /\ fst (search no_number no_number iso_date_parse (stages_failing_at None) sample_input)
    = pipeline
  /\ search no_number no_number iso_date_parse (stages_failing_at None)
        (Input.mk (VNum (of_Z 132)) (VNum (of_Z 4)) (VStr "2026-01-12") (VStr "2026-01-14")
                  (VNum (of_Z 2)) VUndefined VUndefined VUndefined None)
    = ([], Err (PlanInvalid INVALID_LATITUDE)).
Proof. repeat split; vm_compute; reflexivity. Qed.

(** ** Plan builder *)

Section PlanBuilder.

Variable StringToNumber : string -> number.
Variable ObjectToNumber : loc -> number.
Variable DateParse : string -> option Z.

Lemma parseDate_field (v : jsval) (f g : DateField) (t : Z) :
  parseDate DateParse v f = Ok t -> parseDate DateParse v g = Ok t.
Proof.
  unfold parseDate. destruct v; try discriminate.
  destruct (String.eqb (trim s) ""); [discriminate |].
  destruct (DateParse (trim s)); [auto | discriminate].
Qed.

Lemma parseGeo_error (input : Input.t) (c : SearchPlanErrorCode) :
  parseGeo StringToNumber ObjectToNumber input = Err c ->
  c = INVALID_LATITUDE \/ c = INVALID_LONGITUDE.
Proof.
  unfold parseGeo.
  repeat match goal with
         | |- context [if ?b then _ else _] => destruct b
         end; intros [= <-]; auto.
Qed.

(** What an accepted input tells about the plan. *)
Lemma buildSearchPlan_Ok (input : Input.t) (plan : Plan.t) :
  buildSearchPlan StringToNumber ObjectToNumber DateParse input = Ok plan ->
  exists tin tout g,
    parseDate DateParse (Input.checkIn input) FcheckIn = Ok tin
    /\ parseDate DateParse (Input.checkOut input) FcheckOut = Ok tout
    /\ tin < tout
    /\ parseGeo StringToNumber ObjectToNumber input = Ok g
    /\ Plan.geo plan = Some g
    /\ Plan.page plan =
       parseNumber StringToNumber ObjectToNumber (Input.page input)
                   DEFAULT_PAGE MIN_PAGE (of_Z MAX_SAFE_INTEGER)
    /\ Plan.pageSize plan =
       parseNumber StringToNumber ObjectToNumber (Input.pageSize input)
                   DEFAULT_PAGE_SIZE MIN_PAGE_SIZE MAX_PAGE_SIZE
    /\ Plan.radius plan = extractRadiusKm StringToNumber ObjectToNumber (Input.filters input)
    /\ Plan.options plan = Input.filters input.
Proof.
  unfold buildSearchPlan.
  destruct (parseDate DateParse (Input.checkIn input) FcheckIn) as [tin |] eqn:Hin;
    [| discriminate].
  destruct (parseDate DateParse (Input.checkOut input) FcheckOut) as [tout |] eqn:Hout;
    [| discriminate].
  cbn [mbind result_bind].
  destruct (tin >=? tout) eqn:Hord; [discriminate |].
  repeat match goal with
         | |- context [if ?b then Err _ else _] => destruct b; [discriminate |]
         end.
  destruct (parseGeo StringToNumber ObjectToNumber input) as [g |] eqn:Hgeo;
    [| discriminate].
  intros [= <-]. exists tin, tout, g. cbn.
  repeat split; try reflexivity. lia.
Qed.

Lemma parseNumber_spec (v : jsval) (d lo hi : Z) :
  parseNumber StringToNumber ObjectToNumber v (of_Z d) (of_Z lo) (of_Z hi) =
  match v with
  | VUndefined | VNull => of_Z d
  | _ => floor_clamp d lo hi (Number StringToNumber ObjectToNumber v)
  end.
Proof.
  unfold parseNumber.
  destruct v; try reflexivity;
    (destruct (Number StringToNumber ObjectToNumber _) as [| | |q];
     cbn [Number_isFinite negb]; try reflexivity;
     unfold floor_clamp; cbn [Math_floor];
     rewrite Math_max_of_Z, Math_min_of_Z; reflexivity).
Qed.

Lemma parseNumber_range (v : jsval) (d lo hi : Z) :
  lo <= d <= hi -> lo <= hi ->
  exists z, parseNumber StringToNumber ObjectToNumber v (of_Z d) (of_Z lo) (of_Z hi) = of_Z z
            /\ lo <= z <= hi.
Proof.
  intros Hd Hlohi. rewrite parseNumber_spec.
  destruct v; try (exists d; split; [reflexivity | lia]);
    (unfold floor_clamp;
     destruct (Number StringToNumber ObjectToNumber _) as [| | |q];
     try (exists d; split; [reflexivity | lia]);
     eexists; split; [reflexivity | lia]).
Qed.

Lemma radius_clamp (q : Q) :
  Math_min MAX_RADIUS_KM (Math_max MIN_RADIUS_KM (Fin q)) = clamp_radius (Fin q).
Proof.
  unfold clamp_radius, MAX_RADIUS_KM, MIN_RADIUS_KM, of_Z, Math_max, Math_min, num_lt,
    Qlt_bool.
  change (inject_Z 1) with 1%Q. change (inject_Z 500) with 500%Q.
  destruct (Qle_bool q 1) eqn:H1; cbn [negb].
  - reflexivity.
  - destruct (Qle_bool 500 q) eqn:H2; reflexivity.
Qed.

Lemma clamp_radius_range (n : number) :
  exists q, clamp_radius n = Fin q /\ (1 <= q <= 500)%Q.
Proof.
  destruct n as [| | |q]; try (exists 10%Q; split; [reflexivity | lra]).
  unfold clamp_radius.
  destruct (Qle_bool q 1) eqn:H1; [exists 1%Q; split; [reflexivity | lra] |].
  destruct (Qle_bool 500 q) eqn:H2; [exists 500%Q; split; [reflexivity | lra] |].
  apply not_true_iff_false in H1, H2. rewrite Qle_bool_iff in H1, H2.
  exists q. split; [reflexivity | lra].
Qed.

Lemma extractRadiusKm_spec (filters : option (gmap string jsval)) :
  extractRadiusKm StringToNumber ObjectToNumber filters =
  match filters with
  | None => of_Z 10
  | Some f =>
      match nullish (prop f "radiusKm") (prop f "radius") with
      | VUndefined | VNull => of_Z 10
      | r => clamp_radius (Number StringToNumber ObjectToNumber r)
      end
  end.
Proof.
  unfold extractRadiusKm. destruct filters as [f |]; [| reflexivity].
  destruct (nullish (prop f "radiusKm") (prop f "radius")) eqn:E; try reflexivity;
    (destruct (Number StringToNumber ObjectToNumber _) as [| | |q];
     cbn [Number_isFinite negb]; try reflexivity; apply radius_clamp).
Qed.

Lemma built_paging_range (input : Input.t) (plan : Plan.t) :
  buildSearchPlan StringToNumber ObjectToNumber DateParse input = Ok plan ->
  (exists p, Plan.page plan = of_Z p /\ 1 <= p <= MAX_SAFE_INTEGER)
  /\ (exists s, Plan.pageSize plan = of_Z s /\ 1 <= s <= 100).
Proof.
  intros Hb.
  destruct (buildSearchPlan_Ok input plan Hb)
    as (tin & tout & g & _ & _ & _ & _ & _ & Hp & Hs & _ & _).
  rewrite Hp, Hs. unfold DEFAULT_PAGE, MIN_PAGE, DEFAULT_PAGE_SIZE, MIN_PAGE_SIZE, MAX_PAGE_SIZE.
  split; apply parseNumber_range; unfold MAX_SAFE_INTEGER; lia.
Qed.

Lemma built_radius_range (input : Input.t) (plan : Plan.t) :
  buildSearchPlan StringToNumber ObjectToNumber DateParse input = Ok plan ->
  exists q, Plan.radius plan = Fin q /\ (1 <= q <= 500)%Q.
Proof.
  intros Hb.
  destruct (buildSearchPlan_Ok input plan Hb)
    as (tin & tout & g & _ & _ & _ & _ & _ & _ & _ & Hr & _).
  rewrite Hr, extractRadiusKm_spec.
  destruct (Input.filters input) as [f |]; [| exists 10%Q; split; [reflexivity | lra]].
  destruct (nullish (prop f "radiusKm") (prop f "radius"));
    first [apply clamp_radius_range | exists 10%Q; split; [reflexivity | lra]].
Qed.



(** C5.  When both dates parse, the builder fails with
    [ARRIVAL_AFTER_DEPARTURE] exactly when the check-in time is greater than
    or equal to the check-out time.  Equal check-in and check-out values give
    that failure, and the orchestrator then returns it without invoking the
    candidate stage or any other. *)
Theorem arrival_after_departure (input : Input.t) (tin tout : Z) :
  parseDate DateParse (Input.checkIn input) FcheckIn = Ok tin ->
  parseDate DateParse (Input.checkOut input) FcheckOut = Ok tout ->
  (buildSearchPlan StringToNumber ObjectToNumber DateParse input = Err ARRIVAL_AFTER_DEPARTURE
   <-> tout <= tin)
  /\ (Input.checkIn input = Input.checkOut input ->
      buildSearchPlan StringToNumber ObjectToNumber DateParse input
      = Err ARRIVAL_AFTER_DEPARTURE)
  /\ (tout <= tin ->
      forall st : Stage.impl,
        search StringToNumber ObjectToNumber DateParse st input
        = ([], Err (PlanInvalid ARRIVAL_AFTER_DEPARTURE))).
Proof.
  intros Hin Hout.
  assert (Hfail : tout <= tin ->
                  buildSearchPlan StringToNumber ObjectToNumber DateParse input
                  = Err ARRIVAL_AFTER_DEPARTURE).
  { intros Hle. unfold buildSearchPlan. rewrite Hin, Hout. cbn [mbind result_bind].
    destruct (tin >=? tout) eqn:E; [reflexivity | lia]. }
  split; [split; [| exact Hfail] | split].
  - unfold buildSearchPlan. rewrite Hin, Hout. cbn [mbind result_bind].
    destruct (tin >=? tout) eqn:E; [intros _; lia |].
    repeat match goal with
           | |- context [if ?b then Err _ else _] => destruct b; [discriminate |]
           end.
    destruct (parseGeo StringToNumber ObjectToNumber input) as [g | c] eqn:Hgeo;
      [discriminate |].
    cbn [mbind result_bind]. intros [= ->].
    destruct (parseGeo_error input _ Hgeo); discriminate.
  - intros Heq. apply Hfail. rewrite Heq in Hin.
    apply (parseDate_field _ _ FcheckOut) in Hin. rewrite Hin in Hout.
    injection Hout as ->. lia.
  - intros Hle st. apply search_plan_failure. apply Hfail. exact Hle.
Qed.



End PlanBuilder.

(** Equal check-in and check-out dates, run through the builder and the
    orchestrator. *)
Lemma arrival_after_departure_witness :
  let input := with_dates sample_input (VStr "2026-01-14") (VStr "2026-01-14") in
  sample_build input = Err ARRIVAL_AFTER_DEPARTURE
  /\ forall st : Stage.impl,
       search no_number no_number iso_date_parse st input
       = ([], Err (PlanInvalid ARRIVAL_AFTER_DEPARTURE)).
Proof.
  cbv zeta.
  pose proof (arrival_after_departure no_number no_number iso_date_parse
                (with_dates sample_input (VStr "2026-01-14") (VStr "2026-01-14"))
                1768348800000 1768348800000 eq_refl eq_refl) as (_ & Hsame & Hrun).
  split.
  - apply Hsame. reflexivity.
  - apply Hrun. lia.
Defined.




(** More runs of the normalisation. *)
Example normalisation_examples :
  (Plan.pageSize <$> sample_build (with_paging sample_input VUndefined (VNum (of_Z (-5)))))
    = Ok (of_Z 1)
  /\ (Plan.pageSize <$> sample_build (with_paging sample_input VUndefined (VNum NaN)))
    = Ok (of_Z 20)
  /\ (Plan.page <$> sample_build (with_paging sample_input (VNum PosInf) VNull))
    = Ok (of_Z 1)
  /\ (Plan.radius <$>
        sample_build (with_filters sample_input (Some {[ "radius" := VNum (Fin (1 # 4)) ]})))
    = Ok (of_Z 1)
  /\ (Plan.radius <$>
        sample_build (with_filters sample_input
                        (Some {[ "radiusKm" := VNull; "radius" := VNum (of_Z 9000) ]})))
    = Ok (of_Z 500)
  /\ (Plan.radius <$>
        sample_build (with_filters sample_input (Some {[ "radiusKm" := VNum (Fin (25 # 2)) ]})))
    = Ok (Fin (25 # 2))
  /\ (Plan.radius <$>
        sample_build (with_filters sample_input (Some {[ "radiusKm" := VStr "far" ]})))
    = Ok (of_Z 10).
Proof. repeat split; vm_compute; reflexivity. Qed.

(** ** Rounding to the nearest double *)

Lemma round_half_even_cases (y : Q) :
  (round_half_even y = Qfloor y /\ (y - inject_Z (Qfloor y) <= 1 # 2)%Q)
  \/ (round_half_even y = Qfloor y + 1 /\ (1 # 2 <= y - inject_Z (Qfloor y))%Q).
Proof.
  unfold round_half_even.
  destruct (Qcompare_spec (y - inject_Z (Qfloor y)) (1 # 2)) as [H | H | H].
  - destruct (Z.even (Qfloor y)); [left | right]; (split; [reflexivity |]);
      rewrite H; apply Qle_refl.
  - left. split; [reflexivity | apply Qlt_le_weak; exact H].
  - right. split; [reflexivity | apply Qlt_le_weak; exact H].
Qed.

Lemma round_half_even_near (y : Q) :
  (Qabs (inject_Z (round_half_even y) - y) <= 1 # 2)%Q.
Proof.
  pose proof (Qfloor_le y) as Hlo. pose proof (Qlt_floor y) as Hhi.
  rewrite inject_Z_plus in Hhi. change (inject_Z 1) with 1%Q in Hhi.
  apply Qabs_Qle_condition.
  destruct (round_half_even_cases y) as [[-> H] | [-> H]].
  - split; lra.
  - rewrite inject_Z_plus. change (inject_Z 1) with 1%Q. split; lra.
Qed.

(** Rounding to the nearest integer does not cross an integer. *)
Lemma round_half_even_grid (y : Q) (k : Z) :
  ((inject_Z k <= y)%Q -> k <= round_half_even y)
  /\ ((y <= inject_Z k)%Q -> round_half_even y <= k).
Proof.
  pose proof (Qfloor_le y) as Hlo. pose proof (Qlt_floor y) as Hhi.
  split; intros H.
  - assert (k <= Qfloor y).
    { rewrite <- (Qfloor_Z k). apply Qfloor_resp_le. exact H. }
    destruct (round_half_even_cases y) as [[-> _] | [-> _]]; lia.
  - destruct (round_half_even_cases y) as [[-> _] | [-> Hr]].
    + apply Z.lt_succ_r. rewrite Zlt_Qlt. eapply Qle_lt_trans; [exact Hlo |].
      eapply Qle_lt_trans; [exact H |]. rewrite <- Zlt_Qlt. lia.
    + assert (Qfloor y < k); [| lia].
      rewrite Zlt_Qlt. lra.
Qed.

Lemma pow2_pos (e : Z) : (0 < 2 ^ e)%Q.
Proof. apply Qpower_0_lt. reflexivity. Qed.

Lemma pow2_le (a b : Z) : a <= b -> (2 ^ a <= 2 ^ b)%Q.
Proof. intros H. apply Qpower_le_compat_l; [exact H | discriminate]. Qed.

Lemma pow2_succ (e : Z) : (2 ^ (e + 1) == 2 * 2 ^ e)%Q.
Proof. rewrite Qpower_plus by discriminate. rewrite Qpower_1_r. ring. Qed.

Lemma pow2_Z (p : Z) : 0 <= p -> (inject_Z (2 ^ p) == 2 ^ p)%Q.
Proof. intros H. rewrite Zpower_Qpower by exact H. reflexivity. Qed.

(** [ilog2] is at most the logarithm, and at least the logarithm less 1. *)
Lemma ilog2_le (q : Q) : (0 < q)%Q -> (2 ^ ilog2 q <= q)%Q.
Proof.
  intros Hq. unfold ilog2.
  set (e := Z.log2 (Qnum q) - Z.log2 (Z.pos (Qden q))).
  destruct (Qle_bool (2 ^ e) q) eqn:E; [apply Qle_bool_iff; exact E |].
  destruct q as [n d]. cbn [Qnum Qden] in *.
  assert (Hn : 0 < n) by (unfold Qlt in Hq; cbn in Hq; lia).
  destruct (Z.log2_spec n Hn) as [Hn1 _].
  destruct (Z.log2_spec (Z.pos d) ltac:(lia)) as [_ Hd2].
  pose proof (Z.log2_nonneg n) as Hln. pose proof (Z.log2_nonneg (Z.pos d)) as Hld.
  replace (e - 1) with (Z.log2 n - (Z.log2 (Z.pos d) + 1)) by (unfold e; lia).
  rewrite Qpower_minus by discriminate.
  rewrite <- !pow2_Z by lia.
  apply Qle_shift_div_r.
  - rewrite <- (Zlt_Qlt 0). apply Z.pow_pos_nonneg; lia.
  - unfold Qle, Qmult, inject_Z. cbn [Qnum Qden].
    rewrite !Z.mul_1_r. rewrite Pos.mul_1_r.
    apply Z.mul_le_mono_nonneg; try lia.
Qed.

Lemma ilog2_lt (q : Q) (n : Z) : (0 < q)%Q -> (q < 2 ^ n)%Q -> ilog2 q < n.
Proof.
  intros Hq Hn. destruct (Z_lt_le_dec (ilog2 q) n) as [H | H]; [exact H | exfalso].
  pose proof (ilog2_le q Hq) as H1. pose proof (pow2_le n (ilog2 q) H) as H2. lra.
Qed.

Lemma pow2_neg_Z (e : Z) : e <= 0 -> (2 ^ e * inject_Z (2 ^ (- e)) == 1)%Q.
Proof.
  intros H. rewrite pow2_Z by lia. rewrite <- Qpower_plus by discriminate.
  replace (e + - e) with 0 by lia. reflexivity.
Qed.

(** What [round64] returns for a positive [x] below [2^n]: a number within
    half a unit in the last place of [x], and, below [2^53], on the same side
    of every integer as [x]. *)
Lemma round64_spec (x : Q) (n : Z) :
  (0 < x)%Q -> (x < 2 ^ n)%Q -> -1021 <= n <= 1023 ->
  exists v : Q,
    round64 x = Fin v /\ Qred v = v /\ (Qabs (v - x) <= 2 ^ (n - 54))%Q
    /\ (n <= 53 -> forall k : Z,
          ((inject_Z k <= x)%Q -> (inject_Z k <= v)%Q)
          /\ ((x <= inject_Z k)%Q -> (v <= inject_Z k)%Q)).
Proof.
  intros Hx Hn Hrange.
  assert (Habs : Qabs x = x).
  { destruct x as [[| p | p] d]; try reflexivity; unfold Qlt in Hx; cbn in Hx; lia. }
  unfold round64. rewrite Habs.
  assert (H0 : Qeq_bool x 0 = false).
  { destruct (Qeq_bool x 0) eqn:E; [| reflexivity].
    apply Qeq_bool_iff in E. lra. }
  assert (Hneg : Qlt_bool x 0 = false).
  { apply Qlt_bool_false. lra. }
  rewrite H0, Hneg.
  set (e := Z.max (ilog2 x - 52) (-1074)).
  assert (He : e <= n - 53).
  { pose proof (ilog2_lt x n Hx Hn). unfold e. lia. }
  set (y := (x / 2 ^ e)%Q).
  set (m := round_half_even y).
  pose proof (pow2_pos e) as Hpe.
  assert (Hy : (y * 2 ^ e == x)%Q).
  { unfold y. field. lra. }
  pose proof (round_half_even_near y) as Hnear. fold m in Hnear.
  apply Qabs_Qle_condition in Hnear. destruct Hnear as [Hn1 Hn2].
  assert (Hhalf : (2 ^ (e - 1) * 2 == 2 ^ e)%Q).
  { rewrite <- (Qpower_1_r 2) at 2. rewrite <- Qpower_plus by discriminate.
    replace (e - 1 + 1) with e by lia. reflexivity. }
  assert (Hulp : (2 ^ (e - 1) <= 2 ^ (n - 54))%Q) by (apply pow2_le; lia).
  assert (Herr : (- 2 ^ (e - 1) <= inject_Z m * 2 ^ e - x <= 2 ^ (e - 1))%Q).
  { rewrite <- Hy. rewrite <- Hhalf.
    pose proof (pow2_pos (e - 1)) as Hp1.
    split; nra. }
  assert (Htop : (2 ^ (n - 54) <= 2 ^ n)%Q) by (apply pow2_le; lia).
  assert (Hmax : (2 ^ n * 2 <= 2 ^ 1024)%Q).
  { rewrite <- (Qpower_1_r 2) at 2. rewrite <- Qpower_plus by discriminate.
    apply pow2_le. lia. }
  assert (Hov : Qle_bool (2 ^ 1024) (inject_Z m * 2 ^ e) = false).
  { destruct (Qle_bool (2 ^ 1024) (inject_Z m * 2 ^ e)) eqn:E; [| reflexivity].
    apply Qle_bool_iff in E. lra. }
  rewrite Hov.
  exists (Qred (inject_Z m * 2 ^ e)). split; [reflexivity |].
  split; [apply Qred_complete, Qred_correct |].
  split.
  - rewrite Qred_correct. apply Qabs_Qle_condition. lra.
  - intros Hn53 k. rewrite Qred_correct.
    assert (He0 : e <= 0) by lia.
    pose proof (pow2_neg_Z e He0) as Hinv.
    assert (Hk : (inject_Z (k * 2 ^ (- e)) * 2 ^ e == inject_Z k)%Q).
    { rewrite inject_Z_mult. rewrite <- Qmult_assoc, (Qmult_comm (inject_Z (2 ^ (- e)))), Hinv.
      ring. }
    destruct (round_half_even_grid y (k * 2 ^ (- e))) as [Hg1 Hg2]. fold m in Hg1, Hg2.
    split; intros Hkx.
    + assert (Hle : (inject_Z (k * 2 ^ (- e)) <= y)%Q).
      { apply Qmult_le_r with (z := (2 ^ e)%Q); [exact Hpe |]. rewrite Hk, Hy. exact Hkx. }
      apply Hg1 in Hle. rewrite Zle_Qle in Hle.
      rewrite <- Hk. apply Qmult_le_compat_r; [exact Hle | lra].
    + assert (Hle : (y <= inject_Z (k * 2 ^ (- e)))%Q).
      { apply Qmult_le_r with (z := (2 ^ e)%Q); [exact Hpe |]. rewrite Hk, Hy. exact Hkx. }
      apply Hg2 in Hle. rewrite Zle_Qle in Hle.
      rewrite <- Hk. apply Qmult_le_compat_r; [exact Hle | lra].
Qed.

Lemma Qred_inject_Z (k : Z) : Qred (inject_Z k) = inject_Z k.
Proof.
  unfold Qred, inject_Z.
  pose proof (Z.ggcd_gcd k 1) as Hg. pose proof (Z.ggcd_correct_divisors k 1) as Hd.
  destruct (Z.ggcd k 1) as [g [r1 r2]]. cbn [fst snd] in *.
  rewrite Z.gcd_1_r in Hg. subst g. destruct Hd as [H1 H2].
  rewrite !Z.mul_1_l in *. subst. reflexivity.
Qed.

(** An exact result that is a positive integer below [2^53] is not rounded. *)
Lemma round64_integer (x : Q) (k : Z) :
  (x == inject_Z k)%Q -> 0 < k < 2 ^ 53 -> round64 x = of_Z k.
Proof.
  intros Hx Hk.
  assert (Hpos : (0 < x)%Q).
  { rewrite Hx. rewrite <- (Zlt_Qlt 0). lia. }
  assert (Hlt : (x < 2 ^ 53)%Q).
  { rewrite Hx. rewrite <- (pow2_Z 53) by lia. rewrite <- Zlt_Qlt. lia. }
  destruct (round64_spec x 53 Hpos Hlt ltac:(lia)) as (v & -> & Hred & _ & Hgrid).
  destruct (Hgrid ltac:(lia) k) as [H1 H2].
  assert (Hv : (v == inject_Z k)%Q).
  { apply Qle_antisym; [apply H2 | apply H1]; rewrite Hx; apply Qle_refl. }
  unfold of_Z. f_equal. rewrite <- Hred, <- (Qred_inject_Z k).
  apply Qred_complete. exact Hv.
Qed.

(** The decimal [16.1] denotes the double nearest to it, and the double
    product of 16.1 and 1000 is 16100.000000000002, not 16100; the sum of
    0.1 and 0.2 is 0.30000000000000004; ties go to the even neighbour; the
    largest double is followed by infinity, and the least by zero. *)
Example double_examples :
  double (Fin (161 # 10)) = Fin (2265873562520781 # 140737488355328)
  /\ double (num_mul (double (Fin (161 # 10))) (of_Z 1000))
     = double (Fin (16100000000000002 # 1000000000000))
  /\ double (num_mul (double (Fin (161 # 10))) (of_Z 1000)) <> of_Z 16100
  /\ double (num_add (double (Fin (1 # 10))) (double (Fin (2 # 10))))
     = double (Fin (30000000000000004 # 100000000000000000))
  /\ double (of_Z (2 ^ 53 + 1)) = of_Z (2 ^ 53)
  /\ double (of_Z (2 ^ 53 + 3)) = of_Z (2 ^ 53 + 4)
  /\ double (Fin (2 ^ 1024 - 2 ^ 970)) = PosInf
  /\ double (Fin (1 # 2 ^ 1075)) = of_Z 0.
Proof. vm_compute. repeat split; try reflexivity. discriminate. Qed.

(** ** Candidate query: geospatial filter and distance *)

Lemma with_radius_text (plan : Plan.t) (r : number) :
  text (buildCandidateSql (Plan.with_radius plan r)) = text (buildCandidateSql plan).
Proof.
  destruct plan as [i ci co ni gu pg ps g rd hc o].
  unfold Plan.with_radius, buildCandidateSql, getCapacityColumn, getGeoColumn,
    resolveCandidateLimit, Plan.option_.
  cbn [Plan.input Plan.checkInDate Plan.checkOutDate Plan.nights Plan.guests Plan.page
       Plan.pageSize Plan.geo Plan.radius Plan.hasChildren Plan.options].
  destruct (match match o with Some o0 => prop o0 "capacityColumn" | None => VUndefined end
            with VStr c => if array_includes CAPACITY_COLUMNS c then Some c else None
            | _ => None end);
    destruct g; reflexivity.
Qed.

Lemma geo_clause (plan : Plan.t) (g : Geo) :
  Plan.geo plan = Some g ->
  let q := buildCandidateSql plan in
  exists k : nat,
    (1 <= k)%nat
    /\ includes (text q)
         ("WHERE " +:+
          match getCapacityColumn plan with
          | Some c => "p." +:+ c +:+ " >= $1 AND "
          | None => ""
          end +:+
          "ST_DWithin(p." +:+ getGeoColumn plan +:+ "::geography, params.p, $" +:+
          show_nat k +:+ ")" +:+ LF +:+ "ORDER BY p.id") = true
    /\ values q !! (k - 1)%nat
       = Some (VNum (double (num_mul (Plan.radius plan) (of_Z 1000))))
    /\ includes (text q)
         (", ST_Distance(p." +:+ getGeoColumn plan +:+
          "::geography, params.p) AS distance_meters" +:+ LF +:+
          "FROM properties p" +:+ LF +:+ ", params" +:+ LF +:+ "WHERE ") = true.
Proof.
  intros Hgeo. cbv zeta. unfold buildCandidateSql. rewrite Hgeo.
  destruct (getGeoColumn_allowed plan) as [Hg | Hg]; rewrite Hg;
    (destruct (getCapacityColumn plan) as [c |] eqn:Hc;
     [ apply getCapacityColumn_allowed in Hc; destruct Hc as [-> | [-> | ->]];
       exists 4%nat
     | exists 3%nat ];
     (split; [lia |]);
     (split; [cbn [text]; vm_compute; reflexivity |]);
     (split; [reflexivity | cbn [text]; vm_compute; reflexivity])).
Qed.

(** The radius in metres: the double product of a radius between 1 and 500
    and 1000 is finite, between 1000 and 500000, within [2^-35] of the exact
    product, and equal to it when that is a whole number. *)
Lemma radius_in_metres (r : Q) :
  (1 <= r <= 500)%Q ->
  exists v : Q,
    double (num_mul (Fin r) (of_Z 1000)) = Fin v
    /\ (1000 <= v <= 500000)%Q
    /\ (Qabs (v - r * 1000) <= 2 ^ (-35))%Q
    /\ (forall z : Z, (r * 1000 == inject_Z z)%Q -> v = inject_Z z).
Proof.
  intros [Hlo Hhi]. cbn [double num_mul of_Z].
  change (inject_Z 1000) with 1000%Q.
  assert (Hpos : (0 < r * 1000)%Q) by lra.
  assert (Hlt : (r * 1000 < 2 ^ 19)%Q).
  { change (2 ^ 19)%Q with 524288%Q. lra. }
  destruct (round64_spec (r * 1000) 19 Hpos Hlt ltac:(lia)) as (v & Hv & Hred & Herr & Hgrid).
  exists v. split; [exact Hv |].
  specialize (Hgrid ltac:(lia)).
  split.
  - split.
    + apply (proj1 (Hgrid 1000)). change (inject_Z 1000) with 1000%Q. lra.
    + apply (proj2 (Hgrid 500000)). change (inject_Z 500000) with 500000%Q. lra.
  - split; [exact Herr |].
    intros z Hz.
    assert (Hz1 : (inject_Z 1000 <= inject_Z z)%Q).
    { rewrite <- Hz. change (inject_Z 1000) with 1000%Q. lra. }
    assert (Hz2 : (inject_Z z <= inject_Z 500000)%Q).
    { rewrite <- Hz. change (inject_Z 500000) with 500000%Q. lra. }
    rewrite <- Zle_Qle in Hz1, Hz2.
    pose proof (round64_integer (r * 1000) z Hz ltac:(lia)) as Hint.
    rewrite Hv in Hint. injection Hint as ->. reflexivity.
Qed.

Section Distance.

Variable StringToNumber : string -> number.
Variable ObjectToNumber : loc -> number.
Variable DateParse : string -> option Z.
Variable query : string -> list jsval -> result Failure (list CandidateRow).
Variable FractionToString : Q -> string.
Variable ObjectToString : loc -> string.

Lemma NumberToString_floor (d : Q) :
  Z.abs (Qfloor d) <= 2 ^ 53 ->
  NumberToString FractionToString (Math_floor (Fin d)) = show_Z (Qfloor d).
Proof.
  intros Hd. unfold Math_floor, of_Z, NumberToString. rewrite Qfloor_Z.
  rewrite Qeq_bool_refl. cbn [andb].
  destruct (Z.abs (Qfloor d) <=? 2 ^ 53) eqn:E; [reflexivity | lia].
Qed.

(** C8.  In the query of a built plan the geo point is present.  The WHERE
    clause has the radius test [ST_DWithin] on the selected geo column, after
    the capacity test if there is one; its last argument is a placeholder,
    and the value bound to it is the plan's radius times 1000 (kilometres to
    metres) as JavaScript computes it: the double nearest to the product, a
    finite number between 1000 and 500000, within [2^-35] of the exact
    product and equal to it when that is a whole number.  The SELECT list
    ends with the distance projected as [distance_meters].  The text is the
    same whatever the radius is, so the radius is never part of it.  When
    the store answers the query with rows, [runCandidateQuery] returns one
    candidate for each row, in the same order; a row whose distance converts
    to a finite number (of at most [2^53] in magnitude, as every distance in
    metres is) gives the floor of that number, printed as an integer and
    followed by " Meters"; a row without distance gives none. *)
Theorem geo_filter_and_distance (input : Input.t) (plan : Plan.t) :
  buildSearchPlan StringToNumber ObjectToNumber DateParse input = Ok plan ->
  let q := buildCandidateSql plan in
  let metres := double (num_mul (Plan.radius plan) (of_Z 1000)) in
  (exists g, Plan.geo plan = Some g)
  /\ (exists (k : nat) (r v : Q),
         (1 <= k)%nat
         /\ includes (text q)
              ("WHERE " +:+
               match getCapacityColumn plan with
               | Some c => "p." +:+ c +:+ " >= $1 AND "
               | None => ""
               end +:+
               "ST_DWithin(p." +:+ getGeoColumn plan +:+ "::geography, params.p, $" +:+
               show_nat k +:+ ")" +:+ LF +:+ "ORDER BY p.id") = true
         /\ values q !! (k - 1)%nat = Some (VNum metres)
         /\ Plan.radius plan = Fin r
         /\ metres = Fin v
         /\ (1000 <= v <= 500000)%Q
         /\ (Qabs (v - r * 1000) <= 2 ^ (-35))%Q
         /\ (forall z : Z, (r * 1000 == inject_Z z)%Q -> metres = of_Z z))
  /\ includes (text q)
       (", ST_Distance(p." +:+ getGeoColumn plan +:+
        "::geography, params.p) AS distance_meters" +:+ LF +:+
        "FROM properties p" +:+ LF +:+ ", params" +:+ LF +:+ "WHERE ") = true
  /\ (forall r : number, text (buildCandidateSql (Plan.with_radius plan r)) = text q)
  /\ (forall rows : list CandidateRow,
         query (text q) (values q) = Ok rows ->
         exists cs : list CandidateProperty,
           runCandidateQuery StringToNumber ObjectToNumber query
                             FractionToString ObjectToString plan = Ok cs
           /\ length cs = length rows
           /\ forall (i : nat) (row : CandidateRow),
                rows !! i = Some row ->
                exists c : CandidateProperty,
                  cs !! i = Some c
                  /\ (forall d : Q,
                         not_nullish (row_distance_meters row) = true ->
                         Number StringToNumber ObjectToNumber (row_distance_meters row)
                         = Fin d ->
                         Z.abs (Qfloor d) <= 2 ^ 53 ->
                         distance_meters c = Some (show_Z (Qfloor d) +:+ " Meters"))
                  /\ (not_nullish (row_distance_meters row) = false ->
                      distance_meters c = None)).
Proof.
  intros Hb. cbv zeta.
  destruct (buildSearchPlan_Ok _ _ _ input plan Hb)
    as (tin & tout & g & _ & _ & _ & _ & Hgeo & _).
  destruct (built_radius_range _ _ _ input plan Hb) as (r & Hrad & Hrange).
  destruct (geo_clause plan g Hgeo) as (k & Hk & Hwithin & Hval & Hdist).
  destruct (radius_in_metres r Hrange) as (v & Hv & Hvrange & Herr & Hint).
  split; [eauto |].
  split.
  { exists k, r, v.
    split; [exact Hk |]. split; [exact Hwithin |]. split; [exact Hval |].
    split; [exact Hrad |]. rewrite Hrad.
    split; [exact Hv |]. split; [exact Hvrange |]. split; [exact Herr |].
    intros z Hz. rewrite Hv, (Hint z Hz). reflexivity. }
  split; [exact Hdist |].
  split; [intros r'; apply with_radius_text |].
  intros rows Hrows. unfold runCandidateQuery. rewrite Hrows. cbn [mbind result_bind].
  eexists. split; [reflexivity |]. split; [apply length_map |].
  intros i row Hrow. eexists. split.
  { rewrite list_lookup_fmap, Hrow. reflexivity. }
  split.
  - intros d Hnn Hnum Hd. unfold mapRowToCandidate. cbn [distance_meters].
    rewrite Hnn, Hnum, NumberToString_floor by exact Hd. reflexivity.
  - intros Hnull. unfold mapRowToCandidate. cbn [distance_meters].
    rewrite Hnull. reflexivity.
Qed.

End Distance.

(** The test script's request with a radius of 16.1 km (the double
    2265873562520781 / 2^47), bound as 16100.000000000002 m (the double
    8851068603596801 / 2^39), and a store that answers with rows at
    1234.55 m. *)
Lemma geo_filter_and_distance_witness :
  let input :=
    with_filters sample_input
      (Some {[ "radiusKm" := VNum (Fin (2265873562520781 # 140737488355328)) ]}) in
  exists plan,
    sample_build input = Ok plan
    /\ values (buildCandidateSql plan) !! 2%nat
       = Some (VNum (Fin (8851068603596801 # 549755813888)))
    /\ exists cs,
         runCandidateQuery no_number no_number sample_query (fun _ => "") (fun _ => "") plan
         = Ok cs
         /\ length cs = 2%nat
         /\ exists c, cs !! 1%nat = Some c /\ distance_meters c = Some "1234 Meters".
Proof.
  cbv zeta. eexists. split; [vm_compute; reflexivity |].
  match goal with
  | |- values (buildCandidateSql ?p) !! _ = _ /\ _ =>
      pose proof (geo_filter_and_distance no_number no_number iso_date_parse sample_query
                    (fun _ => "") (fun _ => "")
                    (with_filters sample_input
                       (Some {[ "radiusKm" :=
                                  VNum (Fin (2265873562520781 # 140737488355328)) ]}))
                    p eq_refl) as (_ & _ & _ & _ & Hrows)
  end.
  split; [vm_compute; reflexivity |].
  destruct (Hrows [sample_row; sample_row] eq_refl) as (cs & Hq & Hlen & Hcs).
  exists cs. split; [exact Hq |]. split; [exact Hlen |].
  destruct (Hcs 1%nat sample_row eq_refl) as (c & Hc & Hd & _).
  exists c. split; [exact Hc |].
  exact (Hd (24691 # 20)%Q eq_refl eq_refl ltac:(vm_compute; discriminate)).
Defined.

(** ** The pipeline as shipped *)

Lemma Array_slice_nil {A : Type} (a b : number) : Array_slice (@nil A) a b = [].
Proof. unfold Array_slice. rewrite drop_nil. apply take_nil. Qed.

Lemma pagination_nil (plan : Plan.t) (s : Z) :
  Plan.pageSize plan = of_Z s -> 1 <= s ->
  pagination plan [] =
  {| Result.properties := [];
     Result.pagination :=
       {| Result.page := Plan.page plan;
          Result.pageSize := Plan.pageSize plan;
          Result.total := of_Z 0;
          Result.totalPages := of_Z 1 |} |}.
Proof.
  intros Hs Hpos. unfold pagination. rewrite Array_slice_nil. f_equal. f_equal.
  rewrite Hs. cbn [length Z.of_nat]. rewrite num_div_of_Z by lia.
  cbn [Math_ceil]. rewrite Qceiling_div by lia. rewrite Math_max_of_Z.
  f_equal.
Qed.

Section Shipped.

Variable StringToNumber : string -> number.
Variable ObjectToNumber : loc -> number.
Variable DateParse : string -> option Z.
Variable query : string -> list jsval -> result Failure (list CandidateRow).
Variable FractionToString : Q -> string.
Variable ObjectToString : loc -> string.

(** C10.  With the stages as shipped, whatever rows the store returns for
    the candidate query of an accepted input, all six stages run and the
    result has no properties, total 0 and one page, with the plan's page and
    page size: the availability stage and the pricing stage return the empty
    list whatever they are given. *)
Theorem shipped_search_is_empty (input : Input.t) (plan : Plan.t) :
  buildSearchPlan StringToNumber ObjectToNumber DateParse input = Ok plan ->
  (forall rows : list CandidateRow,
      query (text (buildCandidateSql plan)) (values (buildCandidateSql plan)) = Ok rows ->
      search StringToNumber ObjectToNumber DateParse
             (shipped StringToNumber ObjectToNumber query FractionToString ObjectToString)
             input
      = (pipeline,
         Ok {| Result.properties := [];
               Result.pagination :=
                 {| Result.page := Plan.page plan;
                    Result.pageSize := Plan.pageSize plan;
                    Result.total := of_Z 0;
                    Result.totalPages := of_Z 1 |} |}))
  /\ (forall (p : Plan.t) (candidates : list CandidateProperty),
         availability p candidates = Ok [])
  /\ (forall (p : Plan.t) (properties : list AvailableProperty),
         pricing p properties = Ok []).
Proof.
  intros Hb. split; [| split; reflexivity].
  intros rows Hq.
  destruct (built_paging_range _ _ _ input plan Hb) as (_ & (s & Hs & Hrange)).
  unfold search. rewrite Hb. cbn.
  unfold candidate, runCandidateQuery. rewrite Hq. cbn.
  rewrite (pagination_nil plan s Hs) by lia. reflexivity.
Qed.

(** When the store fails, the candidate stage fails with it and that is the
    outcome of the search. *)
Lemma shipped_search_store_failure (input : Input.t) (plan : Plan.t) (e : Failure) :
  buildSearchPlan StringToNumber ObjectToNumber DateParse input = Ok plan ->
  query (text (buildCandidateSql plan)) (values (buildCandidateSql plan)) = Err e ->
  search StringToNumber ObjectToNumber DateParse
         (shipped StringToNumber ObjectToNumber query FractionToString ObjectToString)
         input
  = ([SCandidate], Err e).
Proof.
  intros Hb Hq. unfold search. rewrite Hb. cbn.
  unfold candidate, runCandidateQuery. rewrite Hq. reflexivity.
Qed.

End Shipped.

(** The sample request against a store that returns two rows. *)
Lemma shipped_search_is_empty_witness :
  search no_number no_number iso_date_parse
         (shipped no_number no_number sample_query (fun _ => "") (fun _ => ""))
         sample_input
  = (pipeline,
     Ok {| Result.properties := [];
           Result.pagination :=
             {| Result.page := of_Z 1;
                Result.pageSize := of_Z 20;
                Result.total := of_Z 0;
                Result.totalPages := of_Z 1 |} |}).
Proof.
  exact (proj1 (shipped_search_is_empty no_number no_number iso_date_parse sample_query
                  (fun _ => "") (fun _ => "") sample_input (sample_plan None) eq_refl)
               [sample_row; sample_row] eq_refl).
Defined.

(** ** The plan and the caller's objects *)

Lemma mutate_lookup_ne (h : gmap loc object) (m : mutation) (l : loc) :
  l <> target m -> mutate h m !! l = h !! l.
Proof.
  intros Hne. unfold mutate.
  destruct (h !! target m) as [o |]; [| reflexivity].
  destruct (frozen o); [reflexivity |].
  apply lookup_insert_ne. congruence.
Qed.

Lemma mutate_all_lookup (h : gmap loc object) (ms : list mutation) (l : loc) :
  Forall (fun m => target m <> l) ms -> mutate_all h ms !! l = h !! l.
Proof.
  revert h. induction ms as [| m ms IH]; intros h Hall; [reflexivity |].
  inversion Hall as [| ? ? Hm Hms]; subst. cbn [mutate_all foldl].
  fold (mutate_all (mutate h m) ms). rewrite IH by exact Hms.
  apply mutate_lookup_ne. congruence.
Qed.

Lemma mutate_frozen (h : gmap loc object) (m : mutation) (o : object) :
  h !! target m = Some o -> frozen o = true -> mutate h m = h.
Proof.
  intros Ho Hf. unfold mutate. rewrite Ho, Hf. reflexivity.
Qed.

Lemma targets_miss (h : gmap loc object) (ms : list mutation) (l : loc) :
  l ∉ dom h ->
  Forall (fun m => target m ∈ dom h) ms ->
  Forall (fun m => target m <> l) ms.
Proof.
  intros Hl Hall. induction Hall as [| m ms Hm _ IH]; constructor; [| exact IH].
  intros Heq. rewrite Heq in Hm. contradiction.
Qed.

Lemma get_unchanged (h h' : gmap loc object) (l : loc) (k : string) :
  h' !! l = h !! l -> get h' l k = get h l k.
Proof. intros H. unfold get. rewrite H. reflexivity. Qed.

Section HeapFacts.

Variable StringToNumber : string -> number.
Variable ObjectToNumber : loc -> number.
Variable DateParse : string -> option Z.

(** The heap after a successful call: five new objects (four when there are
    no filters), the geo and plan objects frozen, the old objects as they
    were. *)
Lemma buildSearchPlan_heap_shape (h : gmap loc object) (l_in lp : loc) (h1 : gmap loc object) :
  buildSearchPlan_heap StringToNumber ObjectToNumber DateParse h l_in = (Ok lp, h1) ->
  exists (plan : Plan.t) (l_ci l_co l_geo : loc) (opts : jsval),
    buildSearchPlan StringToNumber ObjectToNumber DateParse (read_input h l_in) = Ok plan
    /\ (l_ci ∉ dom h) /\ (l_co ∉ dom h) /\ (l_geo ∉ dom h) /\ (lp ∉ dom h)
    /\ h1 !! l_geo = Some (mkObj (props (geo_object (Plan.geo plan))) true)
    /\ h1 !! lp = Some (mkObj (props (plan_object plan l_in l_ci l_co l_geo opts)) true)
    /\ match Plan.options plan with
       | Some o => exists lo, opts = VRef lo /\ (lo ∉ dom h) /\ h1 !! lo = Some (mkObj o false)
       | None => opts = VUndefined
       end
    /\ (forall l, l ∈ dom h -> h1 !! l = h !! l).
Proof.
  unfold buildSearchPlan_heap.
  destruct (buildSearchPlan StringToNumber ObjectToNumber DateParse (read_input h l_in))
    as [plan | c] eqn:Hb; [| discriminate].
  unfold alloc.
  set (l_ci := fresh (dom h)).
  pose proof (is_fresh (dom h)) as Hci. fold l_ci in Hci.
  set (l_co := fresh (dom (<[l_ci := date_object (Plan.checkInDate plan)]> h))).
  pose proof (is_fresh (dom (<[l_ci := date_object (Plan.checkInDate plan)]> h))) as Hco.
  fold l_co in Hco. rewrite dom_insert_L in Hco.
  set (hb := <[l_co := date_object (Plan.checkOutDate plan)]>
               (<[l_ci := date_object (Plan.checkInDate plan)]> h)).
  set (l_geo := fresh (dom hb)).
  pose proof (is_fresh (dom hb)) as Hgeo. fold l_geo in Hgeo.
  unfold hb in Hgeo. rewrite !dom_insert_L in Hgeo.
  destruct (Plan.options plan) as [o |] eqn:Ho.
  - set (hc := <[l_geo := geo_object (Plan.geo plan)]> hb).
    set (l_o := fresh (dom hc)).
    pose proof (is_fresh (dom hc)) as Hlo. fold l_o in Hlo.
    unfold hc, hb in Hlo. rewrite !dom_insert_L in Hlo.
    set (hd := <[l_o := mkObj o false]> hc).
    set (l_plan := fresh (dom hd)).
    pose proof (is_fresh (dom hd)) as Hlp. fold l_plan in Hlp.
    unfold hd, hc, hb in Hlp. rewrite !dom_insert_L in Hlp.
    intros [= <- <-].
    assert (l_co <> l_ci /\ l_geo <> l_ci /\ l_geo <> l_co /\ l_o <> l_ci /\ l_o <> l_co
            /\ l_o <> l_geo /\ l_plan <> l_ci /\ l_plan <> l_co /\ l_plan <> l_geo
            /\ l_plan <> l_o) as (? & ? & ? & ? & ? & ? & ? & ? & ? & ?)
      by (repeat split; set_solver).
    exists plan, l_ci, l_co, l_geo, (VRef l_o). rewrite Ho.
    unfold freeze, hd, hc, hb.
    repeat (rewrite lookup_insert_eq || rewrite lookup_insert_ne by congruence).
    split; [reflexivity |].
    split; [set_solver |]. split; [set_solver |]. split; [set_solver |].
    split; [set_solver |].
    split; [reflexivity |]. split; [reflexivity |].
    split.
    + exists l_o. split; [reflexivity |]. split; [set_solver |].
      repeat (rewrite lookup_insert_eq || rewrite lookup_insert_ne by congruence).
      reflexivity.
    + intros l Hl.
      repeat (rewrite lookup_insert_ne by set_solver). reflexivity.
  - set (hc := <[l_geo := geo_object (Plan.geo plan)]> hb).
    set (l_plan := fresh (dom hc)).
    pose proof (is_fresh (dom hc)) as Hlp. fold l_plan in Hlp.
    unfold hc, hb in Hlp. rewrite !dom_insert_L in Hlp.
    intros [= <- <-].
    assert (l_co <> l_ci /\ l_geo <> l_ci /\ l_geo <> l_co
            /\ l_plan <> l_ci /\ l_plan <> l_co /\ l_plan <> l_geo)
      as (? & ? & ? & ? & ? & ?)
      by (repeat split; set_solver).
    exists plan, l_ci, l_co, l_geo, VUndefined. rewrite Ho.
    unfold freeze, hc, hb.
    repeat (rewrite lookup_insert_eq || rewrite lookup_insert_ne by congruence).
    split; [reflexivity |].
    split; [set_solver |]. split; [set_solver |]. split; [set_solver |].
    split; [set_solver |].
    split; [reflexivity |]. split; [reflexivity |].
    split; [reflexivity |].
    intros l Hl.
    repeat (rewrite lookup_insert_ne by set_solver). reflexivity.
Qed.

Lemma plan_object_refs (plan : Plan.t) (l_in l_ci l_co l_geo l' : loc) (opts : jsval) (k : string) :
  k <> "input" ->
  prop (props (plan_object plan l_in l_ci l_co l_geo opts)) k = VRef l' ->
  l' = l_ci \/ l' = l_co \/ l' = l_geo \/ opts = VRef l'.
Proof.
  intros Hk. unfold plan_object, prop. cbn [props].
  rewrite lookup_insert_ne by congruence.
  repeat (rewrite lookup_insert; case_decide;
          [cbn [default]; intros [= <-]; auto |]);
    try (cbn [default]; discriminate).
Qed.

Lemma read_path_frame (h1 h2 : gmap loc object) (lp : loc) (path : list string) :
  h2 !! lp = h1 !! lp ->
  (forall k l', hd_error path = Some k -> get h1 lp k = VRef l' -> h2 !! l' = h1 !! l') ->
  (length path <= 2)%nat ->
  read_path h2 lp path = read_path h1 lp path.
Proof.
  intros Hlp Hparts Hlen.
  destruct path as [| k [| k' [| k'' rest]]]; cbn [read_path].
  - reflexivity.
  - apply get_unchanged. exact Hlp.
  - rewrite (get_unchanged h1 h2 lp k Hlp).
    destruct (get h1 lp k) eqn:E; try reflexivity.
    apply get_unchanged. apply (Hparts k); [reflexivity | exact E].
  - cbn [length] in Hlen. lia.
Qed.

(** C9, amended.  After a successful call the plan object and its geo object
    are frozen: no assignment or deletion changes them.  When the input has
    a filter map, [plan.options] is a new object, different from the
    caller's map, with the same keys and values.  The call changes none of
    the caller's objects.  Whatever assignments and deletions the caller
    then performs on objects it had before the call (the input object, its
    filter map, any other), every field of the plan other than [input], and
    every field of the plan's dates, geo and options objects, reads as
    before. *)
Theorem plan_frame (h : gmap loc object) (l_in lp : loc) (h1 : gmap loc object) :
  buildSearchPlan_heap StringToNumber ObjectToNumber DateParse h l_in = (Ok lp, h1) ->
  (exists o, h1 !! lp = Some o /\ frozen o = true)
  /\ (exists lg og, get h1 lp "geo" = VRef lg /\ h1 !! lg = Some og /\ frozen og = true)
  /\ (forall lf f,
        get h l_in "filters" = VRef lf -> h !! lf = Some f ->
        exists lo o,
          get h1 lp "options" = VRef lo /\ lo <> lf
          /\ h1 !! lo = Some o /\ props o = props f)
  /\ (forall l, l ∈ dom h -> h1 !! l = h !! l)
  /\ (forall (ms : list mutation) (path : list string),
        Forall (fun m => target m ∈ dom h) ms ->
        (length path <= 2)%nat ->
        hd_error path <> Some "input" ->
        read_path (mutate_all h1 ms) lp path = read_path h1 lp path)
  /\ (forall m : mutation,
        target m = lp \/ get h1 lp "geo" = VRef (target m) ->
        mutate h1 m = h1).
Proof.
  intros Hrun.
  destruct (buildSearchPlan_heap_shape h l_in lp h1 Hrun)
    as (plan & l_ci & l_co & l_geo & opts & Hb & Hci & Hco & Hgeo & Hlp & Hg & Hp & Hopts
        & Hold).
  assert (Hgetgeo : get h1 lp "geo" = VRef l_geo).
  { unfold get. rewrite Hp. reflexivity. }
  split; [eauto |].
  split; [exists l_geo; eexists; split; [exact Hgetgeo | split; [exact Hg | reflexivity]] |].
  split; [| split; [exact Hold | split]].
  - intros lf f Hf Hlf.
    destruct (buildSearchPlan_Ok _ _ _ _ plan Hb) as (_ & _ & _ & _ & _ & _ & _ & _ & _ & _ & _ & Ho).
    unfold read_input in Ho. cbn [Input.filters] in Ho. rewrite Hf, Hlf in Ho.
    cbn in Ho. rewrite Ho in Hopts. destruct Hopts as (lo & -> & Hfresh & Hlo).
    exists lo. eexists. split; [unfold get; rewrite Hp; reflexivity |].
    split; [| split; [exact Hlo | reflexivity]].
    intros ->. apply Hfresh. apply elem_of_dom. eauto.
  - intros ms path Hms Hlen Hhd. apply read_path_frame; [| | exact Hlen].
    + apply mutate_all_lookup. apply (targets_miss h); assumption.
    + intros k l' Hk Hget. apply mutate_all_lookup. apply (targets_miss h); [| assumption].
      unfold get in Hget. rewrite Hp in Hget. cbn [props] in Hget.
      apply plan_object_refs in Hget; [| intros ->; apply Hhd; exact Hk].
      destruct Hget as [-> | [-> | [-> | ->]]]; try assumption.
      destruct (Plan.options plan); [| discriminate].
      destruct Hopts as (lo & [= <-] & Hfresh & _). exact Hfresh.
  - intros m [Hm | Hm].
    + apply (mutate_frozen h1 m _ ltac:(rewrite Hm; exact Hp)). reflexivity.
    + rewrite Hgetgeo in Hm. injection Hm as Hm.
      apply (mutate_frozen h1 m _ ltac:(rewrite <- Hm; exact Hg)). reflexivity.
Qed.

End HeapFacts.

(** C9, in the words of the claim, does not hold: [plan.input] is the
    caller's object itself, and freezing the plan does not freeze it.  After
    the call the caller sets [adults] to 9 on its input object; read through
    the plan, the field was 2 and is now 9, while [plan.guests] stays 2. *)
Lemma input_mutation_is_observable :
  let h1 := snd sample_built in
  let h2 := mutate h1 (Assign 1%positive "adults" (VNum (of_Z 9))) in
  sample_built = (Ok 7%positive, h1)
  /\ read_path h1 7%positive ["input"; "adults"] = VNum (of_Z 2)
  /\ read_path h2 7%positive ["input"; "adults"] = VNum (of_Z 9)
  /\ read_path h2 7%positive ["guests"] = VNum (of_Z 2).
Proof. cbv zeta. repeat split; vm_compute; reflexivity. Qed.

(** The caller rewrites its filter map and its input object after the call;
    the plan's radius and the plan's copy of the filters read as before. *)
Lemma plan_frame_witness :
  let h1 := snd sample_built in
  let h2 := mutate_all h1 sample_mutations in
  read_path h2 7%positive ["radius"] = read_path h1 7%positive ["radius"]
  /\ read_path h2 7%positive ["options"; "radiusKm"]
     = read_path h1 7%positive ["options"; "radiusKm"].
Proof.
  cbv zeta.
  assert (Hrun : buildSearchPlan_heap no_number no_number iso_date_parse sample_heap 1%positive
                 = (Ok 7%positive, snd sample_built))
    by (vm_compute; reflexivity).
  assert (Hms : Forall (fun m => target m ∈ dom sample_heap) sample_mutations).
  { unfold sample_mutations, sample_heap.
    repeat constructor; cbn [target]; rewrite !dom_insert_L; set_solver. }
  pose proof (plan_frame no_number no_number iso_date_parse sample_heap 1%positive
                7%positive (snd sample_built) Hrun) as (_ & _ & _ & _ & Hframe & _).
  split; apply Hframe; try exact Hms; cbn; try lia; discriminate.
Defined.

(** ** Pagination of a built plan *)

(** X19. The plan of any accepted input has an integral page and page size
    of at least 1, so its pagination needs no side condition: the metadata
    and the page are as the specification says. *)
Corollary pagination_of_built_plan
    (StringToNumber : string -> number) (ObjectToNumber : loc -> number)
    (DateParse : string -> option Z)
    (input : Input.t) (plan : Plan.t) (properties : list PricedProperty) :
  buildSearchPlan StringToNumber ObjectToNumber DateParse input = Ok plan ->
  exists p ps : Z,
    1 <= p /\ 1 <= ps <= 100
    /\ Plan.page plan = of_Z p /\ Plan.pageSize plan = of_Z ps
    /\ Result.pagination (pagination plan properties) =
       {| Result.page := of_Z p;
          Result.pageSize := of_Z ps;
          Result.total := of_Z (Z.of_nat (length properties));
          Result.totalPages :=
            of_Z (Z.max 1 (Qceiling (inject_Z (Z.of_nat (length properties)) / inject_Z ps))) |}
    /\ (forall i : nat,
          Result.properties (pagination plan properties) !! i =
          if decide (Z.of_nat i < ps)
          then properties !! (Z.to_nat ((p - 1) * ps) + i)%nat
          else None).
Proof.
  intros Hb.
  destruct (built_paging_range _ _ _ input plan Hb)
    as ((p & Hp & Hprange) & (ps & Hps & Hpsrange)).
  exists p, ps.
  split; [lia |]. split; [lia |]. split; [exact Hp |]. split; [exact Hps |].
  split.
  - apply pagination_meta; [assumption | assumption | lia].
  - intros i. apply pagination_lookup; [assumption | assumption | lia | lia].
Qed.

Lemma pagination_of_built_plan_witness :
  Result.total (Result.pagination (pagination (sample_plan None) (sample_ranked 45)))
  = of_Z 45.
Proof.
  destruct (pagination_of_built_plan no_number no_number iso_date_parse
              sample_input (sample_plan None) (sample_ranked 45) eq_refl)
    as (p & ps & _ & _ & _ & _ & Hmeta & _).
  rewrite Hmeta. reflexivity.
Defined.

(** ** The plan builder: what it accepts and what it returns *)

Lemma Qfloor_unique (v : Q) (k : Z) :
  (inject_Z k <= v)%Q -> (v < inject_Z (k + 1))%Q -> Qfloor v = k.
Proof.
  intros Hlo Hhi.
  assert (k <= Qfloor v).
  { rewrite <- (Qfloor_Z k). apply Qfloor_resp_le. exact Hlo. }
  assert (Qfloor v < k + 1).
  { rewrite Zlt_Qlt. eapply Qle_lt_trans; [apply Qfloor_le | exact Hhi]. }
  lia.
Qed.

(** Below [2^53] milliseconds the nights computed with rounding are the whole
    days: the difference is exact, and the quotient is too far from the next
    whole number to be rounded up to it. *)
Lemma nights_rounded (tin tout : Z) :
  0 < tout - tin < 2 ^ 53 ->
  Math_floor (double (num_div (double (num_sub (of_Z tout) (of_Z tin))) (of_Z MS_PER_DAY)))
  = of_Z ((tout - tin) `div` MS_PER_DAY).
Proof.
  intros Hd. set (d := tout - tin) in *.
  assert (Hsub : double (num_sub (of_Z tout) (of_Z tin)) = of_Z d).
  { cbn [num_sub num_neg num_add of_Z double]. apply round64_integer; [| exact Hd].
    unfold d. rewrite <- inject_Z_opp, <- inject_Z_plus. reflexivity. }
  rewrite Hsub. rewrite num_div_of_Z by (unfold MS_PER_DAY; lia).
  cbn [double].
  assert (Hms : 0 < MS_PER_DAY) by (unfold MS_PER_DAY; lia).
  set (k := d `div` MS_PER_DAY).
  pose proof (Z.div_mod d MS_PER_DAY ltac:(lia)) as Hdm.
  pose proof (Z.mod_pos_bound d MS_PER_DAY Hms) as Hmod. fold k in Hdm.
  set (x := (inject_Z d / inject_Z MS_PER_DAY)%Q).
  assert (HmsQ : (0 < inject_Z MS_PER_DAY)%Q) by (rewrite <- (Zlt_Qlt 0); exact Hms).
  assert (Hxk : (inject_Z k <= x)%Q).
  { unfold x. apply Qle_shift_div_l; [exact HmsQ |].
    rewrite <- inject_Z_mult, <- Zle_Qle. lia. }
  assert (Hxk1 : (x <= inject_Z (k + 1) - 1 / inject_Z MS_PER_DAY)%Q).
  { unfold x. apply Qle_shift_div_r; [exact HmsQ |].
    assert (Heq : ((inject_Z (k + 1) - 1 / inject_Z MS_PER_DAY) * inject_Z MS_PER_DAY
                   == inject_Z ((k + 1) * MS_PER_DAY - 1))%Q).
    { change ((k + 1) * MS_PER_DAY - 1) with ((k + 1) * MS_PER_DAY + -1).
      rewrite (inject_Z_plus ((k + 1) * MS_PER_DAY) (-1)), inject_Z_mult.
      change (inject_Z (-1)) with (- (1))%Q. field. lra. }
    rewrite Heq, <- Zle_Qle. lia. }
  assert (Hpos : (0 < x)%Q).
  { unfold x. apply Qlt_shift_div_l; [exact HmsQ |]. rewrite Qmult_0_l.
    rewrite <- (Zlt_Qlt 0). lia. }
  assert (Hlt : (x < 2 ^ 27)%Q).
  { unfold x. apply Qlt_shift_div_r; [exact HmsQ |].
    change (2 ^ 27)%Q with (inject_Z (2 ^ 27)). rewrite <- inject_Z_mult, <- Zlt_Qlt.
    unfold MS_PER_DAY. lia. }
  destruct (round64_spec x 27 Hpos Hlt ltac:(lia)) as (v & -> & _ & Herr & Hgrid).
  cbn [Math_floor]. unfold of_Z. do 2 f_equal.
  apply Qfloor_unique.
  - apply (proj1 (Hgrid ltac:(lia) k)). exact Hxk.
  - apply Qabs_Qle_condition in Herr. destruct Herr as [_ Herr].
    assert (Hgap : (2 ^ (27 - 54) < 1 / inject_Z MS_PER_DAY)%Q).
    { unfold MS_PER_DAY. vm_compute. reflexivity. }
    lra.
Qed.

(** A sum that is a whole number below [2^53] is not rounded. *)
Lemma sum_rounded (a c : Q) (k : Z) :
  (a + c == inject_Z k)%Q -> 0 < k < 2 ^ 53 ->
  double (num_add (Fin a) (Fin c)) = of_Z k.
Proof. intros Hk Hr. cbn [num_add double]. apply round64_integer; assumption. Qed.

Section PlanValidation.
Variable StringToNumber : string -> number.
Variable ObjectToNumber : loc -> number.
Variable DateParse : string -> option Z.

Lemma nights_value (tin tout : Z) :
  Math_floor (num_div (num_sub (of_Z tout) (of_Z tin)) (of_Z MS_PER_DAY))
  = of_Z ((tout - tin) `div` MS_PER_DAY).
Proof.
  unfold num_sub, num_neg, num_add, of_Z.
  unfold num_div. rewrite (Qeq_bool_inject_0 MS_PER_DAY) by (unfold MS_PER_DAY; lia).
  cbn [Math_floor]. unfold of_Z. f_equal. f_equal.
  rewrite Zdiv_Qdiv. apply Qfloor_comp.
  unfold Z.sub. rewrite inject_Z_plus, inject_Z_opp. reflexivity.
Qed.

Lemma parseDate_Err (v : jsval) (f : DateField) (c : SearchPlanErrorCode) :
  parseDate DateParse v f = Err c ->
  c = date_error f /\ forall g t, parseDate DateParse v g <> Ok t.
Proof.
  unfold parseDate. destruct v; try (intros [= <-]; split; [reflexivity | discriminate]).
  destruct (String.eqb (trim s) "");
    [intros [= <-]; split; [reflexivity | discriminate] |].
  destruct (DateParse (trim s)); [discriminate |].
  intros [= <-]; split; [reflexivity | discriminate].
Qed.

Lemma guest_counts_check (x y : number) :
  (negb (Number_isFinite x) || num_lt x (of_Z 0)
   || negb (Number_isFinite y) || num_lt y (of_Z 0))%bool = false
  <-> exists a c, x = Fin a /\ y = Fin c /\ (0 <= a)%Q /\ (0 <= c)%Q.
Proof.
  split.
  - destruct x as [| | |a]; try discriminate.
    destruct y as [| | |c]; cbn [Number_isFinite negb orb];
      try (rewrite ?orb_true_r; discriminate).
    unfold num_lt, of_Z. rewrite orb_false_r. rewrite orb_false_iff.
    rewrite !Qlt_bool_false. intros [Ha Hc]. exists a, c. auto.
  - intros (a & c & -> & -> & Ha & Hc). cbn [Number_isFinite negb orb].
    unfold num_lt, of_Z. rewrite orb_false_r. rewrite orb_false_iff.
    rewrite !Qlt_bool_false. auto.
Qed.

Lemma parseGeo_outcome (input : Input.t) :
  match parseGeo StringToNumber ObjectToNumber input with
  | Ok g =>
      in_range StringToNumber ObjectToNumber (-90) 90 (Input.latitude input)
      /\ in_range StringToNumber ObjectToNumber (-180) 180 (Input.longitude input)
      /\ g = {| lat := Number StringToNumber ObjectToNumber (Input.latitude input);
                lon := Number StringToNumber ObjectToNumber (Input.longitude input) |}
  | Err INVALID_LATITUDE =>
      ~ in_range StringToNumber ObjectToNumber (-90) 90 (Input.latitude input)
  | Err INVALID_LONGITUDE =>
      in_range StringToNumber ObjectToNumber (-90) 90 (Input.latitude input)
      /\ ~ in_range StringToNumber ObjectToNumber (-180) 180 (Input.longitude input)
  | Err _ => False
  end.
Proof.
  unfold parseGeo, in_range.
  destruct (Number StringToNumber ObjectToNumber (Input.latitude input)) as [| | |la];
    cbn [Number_isFinite negb]; try (intros (q & [=] & _)).
  unfold num_gt, num_lt, LAT_MIN, LAT_MAX, of_Z.
  destruct (Qlt_bool la (inject_Z (-90))) eqn:H1; cbn [orb].
  { apply Qlt_bool_true in H1. intros (q & [= <-] & Hlo & _). lra. }
  destruct (Qlt_bool (inject_Z 90) la) eqn:H2.
  { apply Qlt_bool_true in H2. intros (q & [= <-] & _ & Hhi). lra. }
  apply Qlt_bool_false in H1, H2.
  assert (Hlat : exists q, Fin la = Fin q /\ (inject_Z (-90) <= q)%Q /\ (q <= inject_Z 90)%Q)
    by (exists la; auto).
  destruct (Number StringToNumber ObjectToNumber (Input.longitude input)) as [| | |lo];
    cbn [Number_isFinite negb]; try (split; [exact Hlat | intros (q & [=] & _)]).
  unfold LON_MIN, LON_MAX, of_Z.
  destruct (Qlt_bool lo (inject_Z (-180))) eqn:H3; cbn [orb].
  { apply Qlt_bool_true in H3. split; [exact Hlat |]. intros (q & [= <-] & Hlo & _). lra. }
  destruct (Qlt_bool (inject_Z 180) lo) eqn:H4.
  { apply Qlt_bool_true in H4. split; [exact Hlat |]. intros (q & [= <-] & _ & Hhi). lra. }
  apply Qlt_bool_false in H3, H4.
  split; [exact Hlat |]. split; [exists lo; auto | reflexivity].
Qed.


(** The builder as a decision list: which check fails first, and the plan
    when none does. *)
Lemma validation_outcome (input : Input.t) :
  match buildSearchPlan StringToNumber ObjectToNumber DateParse input with
  | Ok plan =>
      exists tin tout a c g,
        parseDate DateParse (Input.checkIn input) FcheckIn = Ok tin
        /\ parseDate DateParse (Input.checkOut input) FcheckOut = Ok tout
        /\ tin + MS_PER_DAY <= tout
        /\ counts_ok StringToNumber ObjectToNumber input a c
        /\ (0 < a + c)%Q
        /\ parseGeo StringToNumber ObjectToNumber input = Ok g
        /\ Plan.checkInDate plan = tin
        /\ Plan.checkOutDate plan = tout
        /\ Plan.nights plan = of_Z ((tout - tin) `div` MS_PER_DAY)
        /\ Plan.guests plan = Fin (a + c)
        /\ Plan.hasChildren plan = Qlt_bool 0 c
        /\ Plan.geo plan = Some g
        /\ Plan.input plan = input
  | Err INVALID_CHECK_IN =>
      forall t, parseDate DateParse (Input.checkIn input) FcheckIn <> Ok t
  | Err INVALID_CHECK_OUT =>
      (exists t, parseDate DateParse (Input.checkIn input) FcheckIn = Ok t)
      /\ forall t, parseDate DateParse (Input.checkOut input) FcheckOut <> Ok t
  | Err ARRIVAL_AFTER_DEPARTURE =>
      exists tin tout,
        parseDate DateParse (Input.checkIn input) FcheckIn = Ok tin
        /\ parseDate DateParse (Input.checkOut input) FcheckOut = Ok tout
        /\ tout <= tin
  | Err STAY_TOO_SHORT =>
      exists tin tout,
        parseDate DateParse (Input.checkIn input) FcheckIn = Ok tin
        /\ parseDate DateParse (Input.checkOut input) FcheckOut = Ok tout
        /\ tin < tout < tin + MS_PER_DAY
  | Err INVALID_GUEST_COUNTS =>
      stay_ok DateParse input
      /\ forall a c, ~ counts_ok StringToNumber ObjectToNumber input a c
  | Err NO_GUESTS =>
      stay_ok DateParse input
      /\ exists a c, counts_ok StringToNumber ObjectToNumber input a c /\ (a + c == 0)%Q
  | Err INVALID_LATITUDE =>
      stay_ok DateParse input
      /\ guests_ok StringToNumber ObjectToNumber input
      /\ ~ in_range StringToNumber ObjectToNumber (-90) 90 (Input.latitude input)
  | Err INVALID_LONGITUDE =>
      stay_ok DateParse input
      /\ guests_ok StringToNumber ObjectToNumber input
      /\ in_range StringToNumber ObjectToNumber (-90) 90 (Input.latitude input)
      /\ ~ in_range StringToNumber ObjectToNumber (-180) 180 (Input.longitude input)
  end.
Proof.
  unfold buildSearchPlan.
  destruct (parseDate DateParse (Input.checkIn input) FcheckIn) as [tin | e] eqn:Hin.
  2:{ destruct (parseDate_Err _ _ _ Hin) as [-> Hno]. cbn. intros t. discriminate. }
  destruct (parseDate DateParse (Input.checkOut input) FcheckOut) as [tout | e] eqn:Hout.
  2:{ destruct (parseDate_Err _ _ _ Hout) as [-> Hno]. cbn.
      split; [eauto | intros t; discriminate]. }
  cbn [mbind result_bind].
  destruct (tin >=? tout) eqn:Hord.
  { exists tin, tout. repeat split; try reflexivity. lia. }
  rewrite nights_value, num_lt_of_Z.
  assert (Hpos : 0 < MS_PER_DAY) by (unfold MS_PER_DAY; lia).
  destruct ((tout - tin) `div` MS_PER_DAY <? 1) eqn:Hn.
  { exists tin, tout. repeat split; try reflexivity; [lia |].
    apply Z.ltb_lt in Hn.
    assert ((tout - tin) `div` MS_PER_DAY <= 0) by lia.
    pose proof (Z.div_mod (tout - tin) MS_PER_DAY ltac:(lia)).
    pose proof (Z.mod_pos_bound (tout - tin) MS_PER_DAY Hpos). nia. }
  assert (Hstay : tin + MS_PER_DAY <= tout).
  { apply Z.ltb_ge in Hn.
    pose proof (Z.div_mod (tout - tin) MS_PER_DAY ltac:(lia)).
    pose proof (Z.mod_pos_bound (tout - tin) MS_PER_DAY Hpos). nia. }
  assert (Hs : stay_ok DateParse input) by (exists tin, tout; auto).
  match goal with
  | |- context [if ?b then Err INVALID_GUEST_COUNTS else _] => destruct b eqn:Hcounts
  end.
  { split; [exact Hs |]. intros a c (Ha & Hc & Ha0 & Hc0).
    apply not_false_iff_true in Hcounts. apply Hcounts.
    apply guest_counts_check. exists a, c. auto. }
  apply guest_counts_check in Hcounts. destruct Hcounts as (a & c & Ha & Hc & Ha0 & Hc0).
  rewrite Ha, Hc. cbn [num_add]. unfold num_le, of_Z.
  assert (Hcounts : counts_ok StringToNumber ObjectToNumber input a c)
    by (unfold counts_ok; auto).
  destruct (Qle_bool (a + c) (inject_Z 0)) eqn:Hsum.
  { apply Qle_bool_iff in Hsum. split; [exact Hs |]. exists a, c. split; [exact Hcounts |].
    change (inject_Z 0) with 0%Q in Hsum. lra. }
  assert (Hsum' : (0 < a + c)%Q).
  { apply not_true_iff_false in Hsum. rewrite Qle_bool_iff in Hsum.
    change (inject_Z 0) with 0%Q in Hsum. lra. }
  assert (Hg : guests_ok StringToNumber ObjectToNumber input) by (exists a, c; auto).
  pose proof (parseGeo_outcome input) as Hgeo.
  destruct (parseGeo StringToNumber ObjectToNumber input) as [g | e] eqn:Hpg;
    cbn [mbind result_bind].
  - exists tin, tout, a, c, g. cbn.
    repeat split; auto.
  - destruct e; try contradiction; auto.
Qed.









(** X3. In the plan of an accepted input the two dates are the parsed
    check-in and check-out, check-in is strictly before check-out, and
    [nights] is an integer of at least 1.  When the two dates are less than
    [2^53] milliseconds apart (some 285 000 years), [nights] is the number
    of whole days between them, a remaining part of a day being dropped, and
    the subtraction and the division of doubles give this same number. *)
Theorem built_plan_stay (input : Input.t) (plan : Plan.t) :
  buildSearchPlan StringToNumber ObjectToNumber DateParse input = Ok plan ->
  parseDate DateParse (Input.checkIn input) FcheckIn = Ok (Plan.checkInDate plan)
  /\ parseDate DateParse (Input.checkOut input) FcheckOut = Ok (Plan.checkOutDate plan)
  /\ Plan.checkInDate plan < Plan.checkOutDate plan
  /\ exists n : Z,
       Plan.nights plan = of_Z n
       /\ 1 <= n
       /\ (Plan.checkOutDate plan - Plan.checkInDate plan < 2 ^ 53 ->
           n * MS_PER_DAY <= Plan.checkOutDate plan - Plan.checkInDate plan
             < (n + 1) * MS_PER_DAY
           /\ Math_floor
                (double (num_div (double (num_sub (of_Z (Plan.checkOutDate plan))
                                                  (of_Z (Plan.checkInDate plan))))
                                 (of_Z MS_PER_DAY)))
              = of_Z n).
Proof.
  intros H. pose proof (validation_outcome input) as Hout. rewrite H in Hout.
  destruct Hout as (tin & tout & a & c & g & Hin & Hco & Hstay & _ & _ & _
                    & Htin & Htout & Hn & _).
  rewrite Htin, Htout.
  assert (Hpos : 0 < MS_PER_DAY) by (unfold MS_PER_DAY; lia).
  split; [exact Hin |]. split; [exact Hco |]. split; [lia |].
  exists ((tout - tin) `div` MS_PER_DAY). split; [exact Hn |].
  pose proof (Z.div_mod (tout - tin) MS_PER_DAY ltac:(lia)).
  pose proof (Z.mod_pos_bound (tout - tin) MS_PER_DAY Hpos).
  split; [nia |].
  intros Hsmall. split; [split; nia |].
  apply nights_rounded. lia.
Qed.

(** X4. In the plan of an accepted input the adults and the children are
    finite numbers that are not negative and not both zero, and [guests],
    their sum, is positive; [hasChildren] holds exactly when the number of
    children is positive; with [children] absent ([undefined] or [null]) it
    counts as 0 and [hasChildren] is false.  When the sum of the adults and
    the children is a whole number below [2^53], [guests] is that number,
    and the addition of doubles gives it too. *)
Theorem built_plan_guests (input : Input.t) (plan : Plan.t) :
  buildSearchPlan StringToNumber ObjectToNumber DateParse input = Ok plan ->
  exists a c : Q,
    Number StringToNumber ObjectToNumber (Input.adults input) = Fin a
    /\ Number StringToNumber ObjectToNumber (nullish (Input.children input) (VNum (of_Z 0)))
       = Fin c
    /\ (0 <= a)%Q /\ (0 <= c)%Q
    /\ (0 < a + c)%Q
    /\ num_gt (Plan.guests plan) (of_Z 0) = true
    /\ (Plan.hasChildren plan = true <-> (0 < c)%Q)
    /\ (is_nullish (Input.children input) -> (c == 0)%Q /\ Plan.hasChildren plan = false)
    /\ (forall k : Z,
           (a + c == inject_Z k)%Q -> k < 2 ^ 53 ->
           (exists g, Plan.guests plan = Fin g /\ (g == inject_Z k)%Q)
           /\ double (num_add (Fin a) (Fin c)) = of_Z k).
Proof.
  intros H. pose proof (validation_outcome input) as Hout. rewrite H in Hout.
  destruct Hout as (tin & tout & a & c & g & _ & _ & _ & (Ha & Hc & Ha0 & Hc0) & Hsum & _
                    & _ & _ & _ & Hg & Hch & _).
  exists a, c. repeat (split; [assumption |]).
  split; [rewrite Hg; apply Qlt_bool_true; exact Hsum |].
  split; [rewrite Hch; apply Qlt_bool_true |].
  split.
  { intros Hnull. assert (Hc' : c = inject_Z 0).
    { destruct Hnull as [Hn | Hn]; rewrite Hn in Hc; cbn in Hc; injection Hc as <-;
        reflexivity. }
    subst c. split; [reflexivity | rewrite Hch; reflexivity]. }
  intros k Hk Hlt. split; [exists (a + c)%Q; split; [exact Hg | exact Hk] |].
  apply sum_rounded; [exact Hk |]. split; [| exact Hlt].
  rewrite Zlt_Qlt, <- Hk. exact Hsum.
Qed.

(** X5. The plan of an accepted input always has a [geo]: the latitude and
    the longitude of the input converted to numbers, both finite, the
    latitude in [-90, 90] and the longitude in [-180, 180]. *)
Theorem built_plan_geo (input : Input.t) (plan : Plan.t) :
  buildSearchPlan StringToNumber ObjectToNumber DateParse input = Ok plan ->
  exists la lo : Q,
    Plan.geo plan = Some {| lat := Fin la; lon := Fin lo |}
    /\ Number StringToNumber ObjectToNumber (Input.latitude input) = Fin la
    /\ Number StringToNumber ObjectToNumber (Input.longitude input) = Fin lo
    /\ (-90 <= la <= 90)%Q
    /\ (-180 <= lo <= 180)%Q.
Proof.
  intros H. pose proof (validation_outcome input) as Hout. rewrite H in Hout.
  destruct Hout as (tin & tout & a & c & g & _ & _ & _ & _ & _ & Hgeo & _ & _ & _ & _ & _
                    & Hg & _).
  pose proof (parseGeo_outcome input) as Hpg. rewrite Hgeo in Hpg.
  destruct Hpg as ((la & Hla & Hla1 & Hla2) & (lo & Hlo & Hlo1 & Hlo2) & ->).
  exists la, lo. rewrite Hg, Hla, Hlo.
  change (inject_Z (-90)) with (-90)%Q in Hla1. change (inject_Z 90) with 90%Q in Hla2.
  change (inject_Z (-180)) with (-180)%Q in Hlo1. change (inject_Z 180) with 180%Q in Hlo2.
  repeat split; assumption.
Qed.

(** *** Normalisation of numbers *)

(** X6. For integral bounds [lo <= hi] and an integral default between
    them, [parseNumber] is idempotent (normalising a normalised value
    changes nothing), monotone on finite numbers, and leaves every integer
    of the range as it is. *)
Theorem parseNumber_clamp_laws (d lo hi : Z) :
  lo <= d <= hi ->
  (forall v : jsval,
      parseNumber StringToNumber ObjectToNumber
        (VNum (parseNumber StringToNumber ObjectToNumber v (of_Z d) (of_Z lo) (of_Z hi)))
        (of_Z d) (of_Z lo) (of_Z hi)
      = parseNumber StringToNumber ObjectToNumber v (of_Z d) (of_Z lo) (of_Z hi))
  /\ (forall x y : Q,
         (x <= y)%Q ->
         exists zx zy,
           parseNumber StringToNumber ObjectToNumber (VNum (Fin x)) (of_Z d) (of_Z lo) (of_Z hi)
           = of_Z zx
           /\ parseNumber StringToNumber ObjectToNumber (VNum (Fin y)) (of_Z d) (of_Z lo) (of_Z hi)
              = of_Z zy
           /\ zx <= zy)
  /\ (forall z : Z,
         lo <= z <= hi ->
         parseNumber StringToNumber ObjectToNumber (VNum (of_Z z)) (of_Z d) (of_Z lo) (of_Z hi)
         = of_Z z).
Proof.
  intros Hd.
  assert (Hfix : forall z, lo <= z <= hi ->
            parseNumber StringToNumber ObjectToNumber (VNum (of_Z z)) (of_Z d) (of_Z lo) (of_Z hi)
            = of_Z z).
  { intros z Hz. rewrite parseNumber_spec. cbn [Number]. unfold floor_clamp, of_Z at 1.
    rewrite Qfloor_Z. f_equal. lia. }
  split; [| split; [| exact Hfix]].
  - intros v.
    destruct (parseNumber_range StringToNumber ObjectToNumber v d lo hi Hd ltac:(lia))
      as (z & -> & Hz).
    apply Hfix. exact Hz.
  - intros x y Hxy. rewrite !parseNumber_spec. cbn [Number]. unfold floor_clamp.
    do 2 eexists. split; [reflexivity |]. split; [reflexivity |].
    pose proof (Qfloor_resp_le x y Hxy). lia.
Qed.

End PlanValidation.

Lemma built_plan_stay_witness :
  Plan.checkInDate (sample_plan None) < Plan.checkOutDate (sample_plan None).
Proof.
  exact (proj1 (proj2 (proj2
    (built_plan_stay no_number no_number iso_date_parse sample_input (sample_plan None)
                     eq_refl)))).
Defined.

Lemma built_plan_guests_witness :
  exists a c : Q,
    (0 < a + c)%Q /\ num_gt (Plan.guests (sample_plan None)) (of_Z 0) = true.
Proof.
  destruct (built_plan_guests no_number no_number iso_date_parse
                              sample_input (sample_plan None) eq_refl)
    as (a & c & _ & _ & _ & _ & Hpos & Hg & _).
  exists a, c. split; assumption.
Defined.

Lemma built_plan_geo_witness :
  exists la lo : Q,
    Plan.geo (sample_plan None) = Some {| lat := Fin la; lon := Fin lo |}
    /\ (-90 <= la <= 90)%Q /\ (-180 <= lo <= 180)%Q.
Proof.
  destruct (built_plan_geo no_number no_number iso_date_parse
                           sample_input (sample_plan None) eq_refl)
    as (la & lo & Hg & _ & _ & Hla & Hlo).
  exists la, lo. repeat split; first [exact Hg | apply Hla | apply Hlo].
Defined.

Lemma parseNumber_clamp_laws_witness :
  parseNumber no_number no_number (VNum (of_Z 57)) (of_Z 20) (of_Z 1) (of_Z 100) = of_Z 57.
Proof.
  apply (proj2 (proj2 (parseNumber_clamp_laws no_number no_number 20 1 100 ltac:(lia))));
    lia.
Defined.

(** ** Date strings *)

Section Strip.
Variable w2 : ascii -> ascii -> bool.
Variable w3 : ascii -> ascii -> ascii -> bool.

Lemma strip_unfold (s : list ascii) :
  strip w2 w3 s = match white_prefix w2 w3 s with
                  | Some r => strip w2 w3 r
                  | None => s
                  end.
Proof.
  destruct s as [| c1 [| c2 [| c3 s3]]]; cbn [strip white_prefix]; try reflexivity.
  - destruct (is_space c1); reflexivity.
  - destruct (is_space c1); [reflexivity |]. destruct (w2 c1 c2); reflexivity.
  - destruct (is_space c1); [reflexivity |]. destruct (w2 c1 c2); [reflexivity |].
    destruct (w3 c1 c2 c3); reflexivity.
Qed.

Lemma white_prefix_app (s r t : list ascii) :
  white_prefix w2 w3 s = Some r -> white_prefix w2 w3 (s ++ t) = Some (r ++ t).
Proof.
  destruct s as [| c1 [| c2 [| c3 s3]]]; cbn [white_prefix app]; try discriminate.
  - destruct (is_space c1); [| discriminate]. intros [= <-]. reflexivity.
  - destruct (is_space c1); [intros [= <-]; reflexivity |].
    destruct (w2 c1 c2); [| discriminate]. intros [= <-]. reflexivity.
  - destruct (is_space c1); [intros [= <-]; reflexivity |].
    destruct (w2 c1 c2); [intros [= <-]; reflexivity |].
    destruct (w3 c1 c2 c3); [| discriminate]. intros [= <-]. reflexivity.
Qed.

Lemma white_prefix_length (s r : list ascii) :
  white_prefix w2 w3 s = Some r -> (length r < length s)%nat.
Proof.
  destruct s as [| c1 [| c2 [| c3 s3]]]; cbn [white_prefix length]; try discriminate.
  - destruct (is_space c1); [| discriminate]. intros [= <-]. cbn. lia.
  - destruct (is_space c1); [intros [= <-]; cbn; lia |].
    destruct (w2 c1 c2); [| discriminate]. intros [= <-]. cbn. lia.
  - destruct (is_space c1); [intros [= <-]; cbn; lia |].
    destruct (w2 c1 c2); [intros [= <-]; cbn; lia |].
    destruct (w3 c1 c2 c3); [| discriminate]. intros [= <-]. cbn. lia.
Qed.

(** Induction along the steps of [strip]. *)
Lemma strip_ind (P : list ascii -> Prop) :
  (forall s, white_prefix w2 w3 s = None -> P s) ->
  (forall s r, white_prefix w2 w3 s = Some r -> P r -> P s) ->
  forall s, P s.
Proof.
  intros Hnone Hsome s.
  remember (length s) as n eqn:Hn. revert s Hn.
  induction n as [n IH] using lt_wf_ind. intros s ->.
  destruct (white_prefix w2 w3 s) as [r |] eqn:E.
  - apply (Hsome s r E). apply (IH (length r)); [| reflexivity].
    apply white_prefix_length. exact E.
  - apply Hnone. exact E.
Qed.

Lemma white_prefix_strip (s : list ascii) : white_prefix w2 w3 (strip w2 w3 s) = None.
Proof.
  induction s as [s E | s r E IH] using strip_ind; rewrite strip_unfold, E; assumption.
Qed.

Lemma strip_idempotent (s : list ascii) : strip w2 w3 (strip w2 w3 s) = strip w2 w3 s.
Proof. rewrite (strip_unfold (strip w2 w3 s)), white_prefix_strip. reflexivity. Qed.

Lemma strip_fixed (s : list ascii) : white_prefix w2 w3 s = None <-> strip w2 w3 s = s.
Proof.
  split.
  - intros E. rewrite strip_unfold, E. reflexivity.
  - intros E. rewrite <- E. apply white_prefix_strip.
Qed.

(** Leading white space is removed whatever follows it. *)
Lemma strip_blank_app (pad t : list ascii) :
  strip w2 w3 pad = [] -> strip w2 w3 (pad ++ t) = strip w2 w3 t.
Proof.
  induction pad as [s E | s r E IH] using strip_ind.
  - rewrite (strip_unfold s), E. intros ->. reflexivity.
  - rewrite (strip_unfold s), E. intros Hr.
    rewrite (strip_unfold (s ++ t)), (white_prefix_app s r t E). apply IH. exact Hr.
Qed.

(** No byte of a white code point but the first is a boundary. *)
Hypothesis w2_boundary : forall c1 c2, w2 c1 c2 = true -> is_boundary c2 = false.
Hypothesis w3_boundary : forall c1 c2 c3,
  w3 c1 c2 c3 = true -> is_boundary c2 = false /\ is_boundary c3 = false.

(** What follows a string that is not white space does not make it so, when
    it starts at a boundary. *)
Lemma white_prefix_app_None (s t : list ascii) :
  white_prefix w2 w3 s = None -> s <> [] ->
  match t with c :: _ => is_boundary c = true | [] => True end ->
  white_prefix w2 w3 (s ++ t) = None.
Proof.
  intros E Hs Ht.
  destruct s as [| c1 [| c2 [| c3 s3]]]; [congruence | | |]; cbn [white_prefix app] in *.
  - destruct (is_space c1); [discriminate |].
    destruct t as [| c t]; [reflexivity |].
    destruct (w2 c1 c) eqn:E2; [apply w2_boundary in E2; congruence |].
    destruct t as [| c' t]; [reflexivity |].
    destruct (w3 c1 c c') eqn:E3; [apply w3_boundary in E3; destruct E3; congruence |].
    reflexivity.
  - destruct (is_space c1); [discriminate |]. destruct (w2 c1 c2); [discriminate |].
    destruct t as [| c t]; [reflexivity |].
    destruct (w3 c1 c2 c) eqn:E3; [apply w3_boundary in E3; destruct E3; congruence |].
    reflexivity.
  - destruct (is_space c1); [discriminate |]. destruct (w2 c1 c2); [discriminate |].
    destruct (w3 c1 c2 c3); [discriminate | reflexivity].
Qed.

Lemma strip_app_boundary (s t : list ascii) :
  strip w2 w3 s <> [] ->
  match t with c :: _ => is_boundary c = true | [] => True end ->
  strip w2 w3 (s ++ t) = strip w2 w3 s ++ t.
Proof.
  intros Hs Ht. induction s as [s E | s r E IH] using strip_ind.
  - rewrite (strip_unfold s), E in *.
    rewrite strip_unfold, white_prefix_app_None; auto.
  - rewrite (strip_unfold s), E in *.
    rewrite (strip_unfold (s ++ t)), (white_prefix_app s r t E). apply IH. exact Hs.
Qed.

End Strip.

Ltac bytes :=
  unfold is_space, is_space2, is_space3, is_boundary in *; cbv zeta in *;
  rewrite ?Bool.negb_true_iff, ?Bool.negb_false_iff in *;
  repeat match goal with
         | |- _ = false => apply Bool.not_true_is_false; intro
         | H : _ = false |- _ => apply Bool.not_true_iff_false in H
         end;
  repeat (progress rewrite ?Bool.andb_true_iff, ?Bool.orb_true_iff, ?Nat.eqb_eq, ?Nat.leb_le in * );
  lia.

Lemma is_space_boundary (c : ascii) : is_space c = true -> is_boundary c = true.
Proof. intros H. bytes. Qed.

Lemma is_space2_boundary (c1 c2 : ascii) :
  is_space2 c1 c2 = true ->
  is_boundary c1 = true /\ is_boundary c2 = false /\ is_space c2 = false.
Proof. intros H. repeat split; bytes. Qed.

Lemma is_space3_boundary (c1 c2 c3 : ascii) :
  is_space3 c1 c2 c3 = true ->
  is_boundary c1 = true /\ is_boundary c2 = false /\ is_boundary c3 = false
  /\ is_space c3 = false /\ is_space2 c2 c3 = false.
Proof. intros H. repeat split; bytes. Qed.

Lemma white_prefix_cases (w2 : ascii -> ascii -> bool) (w3 : ascii -> ascii -> ascii -> bool)
    (s r : list ascii) :
  white_prefix w2 w3 s = Some r ->
  (exists c, s = c :: r /\ is_space c = true)
  \/ (exists c1 c2, s = c1 :: c2 :: r /\ w2 c1 c2 = true)
  \/ (exists c1 c2 c3, s = c1 :: c2 :: c3 :: r /\ w3 c1 c2 c3 = true).
Proof.
  destruct s as [| c1 [| c2 [| c3 s3]]]; cbn [white_prefix]; try discriminate.
  - destruct (is_space c1) eqn:E1; [| discriminate]. intros [= <-]. left. eauto.
  - destruct (is_space c1) eqn:E1; [intros [= <-]; left; eauto |].
    destruct (w2 c1 c2) eqn:E2; [| discriminate]. intros [= <-]. right. left. eauto.
  - destruct (is_space c1) eqn:E1; [intros [= <-]; left; eauto |].
    destruct (w2 c1 c2) eqn:E2; [intros [= <-]; right; left; eauto |].
    destruct (w3 c1 c2 c3) eqn:E3; [| discriminate]. intros [= <-]. right. right. eauto 6.
Qed.

(** White space starts at a boundary. *)
Lemma blank_boundary (pad : list ascii) :
  strip is_space2 is_space3 pad = [] ->
  match pad with c :: _ => is_boundary c = true | [] => True end.
Proof.
  intros H. destruct pad as [| c pad]; [exact I |].
  rewrite strip_unfold in H.
  destruct (white_prefix is_space2 is_space3 (c :: pad)) as [r |] eqn:E; [| discriminate].
  destruct (white_prefix_cases _ _ _ _ E)
    as [(c1 & [= -> ->] & Hc) | [(c1 & c2 & [= -> ->] & Hc) | (c1 & c2 & c3 & [= -> ->] & Hc)]].
  - apply is_space_boundary. exact Hc.
  - apply is_space2_boundary in Hc. tauto.
  - apply is_space3_boundary in Hc. tauto.
Qed.

(** White space read from the front is white space read from the end. *)
Lemma blank_rev (pad : list ascii) :
  strip is_space2 is_space3 pad = [] ->
  strip (fun c2 c1 => is_space2 c1 c2) (fun c3 c2 c1 => is_space3 c1 c2 c3) (rev pad) = [].
Proof.
  induction pad as [s E | s r E IH] using (strip_ind is_space2 is_space3).
  - rewrite strip_unfold, E. intros ->. reflexivity.
  - rewrite (strip_unfold _ _ s), E. intros Hr. specialize (IH Hr).
    destruct (white_prefix_cases _ _ _ _ E)
      as [(c1 & -> & Hc) | [(c1 & c2 & -> & Hc) | (c1 & c2 & c3 & -> & Hc)]].
    + cbn [rev]. rewrite strip_blank_app by exact IH. cbn [strip]. rewrite Hc. reflexivity.
    + change (c1 :: c2 :: r) with ([c1; c2] ++ r). rewrite rev_app_distr.
      rewrite strip_blank_app by exact IH. cbn [rev app strip].
      destruct (is_space2_boundary _ _ Hc) as (_ & _ & ->). rewrite Hc. reflexivity.
    + change (c1 :: c2 :: c3 :: r) with ([c1; c2; c3] ++ r). rewrite rev_app_distr.
      rewrite strip_blank_app by exact IH. cbn [rev app strip].
      destruct (is_space3_boundary _ _ _ Hc) as (_ & _ & _ & -> & ->). rewrite Hc.
      reflexivity.
Qed.

(** [strip] returns a suffix. *)
Lemma strip_suffix (w2 : ascii -> ascii -> bool) (w3 : ascii -> ascii -> ascii -> bool)
    (s : list ascii) :
  exists p, s = p ++ strip w2 w3 s.
Proof.
  induction s as [s E | s r E IH] using (strip_ind w2 w3).
  - exists []. rewrite strip_unfold, E. reflexivity.
  - rewrite strip_unfold, E. destruct IH as [p Hp].
    destruct (white_prefix_cases _ _ _ _ E)
      as [(c1 & -> & _) | [(c1 & c2 & -> & _) | (c1 & c2 & c3 & -> & _)]].
    + exists (c1 :: p). cbn. f_equal. exact Hp.
    + exists (c1 :: c2 :: p). cbn. do 2 f_equal. exact Hp.
    + exists (c1 :: c2 :: c3 :: p). cbn. do 3 f_equal. exact Hp.
Qed.

Lemma list_ascii_of_string_app (s t : string) :
  list_ascii_of_string (s +:+ t) = list_ascii_of_string s ++ list_ascii_of_string t.
Proof.
  induction s as [| c s IH]; [reflexivity |].
  change (String c s +:+ t) with (String c (s +:+ t)).
  cbn [list_ascii_of_string app]. f_equal. exact IH.
Qed.

Lemma string_of_list_ascii_nil (l : list ascii) : string_of_list_ascii l = "" -> l = [].
Proof. destruct l; [reflexivity | discriminate]. Qed.

Lemma blank_strip (pad : string) :
  blank pad = true -> strip is_space2 is_space3 (list_ascii_of_string pad) = [].
Proof.
  unfold blank, trim_start. intros H. apply String.eqb_eq in H.
  apply string_of_list_ascii_nil. exact H.
Qed.

Lemma trim_blank (pad : string) : blank pad = true -> trim pad = "".
Proof.
  intros H. unfold trim, trim_start. rewrite (blank_strip pad H). reflexivity.
Qed.

(** White space around a string does not change what [trim] returns. *)
Lemma trim_padding (pad1 pad2 s : string) :
  blank pad1 = true -> blank pad2 = true -> trim (pad1 +:+ s +:+ pad2) = trim s.
Proof.
  intros H1 H2. apply blank_strip in H1. apply blank_strip in H2.
  unfold trim, trim_end, trim_start. f_equal. f_equal.
  rewrite !list_ascii_of_string_of_list_ascii, !list_ascii_of_string_app.
  rewrite strip_blank_app by exact H1.
  set (l := list_ascii_of_string s). set (p := list_ascii_of_string pad2) in *.
  destruct (strip is_space2 is_space3 l) as [| c t] eqn:El.
  - rewrite strip_blank_app by exact El. rewrite H2. reflexivity.
  - rewrite strip_app_boundary.
    + rewrite El, rev_app_distr. apply strip_blank_app, blank_rev. exact H2.
    + intros c1 c2 Hc. apply is_space2_boundary in Hc. tauto.
    + intros c1 c2 c3 Hc. apply is_space3_boundary in Hc. tauto.
    + rewrite El. discriminate.
    + apply blank_boundary. exact H2.
Qed.

Lemma trim_idempotent (s : string) : trim (trim s) = trim s.
Proof.
  unfold trim, trim_end, trim_start.
  rewrite !list_ascii_of_string_of_list_ascii.
  set (a := strip is_space2 is_space3 (list_ascii_of_string s)).
  set (w2' := fun c2 c1 => is_space2 c1 c2). set (w3' := fun c3 c2 c1 => is_space3 c1 c2 c3).
  assert (Hfix : strip is_space2 is_space3 (rev (strip w2' w3' (rev a)))
                 = rev (strip w2' w3' (rev a))).
  { apply strip_fixed.
    destruct (strip_suffix w2' w3' (rev a)) as [p Hp].
    assert (Ha : a = rev (strip w2' w3' (rev a)) ++ rev p).
    { rewrite <- rev_app_distr, <- Hp, rev_involutive. reflexivity. }
    pose proof (white_prefix_strip is_space2 is_space3 (list_ascii_of_string s)) as Hnone.
    fold a in Hnone. rewrite Ha in Hnone.
    destruct (white_prefix is_space2 is_space3 (rev (strip w2' w3' (rev a)))) as [r |] eqn:E;
      [| reflexivity].
    rewrite (white_prefix_app _ _ _ _ _ E) in Hnone. discriminate. }
  rewrite Hfix, rev_involutive, strip_idempotent. reflexivity.
Qed.

Section DatePadding.
Variable DateParse : string -> option Z.

(** X7. [parseDate] trims a string before it parses it: white space around
    a date string (any of the white space and line terminator characters of
    ECMAScript, such as the no-break space and the line separator) does not
    change the outcome, trimming beforehand changes nothing, and a string of
    white space only (the empty one included) is rejected with the error of
    the field, whatever the date parser. *)
Theorem parseDate_ignores_padding (s pad1 pad2 : string) (f : DateField) :
  blank pad1 = true -> blank pad2 = true ->
  parseDate DateParse (VStr (pad1 +:+ s +:+ pad2)) f = parseDate DateParse (VStr s) f
  /\ parseDate DateParse (VStr (trim s)) f = parseDate DateParse (VStr s) f
  /\ parseDate DateParse (VStr pad1) f = Err (date_error f).
Proof.
  intros H1 H2. unfold parseDate.
  rewrite trim_padding by assumption. rewrite trim_idempotent.
  split; [reflexivity |]. split; [reflexivity |].
  rewrite (trim_blank pad1 H1). reflexivity.
Qed.
End DatePadding.

Lemma parseDate_ignores_padding_witness :
  parseDate iso_date_parse
    (VStr ((" " +:+ NBSP) +:+ "2026-01-12" +:+ (LINE_SEPARATOR +:+ LF))) FcheckIn
  = parseDate iso_date_parse (VStr "2026-01-12") FcheckIn.
Proof.
  apply (parseDate_ignores_padding iso_date_parse "2026-01-12"
           (" " +:+ NBSP) (LINE_SEPARATOR +:+ LF) FcheckIn);
    reflexivity.
Defined.

(** ** Keys the builder and the query do not read *)

Lemma option_insert_ne (plan : Plan.t) (o : gmap string jsval) (k k' : string) (v : jsval) :
  Plan.options plan = Some o -> k <> k' ->
  Plan.option_ (Plan.with_options plan (Some (<[k := v]> o))) k' = Plan.option_ plan k'.
Proof.
  intros Ho Hne. unfold Plan.option_, Plan.with_options. cbn [Plan.options].
  rewrite Ho. unfold prop. rewrite lookup_insert_ne by exact Hne. reflexivity.
Qed.

(** X15. The candidate query reads three option keys only
    ([capacityColumn], [geoColumn], [candidateHardLimit]): adding or changing
    any other key of [plan.options] gives the same text and the same bound
    values. *)
Theorem unknown_options_are_ignored (plan : Plan.t) (o : gmap string jsval) (k : string)
    (v : jsval) :
  Plan.options plan = Some o ->
  ~ In k QUERY_OPTIONS ->
  buildCandidateSql (Plan.with_options plan (Some (<[k := v]> o))) = buildCandidateSql plan.
Proof.
  intros Ho Hk. unfold QUERY_OPTIONS in Hk. cbn [In] in Hk.
  assert (H1 : k <> "capacityColumn") by (intros ->; apply Hk; auto).
  assert (H2 : k <> "geoColumn") by (intros ->; apply Hk; auto).
  assert (H3 : k <> "candidateHardLimit") by (intros ->; apply Hk; auto).
  apply buildCandidateSql_ext.
  - unfold getCapacityColumn. rewrite (option_insert_ne plan o k _ v Ho) by assumption. reflexivity.
  - unfold getGeoColumn. rewrite (option_insert_ne plan o k _ v Ho) by assumption. reflexivity.
  - unfold resolveCandidateLimit. rewrite (option_insert_ne plan o k _ v Ho) by assumption.
    reflexivity.
  - destruct plan; reflexivity.
  - destruct plan; reflexivity.
  - destruct plan; reflexivity.
Qed.

Section UnknownFilters.
Variable StringToNumber : string -> number.
Variable ObjectToNumber : loc -> number.
Variable DateParse : string -> option Z.

(** X8. A filter key other than [radiusKm] and [radius] has no effect on
    what [buildSearchPlan] computes: with such a key added to (or changed in)
    the filters, an accepted input stays accepted and the plan has the same
    dates, nights, guests, paging, geo, radius and [hasChildren]; the key is
    only carried along in [input] and [options]. *)
Theorem unknown_filters_keep_the_plan (input : Input.t) (plan : Plan.t)
    (f : gmap string jsval) (k : string) (v : jsval) :
  buildSearchPlan StringToNumber ObjectToNumber DateParse input = Ok plan ->
  Input.filters input = Some f ->
  k <> "radiusKm" -> k <> "radius" ->
  buildSearchPlan StringToNumber ObjectToNumber DateParse
                  (with_filters input (Some (<[k := v]> f)))
  = Ok (Plan.mk (with_filters input (Some (<[k := v]> f)))
                (Plan.checkInDate plan) (Plan.checkOutDate plan) (Plan.nights plan)
                (Plan.guests plan) (Plan.page plan) (Plan.pageSize plan) (Plan.geo plan)
                (Plan.radius plan) (Plan.hasChildren plan) (Some (<[k := v]> f))).
Proof.
  intros Hb Hf Hk1 Hk2. revert Hb.
  unfold buildSearchPlan, parseGeo, with_filters.
  cbn [Input.latitude Input.longitude Input.checkIn Input.checkOut Input.adults
       Input.children Input.page Input.pageSize Input.filters].
  rewrite Hf.
  destruct (parseDate DateParse (Input.checkIn input) FcheckIn); [| discriminate].
  destruct (parseDate DateParse (Input.checkOut input) FcheckOut); [| discriminate].
  cbn [mbind result_bind].
  repeat match goal with
         | |- context [if ?b then Err _ else _] => destruct b; [discriminate |]
         end.
  intros [= <-]. cbn.
  unfold extractRadiusKm, prop. rewrite !lookup_insert_ne by congruence. reflexivity.
Qed.
End UnknownFilters.

Lemma unknown_options_are_ignored_witness :
  buildCandidateSql (sample_plan (Some (<["amenity" := VStr "pool"]> sample_filters)))
  = buildCandidateSql (sample_plan (Some sample_filters)).
Proof.
  apply (unknown_options_are_ignored (sample_plan (Some sample_filters)) sample_filters
                                     "amenity" (VStr "pool")).
  - reflexivity.
  - cbn. intros [H | [H | [H | []]]]; discriminate.
Defined.

Lemma unknown_filters_keep_the_plan_witness :
  exists plan,
    sample_build (with_filters sample_input
                    (Some (<["amenity" := VStr "pool"]> sample_filters))) = Ok plan
    /\ Plan.radius plan = of_Z 100.
Proof.
  eexists. split.
  - apply (unknown_filters_keep_the_plan no_number no_number iso_date_parse
             (with_filters sample_input (Some sample_filters)) sample_filtered_plan
             sample_filters "amenity" (VStr "pool")).
    + vm_compute. reflexivity.
    + reflexivity.
    + discriminate.
    + discriminate.
  - reflexivity.
Defined.

(** ** The candidate query: text and bound values *)

Lemma getCapacityColumn_accepts (plan : Plan.t) (c : string) :
  Plan.option_ plan "capacityColumn" = VStr c -> In c CAPACITY_COLUMNS ->
  getCapacityColumn plan = Some c.
Proof.
  intros Hopt Hin. unfold getCapacityColumn. rewrite Hopt.
  apply array_includes_In in Hin. rewrite Hin. reflexivity.
Qed.

(** X9. With [options.capacityColumn] one of the three allowed names, the
    query filters on that column: the text has [WHERE p.<column> >= $1], the
    first bound value is [plan.guests], and the column is selected as
    [max_guests]. *)
Theorem capacity_filter_applied (plan : Plan.t) (c : string) :
  Plan.option_ plan "capacityColumn" = VStr c ->
  In c CAPACITY_COLUMNS ->
  let q := buildCandidateSql plan in
  getCapacityColumn plan = Some c
  /\ includes (text q) ("WHERE p." +:+ c +:+ " >= $1") = true
  /\ values q !! 0%nat = Some (VNum (Plan.guests plan))
  /\ includes (text q)
       (if String.eqb c "max_guests" then "p.country, p.max_guests"
        else "p.country, p." +:+ c +:+ " AS max_guests") = true.
Proof.
  intros Hopt Hin. cbv zeta.
  pose proof (getCapacityColumn_accepts plan c Hopt Hin) as Hc.
  split; [exact Hc |].
  unfold buildCandidateSql. rewrite Hc.
  destruct Hin as [<- | [<- | [<- | []]]];
    destruct (getGeoColumn_allowed plan) as [Hg | Hg]; rewrite Hg;
    destruct (Plan.geo plan);
    (split; [vm_compute; reflexivity |]); (split; [reflexivity | vm_compute; reflexivity]).
Qed.

(** X10. The placeholders of the generated text and the bound values agree:
    with [n] values (one for the limit, one more with a capacity column,
    three more with a geo) the text has each of [$1] ... [$n], and neither
    [$0] nor [$(n+1)]. *)
Theorem placeholders_match_values (plan : Plan.t) :
  let q := buildCandidateSql plan in
  let n := length (values q) in
  n = (match getCapacityColumn plan with Some _ => 1 | None => 0 end
       + match Plan.geo plan with Some _ => 3 | None => 0 end + 1)%nat
  /\ (forall i : nat, (1 <= i <= n)%nat -> includes (text q) ("$" +:+ show_nat i) = true)
  /\ includes (text q) ("$" +:+ show_nat (S n)) = false
  /\ includes (text q) "$0" = false.
Proof.
  cbv zeta.
  sql_shapes plan; cbn [values length app];
    (split; [reflexivity |]);
    (split;
     [ intros i Hi;
       assert (Hcases : (i = 1 \/ i = 2 \/ i = 3 \/ i = 4 \/ i = 5)%nat) by lia;
       destruct Hcases as [-> | [-> | [-> | [-> | ->]]]];
       first [lia | vm_compute; reflexivity]
     | split; vm_compute; reflexivity ]).
Qed.

(** X12. The text of the candidate query depends on the plan only through
    the selected capacity column, the selected geo column and whether the
    plan has a geo: two plans that agree on these three give the same text,
    whatever their dates, guests, coordinates, radius, paging and limit. *)
Theorem sql_text_shapes (p p' : Plan.t) :
  getCapacityColumn p = getCapacityColumn p' ->
  getGeoColumn p = getGeoColumn p' ->
  (is_Some (Plan.geo p) <-> is_Some (Plan.geo p')) ->
  text (buildCandidateSql p) = text (buildCandidateSql p').
Proof.
  intros Hc Hg Hgeo. unfold buildCandidateSql. rewrite <- Hc, <- Hg.
  destruct (Plan.geo p) as [g |], (Plan.geo p') as [g' |].
  - destruct (getCapacityColumn p); reflexivity.
  - exfalso. destruct Hgeo as [H _]. destruct (H ltac:(eauto)) as [? [=]].
  - exfalso. destruct Hgeo as [_ H]. destruct (H ltac:(eauto)) as [? [=]].
  - destruct (getCapacityColumn p); reflexivity.
Qed.

(** X13. With a geo, the query starts with the [params] table expression
    whose point is made from two consecutive placeholders bound to the
    longitude first and the latitude second (the argument order of
    [ST_MakePoint]), and the [params] table is joined in the [FROM]
    clause. *)
Theorem point_is_lon_lat (plan : Plan.t) (g : Geo) :
  Plan.geo plan = Some g ->
  let q := buildCandidateSql plan in
  exists a b : nat,
    (1 <= a)%nat /\ b = S a
    /\ includes (text q)
         ("ST_SetSRID(ST_MakePoint($" +:+ show_nat a +:+ ", $" +:+ show_nat b +:+
          "), 4326)::geography AS p") = true
    /\ values q !! (a - 1)%nat = Some (VNum (lon g))
    /\ values q !! (b - 1)%nat = Some (VNum (lat g))
    /\ String.prefix "WITH params AS (" (text q) = true
    /\ includes (text q) ("FROM properties p" +:+ LF +:+ ", params" +:+ LF +:+ "WHERE") = true.
Proof.
  intros Hgeo. cbv zeta. unfold buildCandidateSql. rewrite Hgeo.
  destruct (getGeoColumn_allowed plan) as [Hg | Hg]; rewrite Hg;
    (destruct (getCapacityColumn plan) as [c |] eqn:Hc;
     [ apply getCapacityColumn_allowed in Hc; destruct Hc as [-> | [-> | ->]];
       exists 2%nat, 3%nat
     | exists 1%nat, 2%nat ];
     (split; [lia |]); (split; [reflexivity |]);
     (split; [vm_compute; reflexivity |]);
     (split; [reflexivity |]); (split; [reflexivity |]);
     split; vm_compute; reflexivity).
Qed.

(** X14. The candidate limit is always an integer between 0 and 3000, and
    it is 0 (a query that returns no row) exactly when
    [options.candidateHardLimit] is a number strictly between 0 and 1. *)
Theorem limit_is_a_row_count (plan : Plan.t) :
  exists z : Z,
    resolveCandidateLimit plan = of_Z z
    /\ 0 <= z <= 3000
    /\ (z = 0 <->
        exists x, Plan.option_ plan "candidateHardLimit" = VNum (Fin x)
                  /\ (0 < x)%Q /\ (x < 1)%Q).
Proof.
  destruct (resolveCandidateLimit_cases plan) as [(x & Hx & Hpos & ->) | [Hno ->]].
  - exists (Z.min (Qfloor x) 3000). split; [reflexivity |].
    assert (Hfl : 0 <= Qfloor x).
    { change 0 with (Qfloor 0). apply Qfloor_resp_le. lra. }
    split; [lia |]. split.
    + intros Hz. exists x. split; [exact Hx |]. split; [exact Hpos |].
      assert (Qfloor x = 0) as Hf by lia.
      pose proof (Qlt_floor x) as Hlt. rewrite Hf in Hlt. exact Hlt.
    + intros (y & Hy & _ & Hlt). rewrite Hx in Hy. injection Hy as <-.
      assert (Hf : Qfloor x < 1); [| lia].
      rewrite Zlt_Qlt. pose proof (Qfloor_le x). change (inject_Z 1) with 1%Q. lra.
  - exists 1000. split; [reflexivity |]. split; [lia |]. split; [lia |].
    intros (y & Hy & Hpos & _). destruct (Hno y Hy Hpos).
Qed.

Lemma capacity_filter_applied_witness :
  values (buildCandidateSql (sample_plan (Some {[ "capacityColumn" := VStr "capacity" ]})))
    !! 0%nat = Some (VNum (of_Z 2)).
Proof.
  apply (capacity_filter_applied
           (sample_plan (Some {[ "capacityColumn" := VStr "capacity" ]})) "capacity").
  - reflexivity.
  - cbn. auto.
Defined.

Lemma sql_text_shapes_witness :
  text (buildCandidateSql (sample_plan None))
  = text (buildCandidateSql (Plan.with_radius (sample_plan (Some sample_filters)) (of_Z 77))).
Proof.
  apply sql_text_shapes.
  - reflexivity.
  - reflexivity.
  - split; intros _; eexists; reflexivity.
Defined.

Lemma point_is_lon_lat_witness :
  exists a b : nat,
    values (buildCandidateSql (sample_plan None)) !! (a - 1)%nat
    = Some (VNum (Fin (43007 # 10000)))
    /\ values (buildCandidateSql (sample_plan None)) !! (b - 1)%nat
       = Some (VNum (Fin (520705 # 10000))).
Proof.
  destruct (point_is_lon_lat (sample_plan None) _ eq_refl)
    as (a & b & _ & _ & _ & Ha & Hb & _).
  exists a, b. split; assumption.
Defined.

(** ** The query of a request without filters *)

Section QueryOfRequest.
Variable StringToNumber : string -> number.
Variable ObjectToNumber : loc -> number.
Variable DateParse : string -> option Z.

(** X26. For an accepted request without filters the candidate query has no
    capacity test and exactly four bound values: the longitude and the
    latitude of the request as numbers, the default radius of 10 km in
    metres (10000) and the default limit of 1000 rows; it tests the
    [location] column. *)
Theorem built_query_values (input : Input.t) (plan : Plan.t) :
  buildSearchPlan StringToNumber ObjectToNumber DateParse input = Ok plan ->
  Input.filters input = None ->
  let q := buildCandidateSql plan in
  exists la lo : Q,
    Number StringToNumber ObjectToNumber (Input.latitude input) = Fin la
    /\ Number StringToNumber ObjectToNumber (Input.longitude input) = Fin lo
    /\ values q = [VNum (Fin lo); VNum (Fin la); VNum (of_Z 10000); VNum (of_Z 1000)]
    /\ includes (text q) ">=" = false
    /\ includes (text q) "WHERE ST_DWithin(p.location::geography, params.p, $3)" = true
    /\ String.prefix "WITH params AS (" (text q) = true
    /\ ends_with (text q) "LIMIT $4;" = true.
Proof.
  intros Hb Hf. cbv zeta.
  destruct (buildSearchPlan_Ok _ _ _ input plan Hb)
    as (tin & tout & g & _ & _ & _ & Hgeo & Hpg & _ & _ & Hr & Ho).
  pose proof (parseGeo_outcome StringToNumber ObjectToNumber input) as Hg.
  rewrite Hgeo in Hg. destruct Hg as ((la & Hla & _) & (lo & Hlo & _) & Hgv).
  exists la, lo. split; [exact Hla |]. split; [exact Hlo |].
  rewrite Hf in Hr, Ho. rewrite Hla, Hlo in Hgv.
  assert (Hcap : getCapacityColumn plan = None).
  { unfold getCapacityColumn, Plan.option_. rewrite Ho. reflexivity. }
  assert (Hcol : getGeoColumn plan = "location").
  { unfold getGeoColumn, Plan.option_. rewrite Ho. reflexivity. }
  assert (Hlim : resolveCandidateLimit plan = of_Z 1000).
  { unfold resolveCandidateLimit, Plan.option_. rewrite Ho. reflexivity. }
  unfold buildCandidateSql. rewrite Hcap, Hcol, Hlim, Hpg, Hr, Hgv.
  repeat split; vm_compute; reflexivity.
Qed.
End QueryOfRequest.

Lemma built_query_values_witness :
  length (values (buildCandidateSql (sample_plan None))) = 4%nat.
Proof.
  destruct (built_query_values no_number no_number iso_date_parse
                               sample_input (sample_plan None) eq_refl eq_refl)
    as (la & lo & _ & _ & Hv & _).
  rewrite Hv. reflexivity.
Defined.

(** ** Rows of the store *)

Lemma append_nonempty (a b : string) : a <> "" -> String.eqb (a +:+ b) "" = false.
Proof.
  destruct a as [| c a]; [congruence |]. intros _. reflexivity.
Qed.

Lemma eqb_empty_false (s : string) : String.eqb s "" = false -> s <> "".
Proof. intros H ->. discriminate. Qed.

Section RowFacts.
Variable StringToNumber : string -> number.
Variable ObjectToNumber : loc -> number.
Variable FractionToString : Q -> string.
Variable ObjectToString : loc -> string.

Lemma row_location (r : CandidateRow) :
  location (mapRowToCandidate StringToNumber ObjectToNumber FractionToString ObjectToString r)
  = match present (row_city r), present (row_country r) with
    | Some a, Some b => Some (a +:+ ", " +:+ b)
    | Some a, None => Some a
    | None, Some b => Some b
    | None, None => None
    end.
Proof.
  unfold mapRowToCandidate. cbn [location].
  unfold filter_Boolean, present. cbn [omap list_omap].
  destruct (row_city r) as [a |], (row_country r) as [b |]; cbn zeta;
    repeat match goal with
           | |- context [String.eqb ?s ""] =>
               is_var s; destruct (String.eqb s "") eqn:?
           end;
    cbn [String.concat omap list_omap];
    try reflexivity;
    repeat match goal with
           | H : String.eqb ?s "" = false |- _ =>
               progress (rewrite ?H; try rewrite (append_nonempty s _ (eqb_empty_false s H)))
           end; reflexivity.
Qed.

(** X16. What [mapRowToCandidate] makes of a row: [location] is
    ["city, country"], or the one of the two that is present (neither
    [null] nor empty), or absent, and never the empty string; [name] is the
    row's name or the empty string; [id] is the row's id as a string (a
    whole number of at most [2^53] in magnitude by its digits); [maxGuests]
    is absent exactly for a [null] or [undefined] column; the
    fields the query does not select are absent. *)
Theorem row_mapping (r : CandidateRow) :
  let c := mapRowToCandidate StringToNumber ObjectToNumber FractionToString ObjectToString r in
  location c =
    match present (row_city r), present (row_country r) with
    | Some a, Some b => Some (a +:+ ", " +:+ b)
    | Some a, None => Some a
    | None, Some b => Some b
    | None, None => None
    end
  /\ location c <> Some ""
  /\ name c = default "" (row_name r)
  /\ (forall s, row_id r = VStr s -> id c = s)
  /\ (forall z : Z, row_id r = VNum (of_Z z) -> Z.abs z <= 2 ^ 53 -> id c = show_Z z)
  /\ (maxGuests c = None <-> row_max_guests r = VNull \/ row_max_guests r = VUndefined)
  /\ (forall n, row_max_guests r = VNum n -> maxGuests c = Some n)
  /\ propertyType c = None /\ amenities c = None
  /\ bedrooms c = None /\ bathrooms c = None.
Proof.
  cbv zeta.
  split; [apply row_location |].
  split.
  { rewrite row_location. unfold present.
    destruct (row_city r) as [a |], (row_country r) as [b |];
      repeat match goal with
             | |- context [String.eqb ?s ""] =>
                 is_var s; destruct (String.eqb s "") eqn:?
             end; try discriminate;
      intros [= Heq];
      repeat match goal with
             | H : String.eqb ?s "" = false |- _ => apply eqb_empty_false in H
             end; try congruence.
    destruct a; [congruence | discriminate]. }
  unfold mapRowToCandidate.
  cbn [name id maxGuests propertyType amenities bedrooms bathrooms].
  split; [reflexivity |].
  split; [intros s ->; reflexivity |].
  split.
  { intros z -> Hz. cbn [ToString]. unfold NumberToString, of_Z.
    rewrite Qfloor_Z, Qeq_bool_refl. cbn [andb].
    destruct (Z.abs z <=? 2 ^ 53) eqn:E; [reflexivity | lia]. }
  split.
  { destruct (row_max_guests r); cbn [not_nullish]; split; intros H; try discriminate; auto;
      destruct H; discriminate. }
  split; [intros n ->; reflexivity |].
  repeat split.
Qed.
End RowFacts.

(** ** The pages of a list *)

Lemma page_of_chunk (base : Plan.t) (ps : Z) (properties : list PricedProperty) (i : nat) :
  1 <= ps -> (1 <= i)%nat ->
  page_of base ps properties i
  = take (Z.to_nat ps) (drop ((i - 1) * Z.to_nat ps) properties).
Proof.
  intros Hps Hi. unfold page_of.
  rewrite (pagination_slice _ properties (Z.of_nat i) ps) by (reflexivity || lia).
  set (n := Z.of_nat (length properties)).
  assert (Hstart : Z.to_nat ((Z.of_nat i - 1) * ps) = ((i - 1) * Z.to_nat ps)%nat) by nia.
  destruct (Z.min_spec ((Z.of_nat i - 1) * ps) n) as [[Hlt ->] | [Hge ->]].
  - rewrite Hstart.
    destruct (Z.min_spec (Z.of_nat i * ps) n) as [[Hlt2 ->] | [Hge2 ->]].
    + f_equal. nia.
    + rewrite !take_ge; [reflexivity | |]; rewrite length_drop; subst n; nia.
  - rewrite !drop_ge by (subst n; nia). rewrite !take_nil. reflexivity.
Qed.

Lemma chunks_concat {A : Type} (l : list A) (m k : nat) :
  concat (map (fun i => take m (drop ((i - 1) * m) l)) (seq 1 k)) = take (k * m) l.
Proof.
  induction k as [| k IH]; [reflexivity |].
  rewrite seq_S, map_app, concat_app, IH. cbn [map concat].
  rewrite app_nil_r. replace (1 + k - 1)%nat with k by lia.
  rewrite take_take_drop. f_equal. lia.
Qed.

Lemma page_count_covers (ps : Z) (properties : list PricedProperty) :
  1 <= ps -> (length properties <= page_count ps properties * Z.to_nat ps)%nat.
Proof.
  intros Hps. unfold page_count. rewrite Qceiling_div by lia.
  set (n := Z.of_nat (length properties)).
  pose proof (Z.div_mod (- n) ps ltac:(lia)) as Hdm.
  pose proof (Z.mod_pos_bound (- n) ps ltac:(lia)) as Hb.
  assert (Hq : n <= - ((- n) `div` ps) * ps) by nia.
  assert (Hn : n <= Z.max 1 (- ((- n) `div` ps)) * ps).
  { destruct (Z.max_spec 1 (- ((- n) `div` ps))) as [[Hlt ->] | [Hge ->]]; nia. }
  apply Nat2Z.inj_le. rewrite Nat2Z.inj_mul, !Z2Nat.id by lia. exact Hn.
Qed.

(** X17. For a page size of at least 1, the pages 1 ... [totalPages] the
    pagination stage returns, put one after the other, are the ranked list:
    no property is lost or repeated, and the order is kept; [totalPages]
    is the number the stage reports in its metadata. *)
Theorem pages_partition_the_list (base : Plan.t) (ps : Z) (properties : list PricedProperty) :
  1 <= ps ->
  concat (map (page_of base ps properties) (seq 1 (page_count ps properties))) = properties
  /\ Result.totalPages
       (Result.pagination (pagination (plan_with_paging base (of_Z 1) (of_Z ps)) properties))
     = of_Z (Z.of_nat (page_count ps properties)).
Proof.
  intros Hps. split.
  - rewrite (map_ext_in _ (fun i => take (Z.to_nat ps) (drop ((i - 1) * Z.to_nat ps) properties))).
    + rewrite chunks_concat. apply take_ge. apply page_count_covers. exact Hps.
    + intros i Hi. apply in_seq in Hi. apply page_of_chunk; lia.
  - rewrite (pagination_meta _ properties 1 ps) by (reflexivity || lia).
    cbn [Result.totalPages]. unfold page_count. f_equal. lia.
Qed.

(** X18. For a page size of at least 1, a page never has more than
    [pageSize] properties; every page before the last one is full, the last
    one of a list that is not empty has at least one property, and a page
    after the last one is empty. *)
Theorem page_length (base : Plan.t) (ps : Z) (properties : list PricedProperty) (i : nat) :
  1 <= ps -> (1 <= i)%nat ->
  length (page_of base ps properties i)
  = Nat.min (Z.to_nat ps) (length properties - (i - 1) * Z.to_nat ps)
  /\ (i < page_count ps properties ->
      length (page_of base ps properties i) = Z.to_nat ps)%nat
  /\ (properties <> [] -> i = page_count ps properties ->
      (1 <= length (page_of base ps properties i))%nat)
  /\ (page_count ps properties < i -> page_of base ps properties i = [])%nat.
Proof.
  intros Hps Hi.
  assert (Hlen : length (page_of base ps properties i)
                 = Nat.min (Z.to_nat ps) (length properties - (i - 1) * Z.to_nat ps)).
  { rewrite page_of_chunk by assumption. rewrite length_take, length_drop. reflexivity. }
  pose proof (page_count_covers ps properties Hps) as Hcover.
  assert (Hmin : (page_count ps properties = 1
                  \/ (page_count ps properties - 1) * Z.to_nat ps < length properties)%nat).
  { unfold page_count in *. rewrite Qceiling_div in * by lia.
    set (n := Z.of_nat (length properties)) in *.
    pose proof (Z.div_mod (- n) ps ltac:(lia)) as Hdm.
    pose proof (Z.mod_pos_bound (- n) ps ltac:(lia)) as Hb.
    destruct (Z.max_spec 1 (- ((- n) `div` ps))) as [[Hlt Hmax] | [Hge Hmax]];
      rewrite Hmax in *; [right | left; reflexivity].
    subst n. nia. }
  split; [exact Hlen |]. split; [| split].
  - intros Hlt. rewrite Hlen. destruct Hmin as [H1 | Hlast]; [lia |]. nia.
  - intros Hne ->. rewrite Hlen.
    assert (0 < length properties)%nat by (destruct properties; [congruence | cbn; lia]).
    destruct Hmin as [H1 | Hlast]; [rewrite H1; cbn; lia | lia].
  - intros Hgt. apply length_zero_iff_nil. rewrite Hlen. nia.
Qed.

Lemma pages_partition_the_list_witness :
  concat (map (page_of (sample_plan None) 20 (sample_ranked 45))
              (seq 1 (page_count 20 (sample_ranked 45))))
  = sample_ranked 45.
Proof.
  apply (pages_partition_the_list (sample_plan None) 20 (sample_ranked 45)). lia.
Defined.

Lemma page_length_witness :
  length (page_of (sample_plan None) 20 (sample_ranked 45) 3)
  = Nat.min (Z.to_nat 20) (length (sample_ranked 45) - (3 - 1) * Z.to_nat 20).
Proof.
  apply (page_length (sample_plan None) 20 (sample_ranked 45) 3); lia.
Defined.

(** ** The shipped search; the copy of the filters *)

Section ShippedOutcomes.
Variable StringToNumber : string -> number.
Variable ObjectToNumber : loc -> number.
Variable DateParse : string -> option Z.
Variable query : string -> list jsval -> result Failure (list CandidateRow).
Variable FractionToString : Q -> string.
Variable ObjectToString : loc -> string.

(** X20. With the shipped stages a search has exactly three outcomes:
    it fails with the plan's error and invokes no stage, or it fails in the
    candidate stage with the failure of the store, or it runs the six stages
    and returns the pagination of the empty list. *)
Theorem shipped_search_outcomes (input : Input.t) :
  let outcome :=
    search StringToNumber ObjectToNumber DateParse
           (shipped StringToNumber ObjectToNumber query FractionToString ObjectToString)
           input in
  match buildSearchPlan StringToNumber ObjectToNumber DateParse input with
  | Err code => outcome = ([], Err (PlanInvalid code))
  | Ok plan =>
      match query (text (buildCandidateSql plan)) (values (buildCandidateSql plan)) with
      | Err e => outcome = ([SCandidate], Err e)
      | Ok rows =>
          outcome = (pipeline, Ok (pagination plan []))
          /\ Result.properties (pagination plan []) = []
      end
  end.
Proof.
  cbv zeta. unfold search.
  destruct (buildSearchPlan StringToNumber ObjectToNumber DateParse input) as [plan | code];
    [| reflexivity].
  cbn. unfold candidate, runCandidateQuery.
  destruct (query (text (buildCandidateSql plan)) (values (buildCandidateSql plan)))
    as [rows | e]; cbn; [| reflexivity].
  split; [reflexivity |]. unfold pagination. cbn [Result.properties]. apply Array_slice_nil.
Qed.

End ShippedOutcomes.

Section OptionsCopy.
Variable StringToNumber : string -> number.
Variable ObjectToNumber : loc -> number.
Variable DateParse : string -> option Z.

Lemma mutate_assign_unfrozen (h : gmap loc object) (l : loc) (o : object) (k : string)
    (v : jsval) :
  h !! l = Some o -> frozen o = false ->
  mutate h (Assign l k v) = <[l := mkObj (<[k := v]> (props o)) false]> h.
Proof.
  intros Ho Hf. unfold mutate. cbn [target]. rewrite Ho, Hf. reflexivity.
Qed.

(** X21. When the input has a filters object, [plan.options] is another
    object that holds the same value for every key, and it is not frozen: an
    assignment to it takes effect, and changes neither the caller's filters
    object nor the plan object itself. *)
Theorem options_copy_is_isolated
    (h : gmap loc object) (l_in lp lf : loc) (f : object) (h1 : gmap loc object) :
  buildSearchPlan_heap StringToNumber ObjectToNumber DateParse h l_in = (Ok lp, h1) ->
  get h l_in "filters" = VRef lf ->
  h !! lf = Some f ->
  exists lo,
    get h1 lp "options" = VRef lo
    /\ (forall k, read_path h1 lp ["options"; k] = prop (props f) k)
    /\ (forall k v,
           let h2 := mutate h1 (Assign lo k v) in
           read_path h2 lp ["options"; k] = v
           /\ h2 !! lf = Some f
           /\ h2 !! lp = h1 !! lp).
Proof.
  intros Hrun Hf Hlf.
  destruct (buildSearchPlan_heap_shape _ _ _ h l_in lp h1 Hrun)
    as (plan & l_ci & l_co & l_geo & opts & Hb & Hci & Hco & Hgeo & Hlp & Hg & Hp & Hopts
        & Hold).
  destruct (buildSearchPlan_Ok _ _ _ _ plan Hb) as (_ & _ & _ & _ & _ & _ & _ & _ & _ & _ & _ & Ho).
  unfold read_input in Ho. cbn [Input.filters] in Ho. rewrite Hf, Hlf in Ho.
  cbn in Ho. rewrite Ho in Hopts. destruct Hopts as (lo & -> & Hfresh & Hlo).
  assert (Hget : get h1 lp "options" = VRef lo) by (unfold get; rewrite Hp; reflexivity).
  assert (Hlf_dom : lf ∈ dom h) by (apply elem_of_dom; eauto).
  assert (Hne_lf : lo <> lf) by (intros ->; contradiction).
  assert (Hne_lp : lo <> lp).
  { intros ->. rewrite Hp in Hlo. discriminate. }
  exists lo. split; [exact Hget |]. split.
  - intros k. cbn [read_path]. rewrite Hget. unfold get. rewrite Hlo. reflexivity.
  - intros k v. cbv zeta.
    rewrite (mutate_assign_unfrozen h1 lo _ k v Hlo eq_refl).
    split; [| split].
    + cbn [read_path].
      rewrite (get_unchanged h1 _ lp "options" (lookup_insert_ne h1 lo lp _ Hne_lp)), Hget.
      unfold get. rewrite lookup_insert_eq. cbn [props]. unfold prop.
      rewrite lookup_insert_eq. reflexivity.
    + rewrite lookup_insert_ne by exact Hne_lf. rewrite (Hold lf Hlf_dom). exact Hlf.
    + apply lookup_insert_ne. exact Hne_lp.
Qed.
End OptionsCopy.

Lemma options_copy_is_isolated_witness :
  exists lo : loc,
    get (snd sample_built) 7%positive "options" = VRef lo
    /\ read_path (mutate (snd sample_built) (Assign lo "radiusKm" (VNum (of_Z 5))))
                 7%positive ["options"; "radiusKm"] = VNum (of_Z 5)
    /\ mutate (snd sample_built) (Assign lo "radiusKm" (VNum (of_Z 5))) !! 2%positive
       = Some (mkObj {[ "radiusKm" := VNum (of_Z 100) ]} false).
Proof.
  destruct (options_copy_is_isolated no_number no_number iso_date_parse
              sample_heap 1%positive 7%positive 2%positive
              (mkObj {[ "radiusKm" := VNum (of_Z 100) ]} false) (snd sample_built))
    as (lo & Hlo & _ & Hmut).
  - vm_compute. reflexivity.
  - vm_compute. reflexivity.
  - vm_compute. reflexivity.
  - exists lo. split; [exact Hlo |].
    destruct (Hmut "radiusKm" (VNum (of_Z 5))) as (H1 & H2 & _). split; assumption.
Defined.

(** ** The database module *)

Section DbFacts.
Variable Row : Type.
Variable sql_unsafe : string -> list jsval -> result string (list Row).
Variable sql_reserve : result string loc.
Variable sql_close : result string unit.

Lemma step_closed (st : Db.state) (o : Db.op) :
  Db.closed st = true -> Db.closed (Db.step sql_close st o) = true.
Proof.
  intros H. destruct o as [t v | | | [m |]]; cbn [Db.step]; try exact H.
  - unfold Db.close. rewrite H. exact H.
  - unfold Db.onclose. rewrite H.
    destruct (true && String.eqb m "Connection closed")%bool; [exact H |].
    destruct (negb (Db.closeErrorLogged st)); [reflexivity | exact H].
Qed.

Lemma run_closed (st : Db.state) (ops : list Db.op) :
  Db.closed st = true -> Db.closed (Db.run sql_close st ops) = true.
Proof.
  revert st. induction ops as [| o ops IH]; intros st H; [exact H |].
  cbn [Db.run foldl]. apply IH. apply step_closed. exact H.
Qed.

Lemma run_app (st : Db.state) (a b : list Db.op) :
  Db.run sql_close st (a ++ b) = Db.run sql_close (Db.run sql_close st a) b.
Proof. unfold Db.run. apply foldl_app. Qed.

Lemma step_open (st : Db.state) (o : Db.op) :
  o <> Db.Close -> Db.closed (Db.step sql_close st o) = Db.closed st.
Proof.
  intros Ho. destruct o as [t v | | | [m |]]; cbn [Db.step]; try reflexivity; [congruence |].
  unfold Db.onclose.
  destruct (Db.closed st && String.eqb m "Connection closed")%bool; [reflexivity |].
  destruct (negb (Db.closeErrorLogged st)); reflexivity.
Qed.

Lemma run_closed_iff (ops : list Db.op) :
  Db.closed (Db.run sql_close Db.init ops) = true <-> In Db.Close ops.
Proof.
  induction ops as [| o ops IH] using rev_ind.
  - cbn. split; [discriminate | tauto].
  - rewrite run_app. cbn [Db.run foldl]. fold (Db.run sql_close Db.init ops).
    rewrite in_app_iff. cbn [In].
    destruct (Db.closed (Db.run sql_close Db.init ops)) eqn:Hc.
    + rewrite step_closed by exact Hc. split; [intros _; left; apply IH; reflexivity | reflexivity].
    + destruct o as [t v | | | e].
      * rewrite step_open by discriminate. rewrite Hc.
        split; [discriminate | intros [H | [H | []]]; [apply IH in H |]; discriminate].
      * rewrite step_open by discriminate. rewrite Hc.
        split; [discriminate | intros [H | [H | []]]; [apply IH in H |]; discriminate].
      * split; [auto |]. intros _. cbn [Db.step]. unfold Db.close. rewrite Hc. reflexivity.
      * rewrite step_open by discriminate. rewrite Hc.
        split; [discriminate | intros [H | [H | []]]; [apply IH in H |]; discriminate].
Qed.

(** X22. After any sequence of calls and connection events, the module is
    closed exactly if [close] was called: from then on [query] and
    [getClient] reject with their fixed messages and never reach the driver;
    before, they give what the driver gives, an absent [values] being passed
    as the empty array. *)
Theorem queries_served_until_close (ops : list Db.op) (text : string)
    (values : option (list jsval)) :
  let st := Db.run sql_close Db.init ops in
  (In Db.Close ops ->
   Db.isClosed st = true
   /\ Db.query Row sql_unsafe text values st = Err Db.CLOSED_QUERY
   /\ Db.getClient sql_reserve st = Err Db.CLOSED_CLIENT)
  /\ (~ In Db.Close ops ->
      Db.isClosed st = false
      /\ Db.query Row sql_unsafe text values st = sql_unsafe text (default [] values)
      /\ Db.getClient sql_reserve st = sql_reserve).
Proof.
  cbv zeta. pose proof (run_closed_iff ops) as Hiff.
  unfold Db.isClosed, Db.query, Db.getClient.
  destruct (Db.closed (Db.run sql_close Db.init ops)).
  - split; [auto |]. intros Hn. exfalso. apply Hn. apply Hiff. reflexivity.
  - split; [| auto]. intros Hin. apply Hiff in Hin. discriminate.
Qed.

Lemma step_consistent (st : Db.state) (o : Db.op) :
  consistent sql_close st -> consistent sql_close (Db.step sql_close st o).
Proof.
  unfold consistent. intros H.
  destruct o as [t v | | | [m |]]; cbn [Db.step]; try exact H.
  - unfold Db.close. destruct (Db.closed st) eqn:Hc; cbn [snd]; [rewrite Hc; exact H |].
    cbn. destruct H as [_ ->]. auto.
  - unfold Db.onclose.
    destruct (Db.closed st && String.eqb m "Connection closed")%bool; [exact H |].
    destruct (negb (Db.closeErrorLogged st)); [| exact H].
    cbn. exact H.
Qed.

Lemma run_consistent (ops : list Db.op) : consistent sql_close (Db.run sql_close Db.init ops).
Proof.
  induction ops as [| o ops IH] using rev_ind.
  - cbn. auto.
  - rewrite run_app. cbn [Db.run foldl]. apply step_consistent. exact IH.
Qed.

(** X23. However often [close] is called, the driver's [close] is called
    at most once, namely at the first call; every call of [close], the
    first and the later ones, settles as the driver's [close] did, and a
    later one changes nothing. *)
Theorem driver_closed_once (ops : list Db.op) :
  let st := Db.run sql_close Db.init ops in
  (Db.driver_closes st <= 1)%nat
  /\ (Db.driver_closes st = 1%nat <-> In Db.Close ops)
  /\ fst (Db.close sql_close st) = sql_close
  /\ Db.driver_closes (snd (Db.close sql_close st)) = 1%nat
  /\ (In Db.Close ops -> snd (Db.close sql_close st) = st).
Proof.
  cbv zeta. pose proof (run_consistent ops) as Hc. pose proof (run_closed_iff ops) as Hiff.
  unfold consistent in Hc. unfold Db.close.
  destruct (Db.closed (Db.run sql_close Db.init ops)) eqn:E.
  - destruct Hc as [Hp Hd]. rewrite Hp, Hd. cbn.
    repeat split; auto. intros _. apply Hiff. reflexivity.
  - destruct Hc as [Hp Hd]. rewrite Hd. cbn.
    repeat split; auto; try lia; try discriminate.
    + intros Hin. apply Hiff in Hin. discriminate.
    + intros Hin. apply Hiff in Hin. discriminate.
Qed.

Lemma closing_line_is_not_connection_line (m : string) :
  String.prefix Db.LOG_CONNECTION (Db.LOG_CLOSING +:+ m) = false.
Proof. reflexivity. Qed.

Lemma connection_line (m : string) :
  String.prefix Db.LOG_CONNECTION (Db.LOG_CONNECTION +:+ m) = true.
Proof. apply prefix_app. eauto. Qed.

Lemma step_logged_once (st : Db.state) (o : Db.op) :
  logged_once st -> logged_once (Db.step sql_close st o).
Proof.
  unfold logged_once, connection_errors. intros H.
  destruct o as [t v | | | [m |]]; cbn [Db.step]; try exact H.
  - unfold Db.close. destruct (Db.closed st); cbn [snd]; [exact H |].
    cbn [Db.console Db.closeErrorLogged]. rewrite filter_app, length_app, H.
    destruct sql_close as [u | m]; cbn [filter list_filter length]; [lia |].
    rewrite decide_False; [cbn; lia |].
    rewrite closing_line_is_not_connection_line. discriminate.
  - unfold Db.onclose.
    destruct (Db.closed st && String.eqb m "Connection closed")%bool; [exact H |].
    destruct (Db.closeErrorLogged st) eqn:Hl; cbn [negb]; [rewrite Hl; exact H |].
    cbn [Db.console Db.closeErrorLogged]. rewrite filter_app, length_app, H.
    cbn [filter list_filter]. rewrite decide_True by apply connection_line. reflexivity.
Qed.

(** X24. Whatever the connection events, the [onclose] callback logs at
    most one line; once it has logged, it never changes the state again; a
    ["Connection closed"] error after [close] and an event without error
    are ignored. *)
Theorem connection_errors_logged_once (ops : list Db.op) :
  let st := Db.run sql_close Db.init ops in
  (length (connection_errors st) <= 1)%nat
  /\ (forall m, Db.closeErrorLogged st = true ->
                Db.onclose (Some m) st = st)
  /\ (In Db.Close ops -> Db.onclose (Some "Connection closed") st = st)
  /\ Db.onclose None st = st.
Proof.
  cbv zeta.
  assert (Hinv : logged_once (Db.run sql_close Db.init ops)).
  { induction ops as [| o ops IH] using rev_ind; [reflexivity |].
    rewrite run_app. cbn [Db.run foldl]. apply step_logged_once. exact IH. }
  unfold logged_once in Hinv.
  split; [rewrite Hinv; destruct (Db.closeErrorLogged _); lia |].
  split; [| split; [| reflexivity]].
  - intros m Hl. unfold Db.onclose. rewrite Hl. cbn [negb].
    destruct (Db.closed _ && String.eqb m "Connection closed")%bool; reflexivity.
  - intros Hin. apply run_closed_iff in Hin. unfold Db.onclose. rewrite Hin. reflexivity.
Qed.

End DbFacts.

(** ** The cursor schema *)

Lemma trimStart_length (s : list N) : (length (Cursor.trimStart s) <= length s)%nat.
Proof.
  induction s as [| u s IH]; cbn [Cursor.trimStart length]; [lia |].
  destruct (Cursor.is_white u); cbn [length]; lia.
Qed.

Lemma trimStart_fixed (s : list N) :
  Cursor.trimStart s = s <-> match head s with Some u => Cursor.is_white u = false | None => True end.
Proof.
  destruct s as [| u s]; cbn [Cursor.trimStart head]; [tauto |].
  destruct (Cursor.is_white u) eqn:E; split; try reflexivity; try discriminate.
  intros H. pose proof (trimStart_length s) as Hl. rewrite H in Hl. cbn in Hl. lia.
Qed.

Lemma head_rev {A : Type} (s : list A) : head (rev s) = last s.
Proof.
  induction s as [| a s IH] using rev_ind; [reflexivity |].
  rewrite rev_app_distr, last_snoc. reflexivity.
Qed.

Lemma trim_fixed (s : list N) :
  s = Cursor.trim s
  <-> match head s with Some u => Cursor.is_white u = false | None => True end
      /\ match last s with Some u => Cursor.is_white u = false | None => True end.
Proof.
  unfold Cursor.trim. split.
  - intros H.
    assert (Hlen : length (rev (Cursor.trimStart (rev (Cursor.trimStart s)))) = length s)
      by (rewrite <- H; reflexivity).
    rewrite length_rev in Hlen.
    pose proof (trimStart_length (rev (Cursor.trimStart s))) as H1.
    pose proof (trimStart_length s) as H2. rewrite length_rev in H1.
    assert (Hs : Cursor.trimStart s = s).
    { destruct s as [| u s]; [reflexivity |]. cbn [Cursor.trimStart] in *.
      destruct (Cursor.is_white u); [| reflexivity].
      pose proof (trimStart_length s). cbn [length] in *. lia. }
    rewrite Hs in *. split; [apply trimStart_fixed; exact Hs |].
    rewrite <- head_rev. apply trimStart_fixed.
    destruct (rev s) as [| u t] eqn:E; [reflexivity |]. cbn [Cursor.trimStart] in *.
    destruct (Cursor.is_white u); [| reflexivity].
    pose proof (trimStart_length t). rewrite <- (length_rev s), E in Hlen. cbn [length] in *. lia.
  - intros [Hh Hl]. apply trimStart_fixed in Hh. rewrite Hh.
    rewrite <- head_rev in Hl. apply trimStart_fixed in Hl. rewrite Hl.
    symmetry. apply rev_involutive.
Qed.

(** X25. The cursor schema accepts [undefined] and the strings of 1 to 256
    UTF-16 code units that neither start nor end with white space, and
    returns the value it was given; it rejects every other value ([null],
    numbers, booleans, objects, the empty string, strings of white space). *)
Theorem cursor_accepted_iff (v w : Cursor.raw) :
  Cursor.cursorSchema v = Ok w
  <-> w = v
      /\ (v = Cursor.RUndefined
          \/ exists s,
               v = Cursor.RString s
               /\ (1 <= length s <= 256)%nat
               /\ match head s with Some u => Cursor.is_white u = false | None => True end
               /\ match last s with Some u => Cursor.is_white u = false | None => True end).
Proof.
  unfold Cursor.cursorSchema, Cursor.refinement, Cursor.CURSOR_MAX_LENGTH.
  destruct v as [| | b | n | s |];
    try (split; [discriminate | intros [_ [H | (s' & H & _)]]; discriminate]).
  - split; [intros [= <-]; auto | intros [-> _]; reflexivity].
  - destruct (0 <? length s)%nat eqn:H0; cbn [andb].
    2:{ split; [discriminate |]. intros [_ [H | (s' & [= <-] & Hlen & _)]]; [discriminate |].
        apply Nat.ltb_ge in H0. lia. }
    destruct (length s <=? 256)%nat eqn:H1; cbn [andb].
    2:{ split; [discriminate |]. intros [_ [H | (s' & [= <-] & Hlen & _)]]; [discriminate |].
        apply Nat.leb_gt in H1. lia. }
    apply Nat.ltb_lt in H0. apply Nat.leb_le in H1.
    destruct (bool_decide (s = Cursor.trim s)) eqn:Ht.
    + apply bool_decide_eq_true in Ht. apply trim_fixed in Ht.
      split; [intros [= <-]; split; [reflexivity |]; right; exists s; repeat split; tauto || lia |].
      intros [-> _]. reflexivity.
    + apply bool_decide_eq_false in Ht. split; [discriminate |].
      intros [_ [H | (s' & [= <-] & _ & Hh & Hl)]]; [discriminate |].
      exfalso. apply Ht. apply trim_fixed. auto.
Qed.
